(** * plot-all-in-ncfile: cyclic-point correction, colormap cache and map
      rendering, verified over a shallow embedding of [plot_util.py] and
      [plot-all-in-ncfile.py].

    Layout of the development:
    - [Py]      : Python exceptions, results, the little of [str] and
                  [os.path] the script uses;
    - [Numpy]   : n-dimensional arrays ([shape], indexing along an axis,
                  concatenation, [==] with IEEE NaN, [np.all], [np.diff],
                  [np.allclose]);
    - [Xray]    : [DataArray] and [Dataset] records, [isel], [rename];
    - [Cartopy] : [add_cyclic_point];
    - [PlotUtil]: [check_cyclic], [cyclic_dataarray], [add_colorbar],
                  [geo_plot];
    - [Script]  : the [__main__] block of [plot-all-in-ncfile.py].

    Library calls whose result does not depend on code of this repository
    (colormap inference, time grouping, the drawing primitives, the file
    system) are the fields of the record [Env]; library calls whose
    behaviour decides a property ([isel], [rename], [add_cyclic_point],
    [os.path.splitext]) are written out after the library's own code. *)

From Stdlib Require Import PrimFloat.
From Stdlib Require Import QArith Qabs Ascii String.
From stdpp Require Import gmap strings list fin_maps.

Local Open Scope string_scope.
Local Open Scope list_scope.
Local Open Scope Z_scope.

(* ===================================================================== *)
(** ** Python values, exceptions and results *)
(* ===================================================================== *)

Module Py.

(** The exceptions that the two source files raise, catch or let
    through. *)
Inductive exn :=
| ValueError (msg : string)
| IndexError
| KeyError (key : string)
| TypeError (msg : string)
| AttributeError (name : string)
| RuntimeError
| FileNotFoundError
| IOError
| OtherError (msg : string)
| SystemExit (status : Z).

Inductive result (A : Type) :=
| Ok (a : A)
| Raise (e : exn).
Arguments Ok {A} a.
Arguments Raise {A} e.

Definition bind {A B} (r : result A) (k : A -> result B) : result B :=
  match r with
  | Ok a => k a
  | Raise e => Raise e
  end.

#[global] Instance result_ret : MRet result := fun _ a => Ok a.
#[global] Instance result_bind : MBind result := fun _ _ k r => bind r k.

Definition is_ok {A} (r : result A) : bool :=
  match r with Ok _ => true | Raise _ => false end.

(** [for x in xs: body], stopping at the first exception. *)
Fixpoint for_each {A S} (body : S -> A -> result S) (xs : list A) (s : S)
  : result S :=
  match xs with
  | [] => Ok s
  | x :: xs' => s' ← body s x; for_each body xs' s'
  end.

(** [seq[i]] for a Python integer [i]: negative indices count from the
    end, anything outside [-n, n) is an [IndexError]. *)
Definition py_index (n : nat) (i : Z) : result nat :=
  let j := if i <? 0 then i + Z.of_nat n else i in
  if (0 <=? j) && (j <? Z.of_nat n) then Ok (Z.to_nat j) else Raise IndexError.

(** [xs.index(x)] on a tuple or list. *)
Fixpoint index_of (x : string) (xs : list string) : option nat :=
  match xs with
  | [] => None
  | y :: ys => if String.eqb x y then Some O else S <$> index_of x ys
  end.

(** Keyword dictionaries hold numbers, strings, sequences and objects the
    script never inspects (colormaps, norms, coordinate systems). *)
#[warnings="-register-all"]
Inductive value :=
| VNone
| VBool (b : bool)
| VNum (q : Q)
| VStr (s : string)
| VSeq (items : list value)
| VObj (tag : string).

Abbreviation kwargs := (gmap string value).

(** [d.update(other)]: the entries of [other] win. *)
Definition update {V} (d other : gmap string V) : gmap string V := other ∪ d.

(** [for k, v in src.items(): dst[k] = v]. *)
Definition copy_items {V} (src dst : gmap string V) : gmap string V :=
  foldl (fun acc kv => <[kv.1 := kv.2]> acc) dst (map_to_list src).

(** *** Effects

    What a run does to the outside world, in the order it does it. *)
Inductive event :=
| Print (line : string)
| Warn (msg : string)
| Dump (path : string) (content : gmap string kwargs)
| SaveFig (path : string) (dpi : Z) (bbox_inches : string)
| Call (what : string).

(** A computation returns or raises, and leaves the events it caused, in
    order; the events caused before an exception stay. *)
Definition io (A : Type) : Type := (result A * list event)%type.

Definition io_ret {A} (a : A) : io A := (Ok a, []).

Definition io_bind {A B} (m : io A) (k : A -> io B) : io B :=
  match m with
  | (Ok a, evs) => let '(r, evs') := k a in (r, evs ++ evs')
  | (Raise e, evs) => (Raise e, evs)
  end.

#[global] Instance io_mret : MRet io := fun _ a => io_ret a.
#[global] Instance io_mbind : MBind io := fun _ _ k m => io_bind m k.

Definition emit (e : event) : io unit := (Ok tt, [e]).
Definition raise {A} (e : exn) : io A := (Raise e, []).
Definition lift {A} (r : result A) : io A := (r, []).

(** [print(...)], [warnings.warn(...)], [sys.exit(n)]. *)
Definition print (line : string) : io unit := emit (Print line).
Definition warn (msg : string) : io unit := emit (Warn msg).
Definition sys_exit {A} (status : Z) : io A := raise (SystemExit status).

(** [for x in xs: body] with effects. *)
Fixpoint io_for {A} (body : A -> io unit) (xs : list A) : io unit :=
  match xs with
  | [] => io_ret tt
  | x :: xs' => io_bind (body x) (fun _ => io_for body xs')
  end.

Fixpoint io_fold {A S} (body : S -> A -> io S) (xs : list A) (s : S) : io S :=
  match xs with
  | [] => io_ret s
  | x :: xs' => io_bind (body s x) (io_fold body xs')
  end.

(** Exit status of the interpreter: [sys.exit(n)] gives [n], any other
    uncaught exception gives 1. *)
Definition exit_status {A} (r : result A) : Z :=
  match r with
  | Ok _ => 0
  | Raise (SystemExit n) => n
  | Raise _ => 1
  end.

(** *** Strings *)

Definition digit (n : nat) : Ascii.ascii :=
  ascii_of_nat (48 + n mod 10).

(** [%02d] and [%04d] of a number below 100, below 10000. *)
Definition pad2 (n : nat) : string :=
  String (digit (n / 10)) (String (digit n) "").

Definition pad4 (n : nat) : string :=
  pad2 (n / 100) +:+ pad2 (n mod 100).

(** [s.rfind(c)]: the last position of [c] in [s], or -1. *)
Fixpoint rfind_from (c : Ascii.ascii) (s : string) (pos : Z) (found : Z) : Z :=
  match s with
  | EmptyString => found
  | String a s' => rfind_from c s' (pos + 1) (if Ascii.eqb a c then pos else found)
  end.

Definition rfind (c : Ascii.ascii) (s : string) : Z := rfind_from c s 0 (-1).

Fixpoint string_take (n : nat) (s : string) : string :=
  match n, s with
  | S n', String a s' => String a (string_take n' s')
  | _, _ => ""
  end.

Fixpoint string_drop (n : nat) (s : string) : string :=
  match n, s with
  | S n', String _ s' => string_drop n' s'
  | _, _ => s
  end.

Fixpoint string_exists (f : Ascii.ascii -> bool) (s : string) : bool :=
  match s with
  | EmptyString => false
  | String a s' => f a || string_exists f s'
  end.

(** [os.path.splitext(p)] (posixpath): the extension starts at the last
    dot of the last path component, unless that component has only dots
    before it. The scan of the source, which returns at the first
    character other than a dot in [p[sepIndex+1:dotIndex]], is the
    [string_exists] below. *)
Definition splitext (p : string) : string * string :=
  let sepIndex := rfind "/" p in
  let dotIndex := rfind "." p in
  if (sepIndex <? dotIndex)
     && string_exists (fun a => negb (Ascii.eqb a "."))
          (string_take (Z.to_nat (dotIndex - (sepIndex + 1)))
                       (string_drop (Z.to_nat (sepIndex + 1)) p))
  then (string_take (Z.to_nat dotIndex) p, string_drop (Z.to_nat dotIndex) p)
  else (p, "").

End Py.
Export Py.


(* ===================================================================== *)
(** ** numpy arrays *)
(* ===================================================================== *)

Module Numpy.

(** A float64 cell: a number or NaN. Under [==] two numbers are compared
    by value and NaN differs from everything, itself included. *)
Inductive scalar :=
| Num (q : Q)
| NaN.

Definition scalar_eqb (a b : scalar) : bool :=
  match a, b with
  | Num x, Num y => Qeq_bool x y
  | _, _ => false
  end.

Definition isnan (a : scalar) : bool :=
  match a with NaN => true | Num _ => false end.

(** Arithmetic propagates NaN. *)
Definition add (a b : scalar) : scalar :=
  match a, b with
  | Num x, Num y => Num (x + y)
  | _, _ => NaN
  end.

Definition sub (a b : scalar) : scalar :=
  match a, b with
  | Num x, Num y => Num (x - y)
  | _, _ => NaN
  end.

(** The cells of an array, one nesting level per axis (C order). *)
#[warnings="-register-all"]
Inductive nested (A : Type) :=
| Item (x : A)
| Arr (xs : list (nested A)).
Arguments Item {A} x.
Arguments Arr {A} xs.

(** An array carries its [shape]; the shape decides the length of every
    axis, also of those below an axis of length zero. *)
Record ndarray (A : Type) := mk_ndarray {
  shape : list nat;
  items : nested A
}.
Arguments mk_ndarray {A} shape items.
Arguments shape {A} n.
Arguments items {A} n.

Fixpoint has_shape {A} (sh : list nat) (a : nested A) {struct sh} : bool :=
  match sh, a with
  | [], Item _ => true
  | n :: sh', Arr xs => Nat.eqb (length xs) n && forallb (has_shape sh') xs
  | _, _ => false
  end.

Definition well_shaped {A} (a : ndarray A) : bool :=
  has_shape (shape a) (items a).

Definition ndim {A} (a : ndarray A) : nat := length (shape a).

(** [a[:, ..., i, ..., :]] with the integer [i] at position [axis]; the
    axis disappears from the result. *)
Fixpoint select {A} (axis i : nat) (a : nested A) {struct axis}
  : option (nested A) :=
  match a with
  | Item _ => None
  | Arr xs =>
      match axis with
      | O => xs !! i
      | S k => Arr <$> mapM (select k i) xs
      end
  end.

Definition take_index {A} (a : ndarray A) (axis : nat) (i : Z)
  : result (ndarray A) :=
  match shape a !! axis with
  | None => Raise IndexError
  | Some n =>
      k ← py_index n i;
      match select axis k (items a) with
      | Some b => Ok (mk_ndarray (delete axis (shape a)) b)
      | None => Raise IndexError
      end
  end.

(** [a[:, ..., 0:1, ..., :]]: a slice keeps the axis, and is empty on an
    empty axis instead of raising. *)
Fixpoint slice_first {A} (axis : nat) (a : nested A) {struct axis} : nested A :=
  match a with
  | Item x => Item x
  | Arr xs =>
      match axis with
      | O => Arr (firstn 1 xs)
      | S k => Arr (map (slice_first k) xs)
      end
  end.

(** [concatenate((a, b), axis)] on the cells. *)
Fixpoint join {A} (axis : nat) (a b : nested A) {struct axis} : nested A :=
  match a, b with
  | Arr xs, Arr ys =>
      match axis with
      | O => Arr (xs ++ ys)
      | S k => Arr (zip_with (join k) xs ys)
      end
  | _, _ => a
  end.

(** Shapes that differ at most at position [axis]. *)
Definition same_off_axis (axis : nat) (s1 s2 : list nat) : bool :=
  bool_decide (delete axis s1 = delete axis s2).

Definition concatenate {A} (a b : ndarray A) (axis : nat) : result (ndarray A) :=
  match shape a !! axis, shape b !! axis with
  | Some n, Some m =>
      if same_off_axis axis (shape a) (shape b)
      then Ok (mk_ndarray (<[axis := (n + m)%nat]> (shape a))
                          (join axis (items a) (items b)))
      else Raise (ValueError "all the input array dimensions except for the concatenation axis must match exactly")
  | _, _ => Raise (ValueError "axis out of bounds")
  end.

(** Cell-wise combination of two arrays of one shape. *)
Fixpoint map2 {A B C} (f : A -> B -> C) (a : nested A) (b : nested B)
  : nested C :=
  match a, b with
  | Item x, Item y => Item (f x y)
  | Arr xs, Arr ys =>
      Arr ((fix go (xs : list (nested A)) (ys : list (nested B)) :=
              match xs, ys with
              | x :: xs', y :: ys' => map2 f x y :: go xs' ys'
              | _, _ => []
              end) xs ys)
  | _, _ => Arr []
  end.

(** [a == b] for operands of equal shape (the only case the script
    reaches: both operands are selections of one array along one axis). *)
Definition equal (a b : ndarray scalar) : result (ndarray bool) :=
  if bool_decide (shape a = shape b)
  then Ok (mk_ndarray (shape a) (map2 scalar_eqb (items a) (items b)))
  else Raise (ValueError "operands could not be broadcast together").

(** [np.all]: true on an array without cells. *)
Fixpoint all_cells (a : nested bool) : bool :=
  match a with
  | Item b => b
  | Arr xs => forallb all_cells xs
  end.

Definition all (a : ndarray bool) : bool := all_cells (items a).

(** The cells of a one-dimensional array, in order. *)
Definition cells1 {A} (a : nested A) : list A :=
  match a with
  | Item _ => []
  | Arr xs => omap (fun x => match x with Item v => Some v | Arr _ => None end) xs
  end.

Definition array1 {A} (xs : list A) : ndarray A :=
  mk_ndarray [length xs] (Arr (Item <$> xs)).

(** [np.diff] on a one-dimensional array. *)
Fixpoint diff (xs : list scalar) : list scalar :=
  match xs with
  | x :: (y :: _) as rest => sub y x :: diff rest
  | _ => []
  end.

(** [np.allclose(a, b)] with a scalar [b] and the default tolerances:
    every [x] of [a] has [|x - b| <= atol + rtol * |b|]. *)
Definition rtol : Q := 1 # 100000.
Definition atol : Q := 1 # 100000000.

Definition isclose (x b : scalar) : bool :=
  match x, b with
  | Num p, Num q => Qle_bool (Qabs (p - q)) (atol + rtol * Qabs q)
  | _, _ => false
  end.

Definition allclose (a : list scalar) (b : scalar) : bool :=
  forallb (fun x => isclose x b) a.

End Numpy.

(* ===================================================================== *)
(** ** xray: labelled arrays and datasets *)
(* ===================================================================== *)

Module Xray.
Import Numpy.

(** [xray.Variable]: named dimensions, data, attributes. *)
Record Var := mk_Var {
  v_dims : list string;
  v_data : ndarray scalar;
  v_attrs : gmap string string
}.

(** [xray.DataArray]: a variable, its coordinates and a name. *)
Record DataArray := mk_DataArray {
  dims : list string;
  values : ndarray scalar;
  coords : gmap string Var;
  attrs : gmap string string;
  name : option string
}.

(** A coordinate fits an array when each of its dimensions is a dimension
    of the array, with the same length. *)
Definition dim_fits (da_dims : list string) (da_shape : list nat)
    (d : string) (n : nat) : bool :=
  match index_of d da_dims with
  | Some k => bool_decide (da_shape !! k = Some n)
  | None => false
  end.

Definition coord_fits (da_dims : list string) (da_shape : list nat)
    (c : Var) : bool :=
  Nat.eqb (length (v_dims c)) (ndim (v_data c))
  && forallb (fun dn => dim_fits da_dims da_shape dn.1 dn.2)
             (zip (v_dims c) (shape (v_data c))).

(** [xray.DataArray(values, dims=dims, coords=coords)]: the constructor
    refuses dimension names that do not match the data and coordinates
    that do not fit; the new array has no attributes and no name. *)
Definition new_DataArray (vals : ndarray scalar) (ds : list string)
    (cs : gmap string Var) : result DataArray :=
  if negb (Nat.eqb (length ds) (ndim vals))
  then Raise (ValueError "different number of dimensions on data and dims")
  else if forallb (fun kc => coord_fits ds (shape vals) kc.2) (map_to_list cs)
  then Ok (mk_DataArray ds vals cs ∅ None)
  else Raise (ValueError "coordinate does not fit the dimensions of the data").

(** Integer indexing of a variable along a named dimension; a variable
    without the dimension is returned as it is. *)
Definition isel_variable (d : string) (i : Z) (v : Var) : result Var :=
  match index_of d (v_dims v) with
  | None => Ok v
  | Some axis =>
      data ← take_index (v_data v) axis i;
      Ok (mk_Var (delete axis (v_dims v)) data (v_attrs v))
  end.

(** The coordinates of an array, each indexed along [d]. *)
Definition isel_coords (d : string) (i : Z) (cs : gmap string Var)
  : result (gmap string Var) :=
  for_each (fun acc kc => c ← isel_variable d i kc.2; Ok (<[kc.1 := c]> acc))
           (map_to_list cs) ∅.

(** [da.isel] with the keyword [d=i]: an unknown dimension is a
    [ValueError]; the data is indexed first, then every coordinate. *)
Definition isel (da : DataArray) (d : string) (i : Z) : result DataArray :=
  match index_of d (dims da) with
  | None => Raise (ValueError ("dimensions ['" +:+ d +:+ "'] do not exist"))
  | Some axis =>
      vals ← take_index (values da) axis i;
      cs ← isel_coords d i (coords da);
      Ok (mk_DataArray (delete axis (dims da)) vals cs (attrs da) (name da))
  end.

(** [xray.Dataset]: the variables by name, the names that are coordinates,
    global attributes. The variables are an [OrderedDict]: a mapping and
    the order of its keys, for a file that was opened the order of the
    file. *)
Record Dataset := mk_Dataset {
  variables : gmap string Var;
  var_order : list string;
  coord_names : gset string;
  ds_attrs : gmap string string
}.

(** The elements of a list, each at its first occurrence. *)
Definition first_occurrences (l : list string) : list string :=
  reverse (remove_dups (reverse l)).

(** [list(dataset.variables)]: the keys in their order. These are the
    names of [var_order] that are variables, each once; a dataset of xray
    lists every variable once, and for a record that does not, the
    variables it leaves out follow. *)
Definition keys_in_order (ds : Dataset) : list string :=
  let listed :=
    first_occurrences (filter (fun k => k ∈ dom (variables ds)) (var_order ds)) in
  listed ++ filter (fun k => k ∉ listed) (map_to_list (variables ds)).*1.

(** [dataset.variables.items()] *)
Definition items_in_order (ds : Dataset) : list (string * Var) :=
  omap (fun k => pair k <$> variables ds !! k) (keys_in_order ds).

(** [name in dataset]: is [name] one of the dataset's variables. *)
Definition contains (ds : Dataset) (n : string) : bool :=
  bool_decide (n ∈ dom (variables ds)).

(** [dataset.dims]: every dimension some variable has. *)
Definition ds_dims (ds : Dataset) : gset string :=
  ⋃ ((fun kv => list_to_set (v_dims kv.2)) <$> map_to_list (variables ds)).

(** [dataset[n]]: the variable with the coordinates that live on its
    dimensions. *)
Definition getitem (ds : Dataset) (n : string) : result DataArray :=
  match variables ds !! n with
  | None => Raise (KeyError n)
  | Some v =>
      Ok (mk_DataArray (v_dims v) (v_data v)
            (filter (fun kc => kc.1 ∈ coord_names ds
                               ∧ Forall (fun d => d ∈ v_dims v) (v_dims kc.2))
                    (variables ds))
            (v_attrs v) (Some n))
  end.

Definition rename_name (old new n : string) : string :=
  if String.eqb n old then new else n.

Definition rename_dims (old new : string) (v : Var) : Var :=
  mk_Var (rename_name old new <$> v_dims v) (v_data v) (v_attrs v).

(** One turn of the inner loop of [calculate_dimensions]: the dimension
    [dn.1] of length [dn.2] joins the sizes found so far. *)
Definition add_dimension (scalar_vars : list string) (dims : gmap string nat)
    (dn : string * nat) : result (gmap string nat) :=
  if bool_decide (dn.1 ∈ scalar_vars)
  then Raise (ValueError ("dimension " +:+ dn.1 +:+
                          " already exists as a scalar variable"))
  else
    match dims !! dn.1 with
    | None => Ok (<[dn.1 := dn.2]> dims)
    | Some size =>
        if Nat.eqb size dn.2 then Ok dims
        else Raise (ValueError ("conflicting sizes for dimension '" +:+ dn.1 +:+ "'"))
    end.

(** [calculate_dimensions(variables)]: the length of every dimension. A
    dimension that two variables have with different lengths, or that is
    the name of a variable without dimensions, is a [ValueError]. *)
Definition calculate_dimensions (vs : list (string * Var))
  : result (gmap string nat) :=
  let scalar_vars := (filter (fun kv => v_dims kv.2 = []) vs).*1 in
  for_each (fun dims kv =>
              for_each (add_dimension scalar_vars)
                       (zip (v_dims kv.2) (shape (v_data kv.2))) dims)
           vs ∅.

(** [dataset.rename({old: new}, inplace=True)], as xray 0.6 has it: [old]
    must be a variable of the dataset; then a new [OrderedDict] is filled
    in the order of the old one, every variable under its name, or under
    [new] when its name is [old], with every dimension [old] called
    [new]. The assignment [variables[name] = var] to a name that is there
    already replaces the value and leaves the name where it is. The
    dimensions are then calculated anew, which refuses conflicting
    sizes. *)
Definition rename (ds : Dataset) (old new : string) : result Dataset :=
  if negb (contains ds old)
  then Raise (ValueError ("cannot rename '" +:+ old +:+
                          "' because it is not a variable in this dataset"))
  else
    let its := items_in_order ds in
    let vs := foldl (fun acc kv => <[rename_name old new kv.1 := rename_dims old new kv.2]> acc)
                    ∅ its in
    let order := first_occurrences (rename_name old new <$> its.*1) in
    let cn := list_to_set (rename_name old new
                             <$> filter (fun k => k ∈ coord_names ds) its.*1) in
    _ ← calculate_dimensions (omap (fun k => pair k <$> vs !! k) order);
    Ok (mk_Dataset vs order cn (ds_attrs ds)).

End Xray.

(* ===================================================================== *)
(** ** cartopy.util *)
(* ===================================================================== *)

Module Cartopy.
Import Numpy Xray.

(** [add_cyclic_point(data, coord=coord, axis=axis)]: the coordinate must
    be one-dimensional, as long as the axis, and equally spaced; the new
    coordinate value is the last one plus the first spacing, the new data
    is the data followed by its first slice along [axis]. *)
Definition add_cyclic_point (data : ndarray scalar) (coord : Var)
    (axis : nat) : result (ndarray scalar * list scalar) :=
  if negb (Nat.eqb (ndim (v_data coord)) 1)
  then Raise (ValueError "The coordinate must be 1-dimensional.")
  else
    let cs := cells1 (items (v_data coord)) in
    match shape data !! axis with
    | None => Raise IndexError
    | Some n =>
        if negb (Nat.eqb (length cs) n)
        then Raise (ValueError "The length of the coordinate does not match the size of the corresponding dimension of the data array")
        else
          let delta_coord := diff cs in
          match delta_coord with
          | [] => Raise IndexError
          | d0 :: _ =>
              if negb (allclose delta_coord d0)
              then Raise (ValueError "The coordinate must be equally spaced.")
              else
                let new_coord := cs ++ ((fun c => add c d0) <$> drop (length cs - 1) cs) in
                new_data ← concatenate data
                             (mk_ndarray (<[axis := Nat.min 1 n]> (shape data))
                                         (slice_first axis (items data)))
                             axis;
                Ok (new_data, new_coord)
          end
    end.

End Cartopy.

(* ===================================================================== *)
(** ** The libraries behind the script *)
(* ===================================================================== *)

Module Libs.
Import Numpy Xray.

(** A matplotlib axis: its corners in figure coordinates
    ([get_position().get_points()] is [[x0, y0], [x1, y1]], four Python
    floats, that is IEEE binary64 numbers) and, for a cartopy [GeoAxes],
    the name of its projection. *)
Record Axes := mk_Axes {
  ax_projection : option string;
  ax_x0 : float; ax_y0 : float; ax_x1 : float; ax_y1 : float
}.

Record Figure := mk_Figure {
  fig_label : string;
  fig_axes : list Axes
}.

(** What a plotting function returns: enough to know how it was drawn. *)
Record Mappable := mk_Mappable {
  m_method : string;
  m_args : kwargs
}.

(** The keyword arguments of [_determine_cmap_params] that the script
    sets. *)
Record cmap_options := mk_cmap_options {
  opt_levels : option Z;
  opt_robust : bool;
  opt_extend : option string
}.

(** A decoded time value. *)
Record Timestamp := mk_Timestamp {
  year : nat; month : nat; day : nat; hour : nat; minute : nat
}.

(** The world a run sees: the files it reads and the library functions it
    calls without this repository having a say in their result. *)
Record Env := mk_Env {
  (** [xray.open_dataset(fn, decode_cf=True, decode_coords=True,
      mask_and_scale=True)] *)
  open_dataset : string -> result Dataset;
  (** [open(fn, 'rb')] followed by [pickle.load] *)
  load_pickle : string -> result (gmap string kwargs);
  (** [open(fn, 'wb')] followed by [pickle.dump]: can the file be written *)
  dump_pickle : string -> result unit;
  (** [xarray.plot.utils._determine_cmap_params], imported by the script *)
  determine_cmap_params : ndarray scalar -> cmap_options -> result kwargs;
  (** [xray.plot.utils._determine_cmap_params], imported by [plot_util] *)
  xray_determine_cmap_params : ndarray scalar -> cmap_options -> result kwargs;
  (** [var_data.groupby('time')], as the list it iterates over *)
  groupby_time : DataArray -> result (list (Timestamp * DataArray));
  (** [plt.__dict__[method](lon, lat, data, **extra_args)] *)
  plot_func : string -> ndarray scalar -> ndarray scalar -> ndarray scalar
              -> kwargs -> result Mappable;
  (** the names of [cartopy.crs] that build a projection *)
  crs_names : gset string;
  (** [ax.gridlines(crs=..., draw_labels=True, ...)] *)
  gridlines : Axes -> result unit;
  (** [plt.savefig(fn, dpi=150, bbox_inches='tight')] *)
  savefig : string -> result unit;
  (** [str(x)] of a value, [repr] of a dataset *)
  str_value : value -> string;
  repr_dataset : Dataset -> string;
  (** [getattr(da, name)] as a string, when [hasattr(da, name)] *)
  getattr_str : DataArray -> string -> option string
}.

Definition default_options : cmap_options := mk_cmap_options None false None.

End Libs.

(* ===================================================================== *)
(** ** plot_util.py *)
(* ===================================================================== *)

Module PlotUtil.
Import Numpy Xray Cartopy Libs.

(** [_PLOTTYPE_ARGS] *)
Definition PLOTTYPE_ARGS : gmap string kwargs :=
  {[ "pcolormesh" := {[ "linewidth" := VStr "0" ]};
     "pcolor" := {[ "linewidth" := VStr "0" ]};
     "contourf" := ∅ ]}.

(** [check_cyclic(data, coord)]:
    [np.all(data.isel(coord=0) == data.isel(coord=-1))]. *)
Definition check_cyclic (data : DataArray) (coord : string) : result bool :=
  first ← isel data coord 0;
  last ← isel data coord (-1);
  eq ← equal (values first) (values last);
  Ok (all eq).

(** The dimension coordinate that [add_cyclic_point] returns, as the
    [DataArray] constructor stores it. *)
Definition index_variable (d : string) (xs : list scalar) : Var :=
  mk_Var [d] (array1 xs) ∅.

(** [new_da.coords[c].attrs[att] = da.coords[c].attrs[att]] for every
    attribute of the coordinate [c] of [da]. *)
Definition copy_coord_attrs (acc : gmap string Var) (kc : string * Var)
  : gmap string Var :=
  alter (fun nc => mk_Var (v_dims nc) (v_data nc)
                          (copy_items (v_attrs kc.2) (v_attrs nc)))
        kc.1 acc.

(** [cyclic_dataarray(da, coord)] *)
Definition cyclic_dataarray (da : DataArray) (coord : string) : result DataArray :=
  match index_of coord (dims da) with
  | None => Raise (ValueError "tuple.index(x): x not in tuple")
  | Some lon_idx =>
      match coords da !! coord with
      | None => Raise (KeyError coord)
      | Some c =>
          '(cyclic_data, cyclic_coord) ← add_cyclic_point (values da) c lon_idx;
          let new_coords := <[coord := index_variable coord cyclic_coord]> (coords da) in
          let new_values := cyclic_data in
          new_da ← new_DataArray new_values (dims da) new_coords;
          let new_attrs := copy_items (attrs da) (attrs new_da) in
          let new_coords' := foldl copy_coord_attrs (coords new_da)
                                   (map_to_list (coords da)) in
          Ok (mk_DataArray (dims new_da) (values new_da) new_coords'
                           new_attrs (name new_da))
      end
  end.

(** The colorbar that [add_colorbar] returns: where it was put. *)
Record Colorbar := mk_Colorbar {
  cb_mappable : Mappable;
  cb_rect : option (float * float * float * float);
  cb_orientation : string;
  cb_pad : float
}.

(** [add_colorbar(mappable, fig, ax, thickness, shrink, pad,
    orientation)]; the geometry is computed in floating point, as Python
    computes it. *)
Definition add_colorbar (mappable : Mappable) (fig : option Figure)
    (ax : option Axes) (thickness shrink pad : float) (orientation : string)
  : io Colorbar :=
  match fig, ax with
  | None, None => raise (ValueError "Must pass either 'fig' or 'ax'")
  | None, Some _ =>
      _ ← emit (Call "plt.colorbar");
      mret (mk_Colorbar mappable None orientation pad)
  | Some f, _ =>
      let axes := fig_axes f in
      match head axes, last axes with
      | Some ul, Some lr =>
          let top := ax_y1 ul in
          let bot := ax_y0 lr in
          let right := ax_x1 lr in
          let left := ax_x0 ul in
          rect ←
            (if String.eqb orientation "vertical" then
               let cb_left := (right + pad)%float in
               let cb_width := thickness in
               let cb_bottom := (bot + shrink)%float in
               let cb_height := ((top - shrink) - cb_bottom)%float in
               mret (cb_left, cb_bottom, cb_width, cb_height)
             else if String.eqb orientation "horizontal" then
               let cb_left := (left + shrink)%float in
               let cb_width := ((right - shrink) - cb_left)%float in
               let cb_height := thickness in
               let cb_bottom := ((bot - pad) - cb_height)%float in
               mret (cb_left, cb_bottom, cb_width, cb_height)
             else raise (ValueError ("Uknown orientation '" +:+ orientation +:+ "'")));
          _ ← emit (Call "fig.add_axes");
          _ ← emit (Call "fig.colorbar");
          mret (mk_Colorbar mappable (Some rect) orientation pad)
      | _, _ => raise IndexError
      end
  end.

Section GeoPlot.
Variable env : Env.

(** The lookup [method in _PLOTTYPE_ARGS] and the copy of the entry:
    a list is not hashable, anything else that is not a key is
    unknown. *)
Definition plot_args (method : value) : result (string * kwargs) :=
  match method with
  | VSeq _ => Raise (TypeError "unhashable type: 'list'")
  | VStr m =>
      match PLOTTYPE_ARGS !! m with
      | Some d => Ok (m, d)
      | None => Raise (ValueError ("Don't know how to deal with '" +:+ m +:+ "' method"))
      end
  | other =>
      Raise (ValueError ("Don't know how to deal with '" +:+ str_value env other
                         +:+ "' method"))
  end.

(** The projection lookup [ccrs.__dict__[projection]], after a
    two-element [projection] has been split into name and keywords. *)
Definition make_projection (projection : value) : result string :=
  name ← match projection with
         | VSeq items =>
             if negb (Nat.eqb (length items) 2)
             then Raise (ValueError "Expected 'projection' to only have 2 values")
             else Ok (default VNone (items !! O))
         | other => Ok other
         end;
  match name with
  | VStr p => if bool_decide (p ∈ crs_names env) then Ok p else Raise (KeyError p)
  | VSeq _ => Raise (TypeError "unhashable type: 'list'")
  | other => Raise (KeyError (str_value env other))
  end.

(** [darray.lon.values], [darray.lat.values] *)
Definition coord_values (darray : DataArray) (n : string) : result (ndarray scalar) :=
  match coords darray !! n with
  | Some c => Ok (v_data c)
  | None => Raise (AttributeError n)
  end.

(** [geo_plot(darray, ax, method, projection, grid, **kwargs)] *)
#[warnings="-inexact-float"]
Definition geo_plot (darray : DataArray) (ax : option Axes)
    (method projection grid : value) (kw : kwargs) : io (Axes * Mappable) :=
  (* Set up plotting function *)
  '(m, extra_args) ← lift (plot_args method);
  let extra_args := update extra_args kw in
  let extra_args := <["transform" := VObj "PlateCarree"]> extra_args in
  (* Was an axis passed to plot on? *)
  ax ← match ax with
       | None =>
           p ← lift (make_projection projection);
           _ ← emit (Call "plt.axes");
           mret (mk_Axes (Some p) 0.125%float 0.11%float 0.9%float 0.88%float)
       | Some a =>
           match ax_projection a with
           | None => raise (ValueError "Expected `ax` to be a GeoAxes instance")
           | Some _ => _ ← emit (Call "plt.sca"); mret a
           end
       end;
  (* Setup map *)
  _ ← emit (Call "ax.set_global");
  _ ← emit (Call "ax.coastlines");
  _ ← match gridlines env ax with
      | Ok _ => emit (Call "ax.gridlines")
      | Raise (TypeError _) => warn "Could not label the given map projection."
      | Raise e => raise e
      end;
  (* Infer colormap settings if not provided *)
  extra_args ←
    (if bool_decide ("vmin" ∈ dom kw) then mret extra_args
     else
       _ ← warn "Re-inferring color parameters...";
       cmap_kws ← lift (xray_determine_cmap_params env (values darray) default_options);
       mret (update extra_args cmap_kws));
  lon ← lift (coord_values darray "lon");
  lat ← lift (coord_values darray "lat");
  gp ← lift (plot_func env m lon lat (values darray) extra_args);
  mret (ax, gp).

End GeoPlot.

End PlotUtil.

(* ===================================================================== *)
(** ** plot-all-in-ncfile.py *)
(* ===================================================================== *)

Module Script.
Import Numpy Xray Cartopy Libs PlotUtil.

(** The parsed command line. [variables_opt] is parsed and never read. *)
Record Args := mk_Args {
  nc_file : string;
  variables_opt : option (list string);
  colorfile : option string;
  sample : bool
}.

(** The options of the batch inference:
    [levels=21, robust=True, extend='both']. *)
Definition batch_options : cmap_options :=
  mk_cmap_options (Some 21) true (Some "both").

(** [ts.strftime('%m-%d-%Y %H:%MZ')] and [ts.strftime("%m%d%Y_%H%MZ")] *)
Definition ts_str (ts : Timestamp) : string :=
  pad2 (month ts) +:+ "-" +:+ pad2 (day ts) +:+ "-" +:+ pad4 (year ts)
  +:+ " " +:+ pad2 (hour ts) +:+ ":" +:+ pad2 (minute ts) +:+ "Z".

Definition fn_ts_str (ts : Timestamp) : string :=
  pad2 (month ts) +:+ pad2 (day ts) +:+ pad4 (year ts)
  +:+ "_" +:+ pad2 (hour ts) +:+ pad2 (minute ts) +:+ "Z".

(** ["%s_%s.%s" % (v, fn_ts_str, plot_fmt)] with [plot_fmt = 'png'] *)
Definition out_fn (v : string) (ts : Timestamp) : string :=
  v +:+ "_" +:+ fn_ts_str ts +:+ "." +:+ "png".

(** Lines 67-75: the coercion of the dimension names. *)
Definition coerce_dims (dataset : Dataset) : result Dataset :=
  dataset ← (if contains dataset "longitude"
             then rename dataset "longitude" "lon" else Ok dataset);
  if contains dataset "latitude"
  then rename dataset "latitude" "lat" else Ok dataset.

(** Lines 143-144: the cyclic-point correction of one time slice. *)
Definition correct_cyclic (plot_data : DataArray) : result DataArray :=
  cyclic ← check_cyclic plot_data "lon";
  if negb cyclic then cyclic_dataarray plot_data "lon" else Ok plot_data.

Section Run.
Variable env : Env.
Variable args : Args.

(** [for v in dataset.variables]: the names in the order of the
    dataset. *)
Definition variable_names (dataset : Dataset) : list string :=
  keys_in_order dataset.

(** Lines 57-62: open the file or leave with status 1. *)
Definition open_input : io Dataset :=
  match open_dataset env (nc_file args) with
  | Ok dataset => mret dataset
  | Raise RuntimeError =>
      _ ← print ("Could not open netCDF file '" +:+ nc_file args +:+ "'");
      sys_exit 1
  | Raise e => raise e
  end.

(** Lines 80-86: read the colorfile or leave with status 1. *)
Definition open_colorfile (cf : string) : io (gmap string kwargs) :=
  match load_pickle env cf with
  | Ok color_data => mret color_data
  | Raise FileNotFoundError | Raise IOError =>
      _ ← print ("Could not open colorfile '" +:+ cf +:+ "'");
      sys_exit 1
  | Raise e => raise e
  end.

(** Lines 89-93: one turn of the loop over the variables of a dataset
    whose colors were loaded. *)
Definition fallback_step (dataset : Dataset) (color_data : gmap string kwargs)
    (v : string) : io (gmap string kwargs) :=
  if bool_decide (v ∈ ds_dims dataset) then mret color_data
  else if bool_decide (v ∈ dom color_data) then mret color_data
  else
    _ ← warn ("Couldn't find color data for " +:+ v);
    da ← lift (getitem dataset v);
    params ← lift (determine_cmap_params env (values da) default_options);
    mret (<[v := params]> color_data).

(** Lines 98-104: one turn of the loop that infers every colormap. *)
Definition batch_step (dataset : Dataset) (color_data : gmap string kwargs)
    (v : string) : io (gmap string kwargs) :=
  if bool_decide (v ∈ ds_dims dataset) then mret color_data
  else
    _ ← print ("   " +:+ v);
    da ← lift (getitem dataset v);
    params ← lift (determine_cmap_params env (values da) batch_options);
    mret (<[v := params]> color_data).

(** Lines 78-104: the colormap parameters of the run. *)
Definition resolve_colors (dataset : Dataset) : io (gmap string kwargs) :=
  match colorfile args with
  | Some cf =>
      color_data ← open_colorfile cf;
      io_fold (fallback_step dataset) (variable_names dataset) color_data
  | None =>
      _ ← print "Inferring new colormaps";
      io_fold (batch_step dataset) (variable_names dataset) ∅
  end.

(** Lines 106-110: the colorfile is written next to the input file. *)
Definition colorfile_name : string := (splitext (nc_file args)).1 +:+ ".cf".

Definition save_colors (color_data : gmap string kwargs) : io unit :=
  _ ← print "Saving colormap data";
  _ ← lift (dump_pickle env colorfile_name);
  emit (Dump colorfile_name color_data).

(** The keyword call [geo_plot(plot_data, ax=ax, **var_cmap_kwargs)]:
    an entry named like a parameter is bound to that parameter, one
    named like an argument already given is a [TypeError]. *)
Definition call_geo_plot (plot_data : DataArray) (ax : Axes)
    (var_cmap_kwargs : kwargs) : io (Axes * Mappable) :=
  if bool_decide ("ax" ∈ dom var_cmap_kwargs)
     || bool_decide ("darray" ∈ dom var_cmap_kwargs)
  then raise (TypeError "geo_plot() got multiple values for keyword argument")
  else
    geo_plot env plot_data (Some ax)
      (default (VStr "contourf") (var_cmap_kwargs !! "method"))
      (default (VStr "PlateCarree") (var_cmap_kwargs !! "projection"))
      (default (VBool false) (var_cmap_kwargs !! "grid"))
      (delete "method" (delete "projection" (delete "grid" var_cmap_kwargs))).

(** Lines 156-165: the label of the colorbar. *)
Definition colorbar_label (v : string) (var_data : DataArray) : string :=
  let cb_label := default v (getattr_str env var_data "long_name") in
  let cb_label := match getattr_str env var_data "level" with
                  | Some l => cb_label +:+ " (" +:+ l +:+ ")"
                  | None => cb_label
                  end in
  match getattr_str env var_data "units" with
  | Some u => cb_label +:+ " [" +:+ u +:+ "]"
  | None => cb_label
  end.

(** Lines 134-173: one time slice of one variable, up to the closing of
    the figure. *)
#[warnings="-inexact-float"]
Definition plot_timestep (v : string) (var_data : DataArray)
    (var_cmap_kwargs : kwargs) (time : Timestamp) (plot_data : DataArray)
  : io unit :=
  _ ← print ("   " +:+ ts_str time);
  (* Check if darray needs a cyclic point added *)
  plot_data ← lift (correct_cyclic plot_data);
  (* Plot this timeslice *)
  _ ← emit (Call "plt.figure");
  _ ← emit (Call "fig.add_subplot");
  let ax := mk_Axes (Some "PlateCarree") 0.125%float 0.11%float 0.9%float 0.88%float in
  '(ax, plot) ← call_geo_plot plot_data ax var_cmap_kwargs;
  (* Plot aesthetic tweaking *)
  _ ← emit (Call "ax.set_title");
  cb ← add_colorbar plot None (Some ax) 0.025%float 0.1%float 0.1%float "horizontal";
  _ ← emit (Call ("cb.set_label " +:+ colorbar_label v var_data));
  _ ← emit (Call "plt.draw");
  _ ← lift (savefig env (out_fn v time));
  _ ← emit (SaveFig (out_fn v time) 150 "tight");
  emit (Call "plt.close").

(** Lines 132-176: the loop over the time slices; with [--sample] it is
    left after the first one. *)
Fixpoint time_loop (v : string) (var_data : DataArray)
    (var_cmap_kwargs : kwargs) (groups : list (Timestamp * DataArray))
  : io unit :=
  match groups with
  | [] => mret tt
  | (time, plot_data) :: rest =>
      _ ← plot_timestep v var_data var_cmap_kwargs time plot_data;
      if sample args then mret tt
      else time_loop v var_data var_cmap_kwargs rest
  end.

(** [v] is skipped when it is a dimension or a coordinate. *)
Definition is_plotted (dataset : Dataset) (v : string) : bool :=
  negb (bool_decide (v ∈ ds_dims dataset) || bool_decide (v ∈ coord_names dataset)).

(** Lines 117-176: one variable. *)
Definition plot_variable (dataset : Dataset) (color_data : gmap string kwargs)
    (v : string) : io unit :=
  if negb (is_plotted dataset v) then mret tt
  else
    _ ← print (String "010" "Plotting data for variable '" +:+ v +:+ "'...");
    var_data ← lift (getitem dataset v);
    _ ← print "   Variable details:";
    _ ← io_for (fun kv => print ("      " +:+ kv.1 +:+ ": " +:+ kv.2))
               (map_to_list (attrs var_data));
    _ ← print "   Colormap settings:";
    var_cmap_kwargs ← match color_data !! v with
                      | Some k => mret k
                      | None => raise (KeyError v)
                      end;
    _ ← io_for (fun kv => print ("      " +:+ kv.1 +:+ ": " +:+ str_value env kv.2))
               (map_to_list var_cmap_kwargs);
    groups ← lift (groupby_time env var_data);
    time_loop v var_data var_cmap_kwargs groups.

(** The [__main__] block. *)
Definition main : io unit :=
  (* Read the given netCDF file *)
  dataset ← open_input;
  _ ← print "Input file details:";
  _ ← io_for (fun kv => print ("   " +:+ kv.1 +:+ ": " +:+ kv.2))
             (map_to_list (ds_attrs dataset));
  (* As a safety check, coerce dimension names *)
  dataset ← lift (coerce_dims dataset);
  (* Read colorfile arguments; else, infer the color parameters *)
  color_data ← resolve_colors dataset;
  (* Save/update the new colorfile *)
  _ ← save_colors color_data;
  _ ← print (repr_dataset env dataset);
  io_for (plot_variable dataset color_data) (variable_names dataset).

(** A run: how [main] ends and what it did. *)
Definition run : result unit * list event := main.

End Run.

End Script.

(* ===================================================================== *)
(** ** What a run leaves behind, and the shape of its inputs *)
(* ===================================================================== *)

Module Observe.
Import Numpy Xray Cartopy Libs PlotUtil Script.

(** The warnings, the colorfiles and the images among the events. *)
Definition warnings (evs : list event) : list string :=
  omap (fun e => match e with Warn msg => Some msg | _ => None end) evs.

Definition dumps (evs : list event) : list (string * gmap string kwargs) :=
  omap (fun e => match e with Dump p m => Some (p, m) | _ => None end) evs.

Definition saved_files (evs : list event) : list string :=
  omap (fun e => match e with SaveFig p _ _ => Some p | _ => None end) evs.

Definition is_dump (e : event) : bool :=
  match e with Dump _ _ => true | _ => false end.

Definition is_savefig (e : event) : bool :=
  match e with SaveFig _ _ _ => true | _ => false end.

Definition writes_file (e : event) : bool := is_dump e || is_savefig e.

(** Every event of a computation satisfies [P]. *)
Definition all_events {A} (P : event -> bool) (m : io A) : Prop :=
  forallb P m.2 = true.

(** No cell of the array is NaN. *)
Fixpoint nan_free (a : nested scalar) : bool :=
  match a with
  | Item x => negb (isnan x)
  | Arr xs => forallb nan_free xs
  end.

(** The cells of an array followed by its first slice along [axis]. *)
Definition with_cyclic_point {A} (axis : nat) (a : nested A) : nested A :=
  join axis a (slice_first axis a).

(** The invariant of a [DataArray]: one dimension name per axis, cells
    laid out as the shape says, coordinates that fit. *)
Definition wf_Var (v : Var) : bool :=
  Nat.eqb (length (v_dims v)) (ndim (v_data v)) && well_shaped (v_data v).

Definition wf_DataArray (da : DataArray) : bool :=
  Nat.eqb (length (dims da)) (ndim (values da))
  && well_shaped (values da)
  && forallb (fun kc => wf_Var kc.2 && coord_fits (dims da) (shape (values da)) kc.2)
             (map_to_list (coords da)).

(** The values of the coordinate [lon]. *)
Definition lon_values (da : DataArray) : list scalar :=
  match coords da !! "lon" with
  | Some c => cells1 (items (v_data c))
  | None => []
  end.

(** The dataset the script works on: opened, then coerced. *)
Definition input_dataset (env : Env) (args : Args) : result Dataset :=
  dataset ← open_dataset env (nc_file args);
  coerce_dims dataset.

Definition plotted_variables (dataset : Dataset) : list string :=
  List.filter (is_plotted dataset) (variable_names dataset).

(** The image of the first time slice of [v], when there is one. *)
Definition first_image (env : Env) (dataset : Dataset) (v : string)
  : option string :=
  match getitem dataset v with
  | Ok da =>
      match groupby_time env da with
      | Ok ((time, _) :: _) => Some (out_fn v time)
      | _ => None
      end
  | Raise _ => None
  end.

(** What the inference of the colormap of [v] returns. *)
Definition inferred (env : Env) (dataset : Dataset) (opts : cmap_options)
    (v : string) : result kwargs :=
  da ← getitem dataset v;
  determine_cmap_params env (values da) opts.

(** The colors a run starts from, and the options it infers the others
    with. *)
Definition loaded_colors (env : Env) (args : Args) : gmap string kwargs :=
  match colorfile args with
  | Some cf => match load_pickle env cf with Ok m => m | Raise _ => ∅ end
  | None => ∅
  end.

Definition inference_options (args : Args) : cmap_options :=
  match colorfile args with
  | Some _ => default_options
  | None => batch_options
  end.


(** The sizes of the dimensions of a dataset agree: what
    [calculate_dimensions] checks whenever xray builds a dataset. *)
Definition dims_consistent (ds : Dataset) : bool :=
  is_ok (calculate_dimensions (items_in_order ds)).




End Observe.

(* ===================================================================== *)
(** ** Concrete grids, datasets and a concrete world *)
(* ===================================================================== *)

Module Demo.
Import Numpy Xray Cartopy Libs PlotUtil Script Observe.

Definition nums (xs : list Z) : list scalar := (fun z => Num (inject_Z z)) <$> xs.

Definition lon_var (xs : list Z) : Var :=
  mk_Var ["lon"] (array1 (nums xs)) {[ "units" := "degrees_east" ]}.

Definition lat_var (xs : list Z) : Var :=
  mk_Var ["lat"] (array1 (nums xs)) {[ "units" := "degrees_north" ]}.

(** A (lat, lon) slice with one latitude. *)
Definition one_row (row : list scalar) (lons : list Z) : DataArray :=
  mk_DataArray ["lat"; "lon"]
    (mk_ndarray [1%nat; length row] (Arr [Arr (Item <$> row)]))
    {[ "lat" := lat_var [0]; "lon" := lon_var lons ]}
    {[ "units" := "K" ]} (Some "T").

(** The first longitude holds a missing value. *)
Definition nan_slice : DataArray := one_row [NaN; Num 1] [0; 180].

(** A regional grid, ten degrees apart. *)
Definition regional_slice : DataArray := one_row (nums [1; 2; 3]) [0; 10; 20].

(** A global grid, ninety degrees apart. *)
Definition global_slice : DataArray :=
  one_row (nums [1; 2; 3; 4]) [0; 90; 180; 270].

(** One longitude, no longitude. *)
Definition single_column : DataArray := one_row (nums [5]) [0].
Definition no_column : DataArray := one_row [] [].

Definition time_var : Var := mk_Var ["time"] (array1 (nums [0; 6])) ∅.

Definition T_data : ndarray scalar :=
  mk_ndarray [2%nat; 1%nat; 2%nat]
    (Arr [Arr [Arr [Item (Num 1); Item (Num 2)]];
          Arr [Arr [Item (Num 3); Item (Num 3)]]]).

(** A file with the variable [T(time, lat, lon)]. *)
Definition demo_dataset : Dataset :=
  mk_Dataset
    {[ "time" := time_var; "lat" := lat_var [0]; "lon" := lon_var [0; 180];
       "T" := mk_Var ["time"; "lat"; "lon"] T_data {[ "units" := "K" ]} ]}
    ["time"; "lat"; "lon"; "T"]
    {[ "time"; "lat"; "lon" ]}
    {[ "title" := "demo" ]}.


(** A file with the dimension [longitude] and a variable [lon]. *)
Definition clash_dataset : Dataset :=
  mk_Dataset
    {[ "longitude" := mk_Var ["longitude"] (array1 (nums [0; 180])) ∅;
       "lon" := mk_Var ["longitude"] (array1 (nums [0; 180])) ∅ ]}
    ["longitude"; "lon"]
    {[ "longitude" ]}
    ∅.



Definition demo_times : list Timestamp :=
  [mk_Timestamp 2016 11 28 0 0; mk_Timestamp 2016 11 28 6 0].

(** Grouping by a time dimension whose values are all different: one
    group per index, in order. *)
Definition demo_groupby (da : DataArray) : result (list (Timestamp * DataArray)) :=
  for_each (fun acc it => pd ← isel da "time" (Z.of_nat it.1);
                          Ok (acc ++ [(it.2, pd)]))
           (imap pair demo_times) [].

(** An inference that reads nothing but its options. *)
Definition demo_cmap (data : ndarray scalar) (opts : cmap_options) : result kwargs :=
  Ok {[ "vmin" := VNum 0; "vmax" := VNum 4;
        "levels" := from_option (fun n => VNum (inject_Z n)) VNone (opt_levels opts);
        "extend" := VStr (default "neither" (opt_extend opts)) ]}.

Definition demo_env : Env :=
  {| open_dataset := fun fn => if String.eqb fn "run1.nc" then Ok demo_dataset
                               else Raise RuntimeError;
     load_pickle := fun fn => if String.eqb fn "empty.cf" then Ok ∅
                              else Raise FileNotFoundError;
     dump_pickle := fun _ => Ok tt;
     determine_cmap_params := demo_cmap;
     xray_determine_cmap_params := demo_cmap;
     groupby_time := demo_groupby;
     plot_func := fun m _ _ _ kw => Ok (mk_Mappable m kw);
     crs_names := {[ "PlateCarree" ]};
     gridlines := fun _ => Ok tt;
     savefig := fun _ => Ok tt;
     str_value := fun _ => "?";
     repr_dataset := fun _ => "<xray.Dataset>";
     getattr_str := fun da n => attrs da !! n |}.

Definition demo_args : Args := mk_Args "run1.nc" None None false.
Definition sample_args : Args := mk_Args "run1.nc" None None true.
Definition empty_cache_args : Args := mk_Args "run1.nc" None (Some "empty.cf") false.
Definition missing_cache_args : Args := mk_Args "run1.nc" None (Some "gone.cf") false.

End Demo.

(* ===================================================================== *)
(** ** Further observations and inputs *)
(* ===================================================================== *)

Module Views.
Import Numpy Xray Cartopy Libs PlotUtil Script Observe.

(** A time stamp of the calendar, in the years that [strftime] writes
    with four digits. *)
Definition valid_timestamp (ts : Timestamp) : bool :=
  (1000 <=? Z.of_nat (year ts)) && (Z.of_nat (year ts) <? 10000)
  && (1 <=? Z.of_nat (month ts)) && (Z.of_nat (month ts) <=? 12)
  && (1 <=? Z.of_nat (day ts)) && (Z.of_nat (day ts) <=? 31)
  && (Z.of_nat (hour ts) <? 24) && (Z.of_nat (minute ts) <? 60).

(** The images of the variable [v]: one per time slice, or the first
    one alone under [--sample]. *)
Definition images (env : Env) (args : Args) (dataset : Dataset) (v : string)
  : list string :=
  match getitem dataset v with
  | Ok da =>
      match groupby_time env da with
      | Ok groups =>
          (fun g => out_fn v g.1) <$> (if sample args then take 1 groups else groups)
      | Raise _ => []
      end
  | Raise _ => []
  end.

(** The files of a run come in one order: nothing is written before the
    colorfile [path], the colorfile is written once, and only images
    follow it. A run that stops early may write nothing. *)
Definition colorfile_first (path : string) (evs : list event) : Prop :=
  forallb (fun e => negb (writes_file e)) evs = true
  \/ exists pre color_data post,
       evs = pre ++ Dump path color_data :: post
       /\ forallb (fun e => negb (writes_file e)) pre = true
       /\ forallb (fun e => negb (is_dump e)) post = true.

End Views.

Module Scenarios.
Import Numpy Xray Cartopy Libs PlotUtil Script Observe Demo.

(** The colors that the run on [run1.nc] saves. *)
Definition demo_colors : gmap string kwargs :=
  match (resolve_colors demo_env demo_args demo_dataset).1 with
  | Ok color_data => color_data
  | Raise _ => ∅
  end.

(** The world after that run: [run1.cf] exists. *)
Definition cached_env : Env :=
  {| open_dataset := open_dataset demo_env;
     load_pickle := fun fn => if String.eqb fn "run1.cf" then Ok demo_colors
                              else Raise FileNotFoundError;
     dump_pickle := dump_pickle demo_env;
     determine_cmap_params := determine_cmap_params demo_env;
     xray_determine_cmap_params := xray_determine_cmap_params demo_env;
     groupby_time := groupby_time demo_env;
     plot_func := plot_func demo_env;
     crs_names := crs_names demo_env;
     gridlines := gridlines demo_env;
     savefig := savefig demo_env;
     str_value := str_value demo_env;
     repr_dataset := repr_dataset demo_env;
     getattr_str := getattr_str demo_env |}.

Definition cached_args : Args := mk_Args "run1.nc" None (Some "run1.cf") false.

(** A figure with one map on it, and what was drawn there. *)
#[warnings="-inexact-float"]
Definition demo_axes : Axes :=
  mk_Axes (Some "PlateCarree") 0.125%float 0.11%float 0.9%float 0.88%float.
Definition demo_figure : Figure := mk_Figure "fig" [demo_axes].
Definition demo_mappable : Mappable := mk_Mappable "contourf" ∅.

(** A world whose maps cannot be labelled. *)
Definition polar_env : Env :=
  {| open_dataset := open_dataset demo_env;
     load_pickle := load_pickle demo_env;
     dump_pickle := dump_pickle demo_env;
     determine_cmap_params := determine_cmap_params demo_env;
     xray_determine_cmap_params := xray_determine_cmap_params demo_env;
     groupby_time := groupby_time demo_env;
     plot_func := plot_func demo_env;
     crs_names := crs_names demo_env;
     gridlines := fun _ => Raise (TypeError "Cannot label gridlines");
     savefig := savefig demo_env;
     str_value := str_value demo_env;
     repr_dataset := repr_dataset demo_env;
     getattr_str := getattr_str demo_env |}.

(** The array of the docstring of [cyclic_dataarray]: two rows along
    [x], three columns along [y]. *)
Definition doc_array : DataArray :=
  mk_DataArray ["x"; "y"]
    (mk_ndarray [2%nat; 3%nat]
       (Arr [Arr (Item <$> nums [1; 2; 3]); Arr (Item <$> nums [4; 5; 6])]))
    {[ "x" := mk_Var ["x"] (array1 (nums [1; 2])) ∅;
       "y" := mk_Var ["y"] (array1 (nums [0; 1; 2])) ∅ ]}
    {[ "units" := "m" ]} (Some "data").

(** Longitudes that are not equally spaced; one longitude that holds a
    missing value. *)
Definition irregular_slice : DataArray := one_row (nums [1; 2; 3]) [0; 10; 30].
Definition single_nan_column : DataArray := one_row [NaN] [0].

(** A file whose variable [T] comes with a scalar coordinate [height]:
    a coordinate that is no dimension. *)
Definition height_dataset : Dataset :=
  mk_Dataset
    (<["height" := mk_Var [] (mk_ndarray [] (Item (Num 2))) {[ "units" := "m" ]}]>
       (variables demo_dataset))
    (var_order demo_dataset ++ ["height"])
    ({[ "height" ]} ∪ coord_names demo_dataset)
    (ds_attrs demo_dataset).

Definition height_env : Env :=
  {| open_dataset := fun fn => if String.eqb fn "run2.nc" then Ok height_dataset
                               else Raise RuntimeError;
     load_pickle := load_pickle demo_env;
     dump_pickle := dump_pickle demo_env;
     determine_cmap_params := determine_cmap_params demo_env;
     xray_determine_cmap_params := xray_determine_cmap_params demo_env;
     groupby_time := groupby_time demo_env;
     plot_func := plot_func demo_env;
     crs_names := crs_names demo_env;
     gridlines := gridlines demo_env;
     savefig := savefig demo_env;
     str_value := str_value demo_env;
     repr_dataset := repr_dataset demo_env;
     getattr_str := getattr_str demo_env |}.

Definition height_args : Args := mk_Args "run2.nc" None None false.

(** An input file that is not there. *)
Definition absent_args : Args := mk_Args "absent.nc" None None false.

(** A file that holds the pressure [P] before the temperature [T]. *)
Definition pressure_dataset : Dataset :=
  mk_Dataset
    (<["P" := mk_Var ["time"; "lat"; "lon"] T_data {[ "units" := "Pa" ]}]>
       (variables demo_dataset))
    ["time"; "lat"; "lon"; "P"; "T"]
    (coord_names demo_dataset)
    (ds_attrs demo_dataset).

Definition pressure_env : Env :=
  {| open_dataset := fun fn => if String.eqb fn "run3.nc" then Ok pressure_dataset
                               else Raise RuntimeError;
     load_pickle := load_pickle demo_env;
     dump_pickle := dump_pickle demo_env;
     determine_cmap_params := determine_cmap_params demo_env;
     xray_determine_cmap_params := xray_determine_cmap_params demo_env;
     groupby_time := groupby_time demo_env;
     plot_func := plot_func demo_env;
     crs_names := crs_names demo_env;
     gridlines := gridlines demo_env;
     savefig := savefig demo_env;
     str_value := str_value demo_env;
     repr_dataset := repr_dataset demo_env;
     getattr_str := getattr_str demo_env |}.

Definition pressure_args : Args := mk_Args "run3.nc" None None false.
Definition pressure_cache_args : Args := mk_Args "run3.nc" None (Some "empty.cf") false.

End Scenarios.

(* ===================================================================== *)
(** * Properties *)
(* ===================================================================== *)

Import Numpy Xray Cartopy Libs PlotUtil Script Observe Demo.

(** ** Reasoning about computations with effects *)

Section Effects.
Context {A B : Type}.

Lemma bind_eval (m : io A) (k : A -> io B) a e1 r e2 :
  m = (Ok a, e1) -> k a = (r, e2) -> (m ≫= k) = (r, e1 ++ e2).
Proof. intros -> Hk. unfold mbind, io_mbind, io_bind. by rewrite Hk. Qed.

Lemma bind_fail (m : io A) (k : A -> io B) e e1 :
  m = (Raise e, e1) -> (m ≫= k) = (Raise e, e1).
Proof. by intros ->. Qed.

Lemma bind_ok_inv (m : io A) (k : A -> io B) b evs :
  (m ≫= k) = (Ok b, evs) ->
  exists a e1 e2, m = (Ok a, e1) /\ k a = (Ok b, e2) /\ evs = e1 ++ e2.
Proof.
  unfold mbind, io_mbind, io_bind. destruct m as [[a|e] e1]; [|discriminate].
  destruct (k a) as [r e2] eqn:Hk. intros [= -> <-]. eauto 10.
Qed.

Lemma lift_ok_inv (r : result A) a evs :
  lift r = (Ok a, evs) -> r = Ok a /\ evs = [].
Proof. unfold lift. by intros [= -> <-]. Qed.

Lemma all_events_bind P (m : io A) (k : A -> io B) :
  all_events P m -> (forall a, all_events P (k a)) -> all_events P (m ≫= k).
Proof.
  unfold all_events, mbind, io_mbind, io_bind.
  destruct m as [[a|e] e1]; cbn; [|done].
  intros H1 H2. specialize (H2 a). destruct (k a) as [r e2]; cbn in *.
  by rewrite forallb_app, H1, H2.
Qed.

Lemma all_events_lift P (r : result A) : all_events P (lift r).
Proof. done. Qed.

Lemma all_events_raise P e : all_events P (raise e : io A).
Proof. done. Qed.

Lemma all_events_ret P (a : A) : all_events P (mret a : io A).
Proof. done. Qed.

End Effects.

Lemma all_events_for {A} P (body : A -> io unit) xs :
  (forall x, all_events P (body x)) -> all_events P (io_for body xs).
Proof.
  intros Hb. induction xs as [|x xs IH]; [done|].
  cbn [io_for]. by apply (all_events_bind P (body x)).
Qed.

Lemma all_events_emit P e : P e = true -> all_events P (emit e).
Proof. unfold all_events. cbn. by intros ->. Qed.

Lemma io_for_print {A} (f : A -> string) (xs : list A) :
  io_for (fun x => print (f x)) xs = (Ok tt, (fun x => Print (f x)) <$> xs).
Proof.
  induction xs as [|x xs IH]; [done|].
  cbn. rewrite IH. done.
Qed.

Create HintDb events.
#[local] Hint Resolve all_events_lift all_events_raise all_events_ret : events.

(** ** The map renderer *)

Lemma plottype_unknown (m : string) :
  m ∉ ["pcolormesh"; "pcolor"; "contourf"] -> PLOTTYPE_ARGS !! m = None.
Proof.
  intros H. rewrite !not_elem_of_cons in H. destruct H as (H1 & H2 & H3 & _).
  unfold PLOTTYPE_ARGS.
  rewrite !lookup_insert_ne by done. by apply lookup_singleton_ne.
Qed.

(** C9. A method name outside the keys of [_PLOTTYPE_ARGS] (pcolormesh,
    pcolor, contourf) makes [geo_plot] raise a [ValueError] before it has
    done anything: no event at all, so no file, comes out of the call. *)
Theorem geo_plot_unknown_method env darray ax (m : string) projection grid kw :
  m ∉ ["pcolormesh"; "pcolor"; "contourf"] ->
  geo_plot env darray ax (VStr m) projection grid kw
  = (Raise (ValueError ("Don't know how to deal with '" +:+ m +:+ "' method")), []).
Proof.
  intros H. unfold geo_plot. cbn. by rewrite (plottype_unknown m H).
Qed.

Lemma geo_plot_unknown_method_witness :
  geo_plot demo_env global_slice None (VStr "scatterplot") (VStr "PlateCarree")
           (VBool false) ∅
  = (Raise (ValueError "Don't know how to deal with 'scatterplot' method"), []).
Proof.
  apply (geo_plot_unknown_method demo_env global_slice None "scatterplot").
  rewrite !not_elem_of_cons. repeat split; try discriminate. apply not_elem_of_nil.
Defined.

(** ** The colormap cache: loading *)

Lemma open_input_ok env args dataset :
  open_dataset env (nc_file args) = Ok dataset ->
  open_input env args = (Ok dataset, []).
Proof. unfold open_input. by intros ->. Qed.

Lemma open_colorfile_missing env cf :
  load_pickle env cf = Raise FileNotFoundError \/ load_pickle env cf = Raise IOError ->
  open_colorfile env cf
  = (Raise (SystemExit 1), [Print ("Could not open colorfile '" +:+ cf +:+ "'")]).
Proof. unfold open_colorfile. by intros [-> | ->]. Qed.

(** C6. When a colorfile is requested and opening it fails with
    [FileNotFoundError] or [IOError], a run whose input file was opened
    stops with [sys.exit(1)]: the status is not zero, the last thing it
    did was to print the message that names the colorfile, and it wrote
    neither a colorfile nor an image. *)
Theorem missing_colorfile_exits env args cf :
  colorfile args = Some cf ->
  is_ok (input_dataset env args) = true ->
  load_pickle env cf = Raise FileNotFoundError \/ load_pickle env cf = Raise IOError ->
  exists evs,
    run env args = (Raise (SystemExit 1),
                    evs ++ [Print ("Could not open colorfile '" +:+ cf +:+ "'")])
    /\ exit_status (run env args).1 = 1
    /\ forallb (fun e => negb (writes_file e)) (run env args).2 = true.
Proof.
  intros Hcf Hin Hload. unfold input_dataset in Hin.
  destruct (open_dataset env (nc_file args)) as [dataset|] eqn:Hopen; [|done].
  cbn in Hin. destruct (coerce_dims dataset) as [dataset'|] eqn:Hco; [|done].
  assert (Hr : run env args = (Raise (SystemExit 1),
     (Print "Input file details:" ::
       ((fun kv : string * string => Print ("   " +:+ kv.1 +:+ ": " +:+ kv.2))
          <$> map_to_list (ds_attrs dataset)))
     ++ [Print ("Could not open colorfile '" +:+ cf +:+ "'")])).
  { unfold run, main.
    erewrite bind_eval; [ | by apply open_input_ok | ].
    2:{ eapply bind_eval; [reflexivity|].
        eapply bind_eval; [apply io_for_print|].
        eapply bind_eval; [unfold lift; by rewrite Hco|].
        apply bind_fail. unfold resolve_colors. rewrite Hcf.
        apply bind_fail. by apply open_colorfile_missing. }
    reflexivity. }
  eexists. split; [exact Hr|]. rewrite Hr. split; [done|].
  cbn. rewrite forallb_app. cbn. rewrite andb_true_r.
  rewrite forallb_forall. intros e He. apply in_map_iff in He as (kv & <- & _). done.
Qed.

Lemma missing_colorfile_exits_witness :
  exists evs,
    run demo_env missing_cache_args
    = (Raise (SystemExit 1), evs ++ [Print "Could not open colorfile 'gone.cf'"])
    /\ exit_status (run demo_env missing_cache_args).1 = 1
    /\ forallb (fun e => negb (writes_file e)) (run demo_env missing_cache_args).2 = true.
Proof.
  apply (missing_colorfile_exits demo_env missing_cache_args "gone.cf").
  - reflexivity.
  - vm_compute. reflexivity.
  - left. reflexivity.
Defined.

(** ** The colormap resolver *)



(** *** The loop over the variables of a dataset whose colors were loaded *)

Lemma append_inj_r (s a b : string) : s +:+ a = s +:+ b -> a = b.
Proof. induction s as [|c s IH]; cbn; [done|]. intros [= H]. by apply IH. Qed.

Lemma list_filter_iff_in {A} (P Q : A -> Prop)
    `{!forall x, Decision (P x), !forall x, Decision (Q x)} (l : list A) :
  (forall x, x ∈ l -> P x <-> Q x) -> filter P l = filter Q l.
Proof.
  induction l as [|x l IH]; intros Hiff; [done|].
  rewrite !filter_cons.
  rewrite IH by (intros y Hy; apply Hiff; by right).
  pose proof (Hiff x (list_elem_of_here _ _)) as Hx.
  destruct (decide (P x)) as [HP|HP], (decide (Q x)) as [HQ|HQ]; tauto.
Qed.

Lemma count_of_image {A} (f : A -> string) `{!Inj (=) (=) f} (l : list A) (x : A) :
  NoDup l -> x ∈ l ->
  length (filter (fun m => m = f x) (f <$> l)) = 1%nat.
Proof.
  assert (Hnone : forall l', x ∉ l' -> filter (fun m => m = f x) (f <$> l') = []).
  { induction l' as [|y l' IH]; [done|]. rewrite not_elem_of_cons. intros [Hne Hl].
    rewrite fmap_cons, filter_cons_False; [by apply IH|].
    intros Heq. by apply (inj f) in Heq. }
  induction l as [|y l IH]; intros Hnd Hin; [by apply elem_of_nil in Hin|].
  apply NoDup_cons in Hnd as [Hy Hnd]. rewrite fmap_cons.
  destruct (decide (f y = f x)) as [Heq|Hne].
  - apply (inj f) in Heq as ->.
    rewrite filter_cons_True by done. cbn [length]. by rewrite Hnone.
  - rewrite filter_cons_False by done.
    apply IH; [done|]. apply elem_of_cons in Hin as [->|]; done.
Qed.

Lemma warnings_of_warn {A} (f : A -> string) (l : list A) :
  warnings ((fun v => Warn (f v)) <$> l) = f <$> l.
Proof. induction l as [|x l IH]; [done|]. cbn. by rewrite <- IH. Qed.

Section Fallback.
Variable env : Env.
Variable dataset : Dataset.

(** The variables the loop infers, given the colors it starts from. *)
Let missing (cd : gmap string kwargs) (v : string) : Prop :=
  (v ∉ ds_dims dataset) /\ (v ∉ dom cd).

Lemma fallback_step_skip cd v :
  ~ missing cd v -> fallback_step env dataset cd v = (Ok cd, []).
Proof.
  unfold missing, fallback_step. intros H.
  destruct (decide (v ∈ ds_dims dataset)).
  - by rewrite bool_decide_eq_true_2.
  - rewrite bool_decide_eq_false_2 by done.
    rewrite bool_decide_eq_true_2; [done|].
    destruct (decide (v ∈ dom cd)); [done|]. by destruct H.
Qed.

Lemma fallback_step_infer cd v p :
  missing cd v -> inferred env dataset default_options v = Ok p ->
  fallback_step env dataset cd v
  = (Ok (<[v := p]> cd), [Warn ("Couldn't find color data for " +:+ v)]).
Proof.
  unfold missing, fallback_step, inferred. intros [H1 H2] Hinf.
  rewrite !bool_decide_eq_false_2 by done.
  destruct (getitem dataset v) as [da|]; [|done]. cbn in *. by rewrite Hinf.
Qed.

Lemma fallback_fold (l : list string) :
  NoDup l -> forall cd,
  (forall v, v ∈ l -> missing cd v ->
             is_ok (inferred env dataset default_options v) = true) ->
  exists cd',
    io_fold (fallback_step env dataset) l cd
    = (Ok cd', (fun v => Warn ("Couldn't find color data for " +:+ v))
                 <$> filter (missing cd) l)
    /\ cd ⊆ cd'
    /\ (forall v, v ∈ l -> missing cd v ->
          exists p, inferred env dataset default_options v = Ok p /\ cd' !! v = Some p)
    /\ (forall v, v ∈ dom cd' -> v ∈ dom cd \/ (v ∈ l /\ v ∉ ds_dims dataset)).
Proof.
  induction 1 as [|x l Hx Hnd IH]; intros cd Hok.
  { exists cd. repeat split; [done| |by left]. intros v Hv. by apply elem_of_nil in Hv. }
  destruct (decide (missing cd x)) as [Hm|Hm].
  - destruct (inferred env dataset default_options x) as [p|] eqn:Hinf.
    2:{ specialize (Hok x (list_elem_of_here _ _) Hm). by rewrite Hinf in Hok. }
    destruct (IH (<[x := p]> cd)) as (cd' & Hfold & Hsub & Hnew & Hdom).
    { intros v Hv [Hv1 Hv2]. apply Hok; [by right|]. split; [done|].
      rewrite dom_insert_L in Hv2. intros Hd. apply Hv2, elem_of_union. by right. }
    assert (Hfilter : filter (missing (<[x := p]> cd)) l = filter (missing cd) l).
    { apply list_filter_iff_in. intros v Hv. unfold missing.
      rewrite dom_insert_L, not_elem_of_union, not_elem_of_singleton.
      assert (v <> x) by (intros ->; done). tauto. }
    assert (Hcdx : cd !! x = None).
    { destruct Hm as [_ Hm]. by apply not_elem_of_dom in Hm. }
    exists cd'. split; [|split; [|split]].
    + cbn [io_fold]. rewrite filter_cons_True by done.
      change (io_bind ?m ?k) with (m ≫= k).
      etrans; [eapply bind_eval; [by apply fallback_step_infer|exact Hfold]|].
      by rewrite Hfilter.
    + etrans; [|exact Hsub]. by apply insert_subseteq.
    + intros v Hv Hmv. apply elem_of_cons in Hv as [->|Hv].
      * exists p. split; [done|].
        eapply lookup_weaken; [|exact Hsub]. apply lookup_insert_eq.
      * apply Hnew; [done|]. destruct Hmv as [Hv1 Hv2]. split; [done|].
        rewrite dom_insert_L, not_elem_of_union, not_elem_of_singleton.
        assert (v <> x) by (intros ->; done). tauto.
    + intros v Hv. destruct (Hdom v Hv) as [Hd|[Hd1 Hd2]].
      * rewrite dom_insert_L in Hd. destruct Hm as [Hm1 _].
        apply elem_of_union in Hd as [Hd|Hd]; [|by left].
        apply elem_of_singleton in Hd as ->. right. split; [by left|done].
      * right. split; [by right|done].
  - destruct (IH cd) as (cd' & Hfold & Hsub & Hnew & Hdom).
    { intros v Hv Hmv. apply Hok; [by right|done]. }
    exists cd'. split; [|split; [|split]].
    + cbn [io_fold]. rewrite filter_cons_False by done.
      change (io_bind ?m ?k) with (m ≫= k).
      etrans; [eapply bind_eval; [by apply fallback_step_skip|exact Hfold]|done].
    + done.
    + intros v Hv Hmv. apply elem_of_cons in Hv as [->|Hv]; [done|]. by apply Hnew.
    + intros v Hv. destruct (Hdom v Hv) as [Hd|[Hd1 Hd2]]; [by left|].
      right. split; [by right|done].
Qed.

End Fallback.

Lemma open_colorfile_ok env cf loaded :
  load_pickle env cf = Ok loaded -> open_colorfile env cf = (Ok loaded, []).
Proof. unfold open_colorfile. by intros ->. Qed.

Lemma first_occurrences_NoDup l : NoDup (first_occurrences l).
Proof.
  unfold first_occurrences. rewrite reverse_Permutation. apply NoDup_remove_dups.
Qed.

Lemma elem_of_first_occurrences l x : x ∈ first_occurrences l <-> x ∈ l.
Proof.
  unfold first_occurrences. by rewrite elem_of_reverse, elem_of_remove_dups, elem_of_reverse.
Qed.

Lemma keys_in_order_NoDup ds : NoDup (keys_in_order ds).
Proof.
  unfold keys_in_order. apply NoDup_app. split; [apply first_occurrences_NoDup|]. split.
  - intros x Hx [Hno _]%list_elem_of_filter. done.
  - apply NoDup_filter, NoDup_fst_map_to_list.
Qed.

Lemma elem_of_keys_in_order ds v :
  v ∈ keys_in_order ds <-> v ∈ dom (variables ds).
Proof.
  unfold keys_in_order. rewrite elem_of_app. split.
  - intros [[? _]%elem_of_first_occurrences%list_elem_of_filter
           |[_ ([k x] & -> & Hkx%elem_of_map_to_list)%list_elem_of_fmap]%list_elem_of_filter];
      [done|]. apply elem_of_dom. eauto.
  - intros Hv. set (listed := first_occurrences _).
    destruct (decide (v ∈ listed)) as [?|Hno]; [by left|]. right.
    apply list_elem_of_filter. split; [done|].
    apply elem_of_dom in Hv as [x Hx]. apply list_elem_of_fmap.
    exists (v, x). split; [done|]. by apply elem_of_map_to_list.
Qed.

Lemma variable_names_NoDup dataset : NoDup (variable_names dataset).
Proof. apply keys_in_order_NoDup. Qed.

Lemma elem_of_variable_names dataset v :
  v ∈ variable_names dataset <-> v ∈ dom (variables dataset).
Proof. apply elem_of_keys_in_order. Qed.

(** C4. With a loaded cache that has no entry for the non-dimension
    variable [X], and a library inference that returns for the variables
    the cache lacks, the resolution returns: the mapping then holds the
    parameters inferred for [X] next to everything that was loaded, and
    the warning about [X] was emitted exactly once. *)
Theorem missing_entry_is_inferred env args dataset cf loaded X :
  colorfile args = Some cf ->
  load_pickle env cf = Ok loaded ->
  X ∈ dom (variables dataset) ->
  X ∉ ds_dims dataset ->
  X ∉ dom loaded ->
  (forall v, v ∈ dom (variables dataset) -> v ∉ ds_dims dataset -> v ∉ dom loaded ->
             is_ok (inferred env dataset default_options v) = true) ->
  exists color_data evs params,
    resolve_colors env args dataset = (Ok color_data, evs)
    /\ inferred env dataset default_options X = Ok params
    /\ color_data !! X = Some params
    /\ loaded ⊆ color_data
    /\ length (filter (fun m => m = "Couldn't find color data for " +:+ X)
                      (warnings evs)) = 1%nat.
Proof.
  intros Hcf Hload HX Hdim Hmiss Hinf.
  destruct (fallback_fold env dataset (variable_names dataset)
              (variable_names_NoDup dataset) loaded)
    as (cd' & Hfold & Hsub & Hnew & _).
  { intros v Hv [Hv1 Hv2]. apply Hinf; [by apply elem_of_variable_names|done..]. }
  destruct (Hnew X) as (p & Hp & HcdX); [by apply elem_of_variable_names|done|].
  exists cd', (((fun v => Warn ("Couldn't find color data for " +:+ v))
                 <$> filter (fun v => (v ∉ ds_dims dataset) /\ (v ∉ dom loaded))
                            (variable_names dataset))), p.
  split; [|split; [done|split; [done|split; [done|]]]].
  - unfold resolve_colors. rewrite Hcf.
    etrans; [eapply bind_eval; [by apply open_colorfile_ok|exact Hfold]|done].
  - rewrite warnings_of_warn.
    apply (count_of_image (fun v => "Couldn't find color data for " +:+ v)).
    + apply NoDup_filter, variable_names_NoDup.
    + apply list_elem_of_filter. split; [done|]. by apply elem_of_variable_names.
Qed.

Lemma missing_entry_is_inferred_witness :
  exists color_data evs params,
    resolve_colors demo_env empty_cache_args demo_dataset = (Ok color_data, evs)
    /\ inferred demo_env demo_dataset default_options "T" = Ok params
    /\ color_data !! "T" = Some params
    /\ (∅ : gmap string kwargs) ⊆ color_data
    /\ length (filter (fun m => m = "Couldn't find color data for T")
                      (warnings evs)) = 1%nat.
Proof.
  apply (missing_entry_is_inferred demo_env empty_cache_args demo_dataset
           "empty.cf" ∅ "T"); [compute_done..|].
  intros v [var Hv]%elem_of_dom _ _. unfold inferred, getitem. rewrite Hv. reflexivity.
Defined.

(** ** The coercion of the dimension names *)



Lemma rename_name_old old new : rename_name old new old = new.
Proof. unfold rename_name. by rewrite String.eqb_refl. Qed.




(** ** The dimensions of a dataset *)

Section Dimensions.
Variable scalar_vars : list string.

Lemma add_dimension_ok_inv dims dn dims' :
  add_dimension scalar_vars dims dn = Ok dims' ->
  (dn.1 ∉ scalar_vars) /\ dims' !! dn.1 = Some dn.2 /\ dims ⊆ dims'.
Proof.
  unfold add_dimension. case_bool_decide as Hsc; [done|].
  destruct (dims !! dn.1) as [size|] eqn:Hd.
  - destruct (Nat.eqb size dn.2) eqn:Hn; [|done]. intros [= <-].
    apply Nat.eqb_eq in Hn as <-. done.
  - intros [= <-]. split; [done|]. split; [apply lookup_insert_eq|].
    by apply insert_subseteq.
Qed.

Lemma add_dimensions_ok_inv l : forall dims dims',
  for_each (add_dimension scalar_vars) l dims = Ok dims' ->
  dims ⊆ dims'
  /\ forall dn, dn ∈ l -> (dn.1 ∉ scalar_vars) /\ dims' !! dn.1 = Some dn.2.
Proof.
  induction l as [|dn l IH]; intros dims dims'; cbn.
  - intros [= <-]. split; [done|]. by intros dn ?%elem_of_nil.
  - destruct (add_dimension scalar_vars dims dn) as [dims1|] eqn:H1; [|done]. cbn.
    intros [Hsub Hl]%IH. apply add_dimension_ok_inv in H1 as (Hsc & Hdn & Hsub1).
    split; [by etrans|]. intros dn' [->|Hin]%elem_of_cons; [|by apply Hl].
    split; [done|]. by eapply lookup_weaken.
Qed.

Lemma add_dimensions_ok (size : string -> option nat) l : forall dims,
  (forall d n, dims !! d = Some n -> size d = Some n) ->
  (forall dn, dn ∈ l -> (dn.1 ∉ scalar_vars) /\ size dn.1 = Some dn.2) ->
  exists dims',
    for_each (add_dimension scalar_vars) l dims = Ok dims'
    /\ forall d n, dims' !! d = Some n -> size d = Some n.
Proof.
  induction l as [|dn l IH]; intros dims Hdims Hl; cbn; [by eauto|].
  destruct (Hl dn) as [Hsc Hsize]; [by left|].
  assert (Hstep : exists dims1, add_dimension scalar_vars dims dn = Ok dims1
            /\ forall d n, dims1 !! d = Some n -> size d = Some n).
  { unfold add_dimension. rewrite bool_decide_eq_false_2 by done.
    destruct (dims !! dn.1) as [n|] eqn:Hd.
    - apply Hdims in Hd. assert (n = dn.2) as -> by congruence.
      rewrite Nat.eqb_refl. eauto.
    - eexists. split; [done|]. intros d n.
      destruct (decide (d = dn.1)) as [->|Hne].
      + rewrite lookup_insert_eq. congruence.
      + rewrite lookup_insert_ne by done. apply Hdims. }
  destruct Hstep as (dims1 & -> & Hdims1). cbn.
  apply IH; [done|]. intros dn' Hin. apply Hl. by right.
Qed.

End Dimensions.

(** The dimensions of a variable with their lengths. *)
Lemma calculate_dimensions_ok_inv vs dims :
  calculate_dimensions vs = Ok dims ->
  forall k v d n, (k, v) ∈ vs -> (d, n) ∈ zip (v_dims v) (shape (v_data v)) ->
  dims !! d = Some n
  /\ forall v0, (d, v0) ∈ vs -> v_dims v0 <> [].
Proof.
  unfold calculate_dimensions.
  set (sc := (filter (fun kv => v_dims kv.2 = []) vs).*1).
  assert (Hgen : forall l acc acc',
            for_each (fun dims kv => for_each (add_dimension sc)
                                       (zip (v_dims kv.2) (shape (v_data kv.2))) dims)
                     l acc = Ok acc' ->
            acc ⊆ acc'
            /\ forall (kv : string * Var) (dn : string * nat),
                 kv ∈ l -> dn ∈ zip (v_dims kv.2) (shape (v_data kv.2)) ->
                 (dn.1 ∉ sc) /\ acc' !! dn.1 = Some dn.2).
  { induction l as [|kv l IH]; intros acc acc'; cbn.
    - intros [= <-]. split; [done|]. by intros kv dn ?%elem_of_nil.
    - destruct (for_each _ _ acc) as [acc1|] eqn:H1; [|done]. cbn.
      intros [Hsub Hl]%IH. apply add_dimensions_ok_inv in H1 as [Hsub1 H1].
      split; [by etrans|]. intros kv' dn [->|Hin]%elem_of_cons Hdn; [|by eapply Hl].
      destruct (H1 dn Hdn) as [Hsc Hdn1]. split; [done|]. by eapply lookup_weaken. }
  intros Hcalc k v d n Hkv Hdn.
  destruct (Hgen _ _ _ Hcalc) as [_ H]. destruct (H (k, v) (d, n) Hkv Hdn) as [Hsc Hd].
  split; [done|]. intros v0 Hv0 Hnil. apply Hsc. unfold sc.
  apply list_elem_of_fmap. exists (d, v0). split; [done|].
  by apply list_elem_of_filter.
Qed.

Lemma calculate_dimensions_ok (size : string -> option nat) vs :
  (forall k v d n, (k, v) ∈ vs -> (d, n) ∈ zip (v_dims v) (shape (v_data v)) ->
     size d = Some n /\ forall v0, (d, v0) ∈ vs -> v_dims v0 <> []) ->
  is_ok (calculate_dimensions vs) = true.
Proof.
  intros H. unfold calculate_dimensions.
  set (sc := (filter (fun kv => v_dims kv.2 = []) vs).*1).
  assert (Hgen : forall l acc,
            (forall kv, kv ∈ l -> kv ∈ vs) ->
            (forall d n, acc !! d = Some n -> size d = Some n) ->
            exists acc',
              for_each (fun dims kv => for_each (add_dimension sc)
                                         (zip (v_dims kv.2) (shape (v_data kv.2))) dims)
                       l acc = Ok acc').
  { induction l as [|[k v] l IH]; intros acc Hl Hacc; cbn; [by eauto|].
    destruct (add_dimensions_ok sc size (zip (v_dims v) (shape (v_data v))) acc Hacc)
      as (acc1 & -> & Hacc1).
    { intros [d n] Hdn. destruct (H k v d n) as [Hsize Hsc]; [apply Hl; by left|done|].
      split; [|done]. cbn. unfold sc.
      intros ([d' v0] & Heq & [Hnil Hin]%list_elem_of_filter)%list_elem_of_fmap.
      cbn in Heq, Hnil. subst d'. by apply (Hsc v0). }
    cbn. apply IH; [|done]. intros kv Hkv. apply Hl. by right. }
  destruct (Hgen vs ∅) as [acc' ->]; [done| |done].
  intros d n. by rewrite lookup_empty.
Qed.

(** ** The variables in their order *)

Lemma elem_of_items_in_order ds k v :
  (k, v) ∈ items_in_order ds <-> variables ds !! k = Some v.
Proof.
  unfold items_in_order. rewrite list_elem_of_omap. split.
  - intros (k' & _ & Hk). destruct (variables ds !! k') as [v'|] eqn:Hv; [|done].
    cbn in Hk. by injection Hk as -> ->.
  - intros Hv. exists k. split.
    + apply elem_of_keys_in_order, elem_of_dom. eauto.
    + by rewrite Hv.
Qed.

(** ** Renaming *)

Section RenameFold.
Variables old new : string.

Let step (acc : gmap string Var) (kv : string * Var) : gmap string Var :=
  <[rename_name old new kv.1 := rename_dims old new kv.2]> acc.

Lemma rename_fold_inv its : forall acc k' v',
  foldl step acc its !! k' = Some v' ->
  acc !! k' = Some v'
  \/ exists k v, (k, v) ∈ its /\ k' = rename_name old new k /\ v' = rename_dims old new v.
Proof.
  induction its as [|[k v] its IH]; intros acc k' v'; cbn [foldl]; [by left|].
  intros [Hacc|(k0 & v0 & Hin & -> & ->)]%IH.
  - unfold step in Hacc. cbn in Hacc.
    destruct (decide (rename_name old new k = k')) as [<-|Hne].
    + rewrite lookup_insert_eq in Hacc. injection Hacc as <-.
      right. exists k, v. split; [by left|done].
    + rewrite lookup_insert_ne in Hacc by done. by left.
  - right. exists k0, v0. split; [by right|done].
Qed.



End RenameFold.


Lemma rename_name_not_old old new a :
  old <> new -> rename_name old new a <> old.
Proof.
  unfold rename_name. intros Hne.
  destruct (String.eqb a old) eqn:Ha; [congruence|]. by apply String.eqb_neq in Ha.
Qed.


Lemma rename_dims_not_old old new v :
  old <> new -> old ∉ v_dims (rename_dims old new v).
Proof.
  intros Hne. unfold rename_dims. cbn. intros (d & Hd & _)%list_elem_of_fmap.
  by apply (rename_name_not_old old new d).
Qed.

Section Rename.
Variable ds : Dataset.
Variables old new : string.

(** What the new [OrderedDict] of [rename] holds. *)
Let renamed_variables : gmap string Var :=
  foldl (fun acc kv => <[rename_name old new kv.1 := rename_dims old new kv.2]> acc)
        ∅ (items_in_order ds).

Lemma renamed_variables_inv k' v' :
  renamed_variables !! k' = Some v' ->
  exists k v, variables ds !! k = Some v
              /\ k' = rename_name old new k /\ v' = rename_dims old new v.
Proof.
  intros [H|(k & v & Hin & -> & ->)]%rename_fold_inv; [by rewrite lookup_empty in H|].
  exists k, v. split; [by apply elem_of_items_in_order|done].
Qed.



(** The items that [rename] hands to [calculate_dimensions]. *)
Lemma elem_of_renamed_items k' v' :
  (k', v') ∈ omap (fun k => pair k <$> renamed_variables !! k)
                  (first_occurrences (rename_name old new <$> (items_in_order ds).*1))
  <-> renamed_variables !! k' = Some v'.
Proof.
  rewrite list_elem_of_omap. split.
  - intros (k & _ & Hk). destruct (renamed_variables !! k) as [v|] eqn:Hv; [|done].
    cbn in Hk. by injection Hk as -> ->.
  - intros Hv. exists k'. split; [|by rewrite Hv].
    apply elem_of_first_occurrences.
    destruct (renamed_variables_inv k' v' Hv) as (k & v & Hkv & -> & _).
    apply list_elem_of_fmap. exists k. split; [done|].
    apply list_elem_of_fmap. exists (k, v). split; [done|].
    by apply elem_of_items_in_order.
Qed.

Lemma rename_ok_inv ds1 :
  rename ds old new = Ok ds1 ->
  variables ds1 = renamed_variables /\ dims_consistent ds1 = true.
Proof.
  unfold rename. destruct (contains ds old); [|done]. cbn [negb].
  fold renamed_variables.
  destruct (calculate_dimensions _) as [dims1|] eqn:Hcalc; [|done].
  cbn [mbind result_bind bind]. intros [= <-]. split; [done|].
  unfold dims_consistent.
  apply (calculate_dimensions_ok (fun d => dims1 !! d)).
  intros k v d n Hkv%elem_of_items_in_order Hdn. cbn [variables] in Hkv.
  destruct (calculate_dimensions_ok_inv _ _ Hcalc k v d n) as [Hd Hsc];
    [by apply elem_of_renamed_items|done|].
  split; [done|]. intros v0 Hv0%elem_of_items_in_order. cbn [variables] in Hv0.
  apply Hsc. by apply elem_of_renamed_items.
Qed.


End Rename.








(** A variable that is already called [lon] does not stop the renaming:
    the dimension [longitude] becomes [lon], and of the two variables that
    are now called [lon] the one that comes later in the file stays. *)
Lemma name_clash_is_renamed :
  exists ds',
    coerce_dims clash_dataset = Ok ds'
    /\ ds_dims ds' = {[ "lon" ]}
    /\ variable_names ds' = ["lon"].
Proof.
  eexists. split; [vm_compute; reflexivity|].
  split; [|vm_compute; reflexivity]. compute_done.
Qed.

(** ** The events of a run *)

Lemma all_events_fold {A S} P (body : S -> A -> io S) xs s :
  (forall s x, all_events P (body s x)) -> all_events P (io_fold body xs s).
Proof.
  intros Hb. revert s. induction xs as [|x xs IH]; intros s; [done|].
  cbn [io_fold]. apply (all_events_bind P (body s x)); [apply Hb|apply IH].
Qed.

Lemma all_events_snd {A} P (m : io A) r evs :
  m = (r, evs) -> all_events P m -> forallb P evs = true.
Proof. by intros ->. Qed.

(** Splits a computation into its steps, one goal per event. *)
Ltac events :=
  repeat first
    [ progress unfold print, warn, sys_exit
    | apply all_events_ret
    | apply all_events_lift
    | apply all_events_raise
    | apply all_events_emit; reflexivity
    | apply all_events_for; intros
    | apply all_events_fold; intros
    | apply all_events_bind; [|intros]
    | match goal with
      | |- all_events _ (match ?x with _ => _ end) => destruct x
      | |- all_events _ (if ?b then _ else _) => destruct b
      end ].

Lemma resolve_colors_events env args dataset :
  all_events (fun e => negb (writes_file e)) (resolve_colors env args dataset).
Proof.
  unfold resolve_colors, open_colorfile, fallback_step, batch_step. events.
Qed.

Lemma add_colorbar_events P mappable fig ax thickness shrink pad orientation :
  (forall what, P (Call what) = true) ->
  all_events P (add_colorbar mappable fig ax thickness shrink pad orientation).
Proof.
  intros HP. unfold add_colorbar.
  repeat first
    [ apply all_events_ret | apply all_events_raise
    | apply all_events_emit; apply HP
    | apply all_events_bind; [|intros]
    | match goal with
      | |- all_events _ (match ?x with _ => _ end) => destruct x
      | |- all_events _ (if ?b then _ else _) => destruct b
      end ].
Qed.

Lemma geo_plot_events P env darray ax method projection grid kw :
  (forall what, P (Call what) = true) ->
  (forall msg, P (Warn msg) = true) ->
  all_events P (geo_plot env darray ax method projection grid kw).
Proof.
  intros HC HW. unfold geo_plot, warn.
  repeat first
    [ apply all_events_ret | apply all_events_raise | apply all_events_lift
    | apply all_events_emit; first [apply HC | apply HW]
    | apply all_events_bind; [|intros]
    | match goal with
      | |- all_events _ (match ?x with _ => _ end) => destruct x
      | |- all_events _ (if ?b then _ else _) => destruct b
      end ].
Qed.

Lemma plot_loop_events env args dataset color_data vs :
  all_events (fun e => negb (is_dump e))
             (io_for (plot_variable env args dataset color_data) vs).
Proof.
  apply all_events_for. intros v. unfold plot_variable.
  destruct (negb (is_plotted dataset v)); [apply all_events_ret|].
  events.
  match goal with |- all_events _ (time_loop _ _ ?v ?d ?k ?g) =>
    induction g as [|[time plot_data] rest IH] end; [apply all_events_ret|].
  cbn [time_loop]. apply all_events_bind; [|intros; by destruct (sample args); events].
  unfold plot_timestep, call_geo_plot. events;
    first [ by apply geo_plot_events | by apply add_colorbar_events ].
Qed.

Lemma emit_bind_inv {B} e (k : unit -> io B) b evs :
  (emit e ≫= k) = (Ok b, evs) -> exists e2, k tt = (Ok b, e2) /\ evs = e :: e2.
Proof.
  intros (a & e1 & e2 & H1 & H2 & ->)%bind_ok_inv. destruct a.
  injection H1 as <-. eauto.
Qed.

Lemma lift_bind_inv {A B} (r : result A) (k : A -> io B) b evs :
  (lift r ≫= k) = (Ok b, evs) -> exists a, r = Ok a /\ k a = (Ok b, evs).
Proof.
  intros (a & e1 & e2 & H1 & H2 & ->)%bind_ok_inv.
  apply lift_ok_inv in H1 as [-> ->]. eauto.
Qed.

Lemma for_print_bind_inv {A B} (f : A -> string) xs (k : unit -> io B) b evs :
  (io_for (fun x => print (f x)) xs ≫= k) = (Ok b, evs) ->
  exists e2, k tt = (Ok b, e2) /\ evs = ((fun x => Print (f x)) <$> xs) ++ e2.
Proof.
  rewrite io_for_print. intros (a & e1 & e2 & H1 & H2 & ->)%bind_ok_inv.
  destruct a. injection H1 as <-. eauto.
Qed.

Lemma open_input_ok_inv env args dataset evs :
  open_input env args = (Ok dataset, evs) ->
  open_dataset env (nc_file args) = Ok dataset /\ evs = [].
Proof.
  unfold open_input. destruct (open_dataset env (nc_file args)) as [ds|e].
  - by intros [= -> <-].
  - destruct e; discriminate.
Qed.

Lemma save_colors_ok_inv env args color_data evs :
  save_colors env args color_data = (Ok tt, evs) ->
  evs = [Print "Saving colormap data"; Dump (colorfile_name args) color_data].
Proof.
  unfold save_colors, print.
  intros (e2 & (a & Hd & H)%lift_bind_inv & ->)%emit_bind_inv.
  unfold emit in H. by injection H as <-.
Qed.

(** A run that ends normally went through every stage. *)
Lemma run_ok_inv env args evs :
  run env args = (Ok tt, evs) ->
  exists dataset0 dataset color_data e_res e_plot,
    open_dataset env (nc_file args) = Ok dataset0
    /\ coerce_dims dataset0 = Ok dataset
    /\ resolve_colors env args dataset = (Ok color_data, e_res)
    /\ io_for (plot_variable env args dataset color_data) (variable_names dataset)
       = (Ok tt, e_plot)
    /\ evs = (Print "Input file details:"
              :: ((fun kv : string * string => Print ("   " +:+ kv.1 +:+ ": " +:+ kv.2))
                    <$> map_to_list (ds_attrs dataset0)))
             ++ e_res
             ++ [Print "Saving colormap data"; Dump (colorfile_name args) color_data;
                 Print (repr_dataset env dataset)]
             ++ e_plot.
Proof.
  unfold run, main, print.
  intros (dataset0 & e1 & e2 & [Hopen ->]%open_input_ok_inv & H & ->)%bind_ok_inv.
  apply emit_bind_inv in H as (e3 & H & ->).
  apply for_print_bind_inv in H as (e4 & H & ->).
  apply lift_bind_inv in H as (dataset & Hco & H).
  apply bind_ok_inv in H as (color_data & e_res & e5 & Hres & H & ->).
  apply bind_ok_inv in H as ([] & e_save & e6 & Hsave%save_colors_ok_inv & H & ->).
  apply emit_bind_inv in H as (e_plot & H & ->). subst e_save.
  exists dataset0, dataset, color_data, e_res, e_plot.
  repeat split; done.
Qed.

(** ** The colormap cache: saving *)

Section Resolve.
Variable env : Env.
Variable dataset : Dataset.

Lemma fallback_step_ok_inv cd v cd1 e1 :
  fallback_step env dataset cd v = (Ok cd1, e1) ->
  ((v ∈ ds_dims dataset \/ v ∈ dom cd) /\ cd1 = cd)
  \/ ((v ∉ ds_dims dataset) /\ (v ∉ dom cd)
      /\ exists p, inferred env dataset default_options v = Ok p /\ cd1 = <[v := p]> cd).
Proof.
  unfold fallback_step, inferred, warn.
  case_bool_decide; [intros [= <- _]; left; auto|].
  case_bool_decide; [intros [= <- _]; left; auto|].
  intros (e2 & (da & Hget & (p & Hp & Hret)%lift_bind_inv)%lift_bind_inv & ->)%emit_bind_inv.
  injection Hret as <-. right. rewrite Hget. cbn. eauto 10.
Qed.

Lemma batch_step_ok_inv cd v cd1 e1 :
  batch_step env dataset cd v = (Ok cd1, e1) ->
  (v ∈ ds_dims dataset /\ cd1 = cd)
  \/ ((v ∉ ds_dims dataset)
      /\ exists p, inferred env dataset batch_options v = Ok p /\ cd1 = <[v := p]> cd).
Proof.
  unfold batch_step, inferred, print.
  case_bool_decide; [intros [= <- _]; left; auto|].
  intros (e2 & (da & Hget & (p & Hp & Hret)%lift_bind_inv)%lift_bind_inv & ->)%emit_bind_inv.
  injection Hret as <-. right. rewrite Hget. cbn. eauto 10.
Qed.

Lemma fallback_fold_inv l :
  NoDup l -> forall cd cd' evs,
  io_fold (fallback_step env dataset) l cd = (Ok cd', evs) ->
  cd ⊆ cd'
  /\ (forall v, v ∈ dom cd' -> v ∈ dom cd \/ (v ∈ l /\ v ∉ ds_dims dataset))
  /\ (forall v, v ∈ l -> v ∉ ds_dims dataset -> v ∉ dom cd ->
        exists p, inferred env dataset default_options v = Ok p /\ cd' !! v = Some p).
Proof.
  induction 1 as [|x l Hx Hnd IH]; intros cd cd' evs.
  { intros [= <- _]. repeat split; [done|by left|]. intros v Hv. by apply elem_of_nil in Hv. }
  cbn [io_fold]. change (io_bind ?m ?k) with (m ≫= k).
  intros (cd1 & e1 & e2 & Hstep & Hfold & ->)%bind_ok_inv.
  destruct (IH _ _ _ Hfold) as (Hsub & Hdom & Hnew).
  apply fallback_step_ok_inv in Hstep as [[Hskip ->]|(Hd & Hm & p & Hp & ->)].
  - split; [done|]. split.
    + intros v Hv. destruct (Hdom v Hv) as [?|[? ?]]; [by left|right].
      split; [by right|done].
    + intros v [->|Hv]%elem_of_cons Hv1 Hv2; [by destruct Hskip|by apply Hnew].
  - assert (Hcdx : cd !! x = None) by (by apply not_elem_of_dom).
    split; [etrans; [by apply insert_subseteq|done]|]. split.
    + intros v Hv. destruct (Hdom v Hv) as [Hin|[? ?]].
      * rewrite dom_insert_L in Hin. apply elem_of_union in Hin as [->%elem_of_singleton|?];
          [right; split; [by left|done] | by left].
      * right. split; [by right|done].
    + intros v [->|Hv]%elem_of_cons Hv1 Hv2.
      * exists p. split; [done|]. eapply lookup_weaken; [apply lookup_insert_eq|done].
      * apply Hnew; [done..|]. rewrite dom_insert_L, not_elem_of_union, not_elem_of_singleton.
        split; [intros ->; done|done].
Qed.

Lemma batch_fold_inv l :
  NoDup l -> forall cd cd' evs,
  io_fold (batch_step env dataset) l cd = (Ok cd', evs) ->
  (forall v, v ∈ dom cd' -> v ∈ dom cd \/ (v ∈ l /\ v ∉ ds_dims dataset))
  /\ (forall v, v ∉ l -> cd' !! v = cd !! v)
  /\ (forall v, v ∈ l -> v ∉ ds_dims dataset ->
        exists p, inferred env dataset batch_options v = Ok p /\ cd' !! v = Some p).
Proof.
  induction 1 as [|x l Hx Hnd IH]; intros cd cd' evs.
  { intros [= <- _]. split; [by left|]. split; [done|].
    intros v Hv. by apply elem_of_nil in Hv. }
  cbn [io_fold]. change (io_bind ?m ?k) with (m ≫= k).
  intros (cd1 & e1 & e2 & Hstep & Hfold & ->)%bind_ok_inv.
  destruct (IH _ _ _ Hfold) as (Hdom & Hkeep & Hnew).
  apply batch_step_ok_inv in Hstep as [[Hskip ->]|(Hd & p & Hp & ->)].
  - split; [|split].
    + intros v Hv. destruct (Hdom v Hv) as [?|[? ?]]; [by left|right].
      split; [by right|done].
    + intros v [? ?]%not_elem_of_cons. by apply Hkeep.
    + intros v [->|Hv]%elem_of_cons Hv1; [done|by apply Hnew].
  - split; [|split].
    + intros v Hv. destruct (Hdom v Hv) as [Hin|[? ?]].
      * rewrite dom_insert_L in Hin. apply elem_of_union in Hin as [->%elem_of_singleton|?];
          [right; split; [by left|done] | by left].
      * right. split; [by right|done].
    + intros v [? ?]%not_elem_of_cons. rewrite Hkeep by done. by apply lookup_insert_ne.
    + intros v [->|Hv]%elem_of_cons Hv1.
      * exists p. split; [done|]. rewrite Hkeep by done. apply lookup_insert_eq.
      * by apply Hnew.
Qed.

End Resolve.

(** The mapping a resolution returns is the loaded one joined with one
    fresh inference for every other variable that is not a dimension. *)
Lemma resolve_colors_ok_inv env args dataset color_data evs :
  resolve_colors env args dataset = (Ok color_data, evs) ->
  loaded_colors env args ⊆ color_data
  /\ (forall v, v ∈ dom color_data <->
        v ∈ dom (loaded_colors env args)
        \/ (v ∈ dom (variables dataset) /\ v ∉ ds_dims dataset))
  /\ (forall v, v ∈ dom (variables dataset) -> v ∉ ds_dims dataset ->
        v ∉ dom (loaded_colors env args) ->
        exists p, inferred env dataset (inference_options args) v = Ok p
                  /\ color_data !! v = Some p).
Proof.
  unfold resolve_colors, loaded_colors, inference_options.
  destruct (colorfile args) as [cf|].
  - intros (loaded & e1 & e2 & Hopen & Hfold & ->)%bind_ok_inv.
    assert (Hload : load_pickle env cf = Ok loaded).
    { unfold open_colorfile in Hopen. destruct (load_pickle env cf) as [m|e].
      - by injection Hopen as ->.
      - destruct e; discriminate. }
    rewrite Hload.
    apply fallback_fold_inv in Hfold as (Hsub & Hdom & Hnew);
      [|apply variable_names_NoDup].
    split; [done|]. split.
    + intros v. split.
      * intros Hv. destruct (Hdom v Hv) as [?|[?%elem_of_variable_names ?]]; auto.
      * intros [Hv|[Hv Hd]].
        -- apply elem_of_dom in Hv as [p Hp]. apply elem_of_dom. exists p.
           by eapply lookup_weaken.
        -- destruct (decide (v ∈ dom loaded)) as [Hl|Hl].
           ++ apply elem_of_dom in Hl as [p Hp]. apply elem_of_dom. exists p.
              by eapply lookup_weaken.
           ++ destruct (Hnew v) as (p & _ & Hp); [by apply elem_of_variable_names|done..|].
              apply elem_of_dom. eauto.
    + intros v Hv Hd Hl. apply Hnew; [by apply elem_of_variable_names|done..].
  - unfold print. intros (e2 & Hfold & ->)%emit_bind_inv.
    apply batch_fold_inv in Hfold as (Hdom & _ & Hnew); [|apply variable_names_NoDup].
    split; [apply map_empty_subseteq|]. split.
    + intros v. rewrite dom_empty_L. split.
      * intros Hv. destruct (Hdom v Hv) as [Hin|[?%elem_of_variable_names ?]]; auto.
      * intros [Hv|[Hv Hd]]; [by apply elem_of_empty in Hv|].
        destruct (Hnew v) as (p & _ & Hp); [by apply elem_of_variable_names|done|].
        apply elem_of_dom. eauto.
    + intros v Hv Hd _. apply Hnew; [by apply elem_of_variable_names|done].
Qed.




(** ** The images of a run *)

Lemma saved_files_app e1 e2 : saved_files (e1 ++ e2) = saved_files e1 ++ saved_files e2.
Proof. apply omap_app. Qed.

Lemma saved_files_none evs :
  forallb (fun e => negb (is_savefig e)) evs = true -> saved_files evs = [].
Proof.
  induction evs as [|e evs IH]; [done|]. cbn [forallb].
  intros [He Hevs]%andb_true_iff. destruct e; try done; by apply IH.
Qed.

Lemma writes_none_saved evs :
  forallb (fun e => negb (writes_file e)) evs = true -> saved_files evs = [].
Proof.
  intros H. apply saved_files_none. rewrite forallb_forall in *.
  intros e He. specialize (H e He). unfold writes_file in H.
  by apply negb_true_iff, orb_false_iff in H as [_ ->].
Qed.

Lemma call_geo_plot_events P env plot_data ax kw :
  (forall what, P (Call what) = true) ->
  (forall msg, P (Warn msg) = true) ->
  all_events P (call_geo_plot env plot_data ax kw).
Proof.
  intros HC HW. unfold call_geo_plot.
  destruct (_ || _); [apply all_events_raise|by apply geo_plot_events].
Qed.

Section Images.
Variable env : Env.
Variable args : Args.
Hypothesis Hsample : sample args = true.

Lemma plot_timestep_saved v var_data kw time plot_data evs :
  plot_timestep env v var_data kw time plot_data = (Ok tt, evs) ->
  saved_files evs = [out_fn v time].
Proof.
  unfold plot_timestep, print. intros H.
  apply emit_bind_inv in H as (e1 & H & ->).
  apply lift_bind_inv in H as (pd & Hpd & H).
  apply emit_bind_inv in H as (e2 & H & ->).
  apply emit_bind_inv in H as (e3 & H & ->).
  apply bind_ok_inv in H as ([ax plot] & e_geo & e4 & Hgeo & H & ->).
  apply emit_bind_inv in H as (e5 & H & ->).
  apply bind_ok_inv in H as (cb & e_cb & e6 & Hcb & H & ->).
  apply emit_bind_inv in H as (e7 & H & ->).
  apply emit_bind_inv in H as (e8 & H & ->).
  apply lift_bind_inv in H as ([] & Hsave & H).
  apply emit_bind_inv in H as (e9 & H & ->).
  unfold emit in H. injection H as <-.
  apply all_events_snd with (P := fun e => negb (is_savefig e)) in Hgeo;
    [|by apply call_geo_plot_events].
  apply all_events_snd with (P := fun e => negb (is_savefig e)) in Hcb;
    [|by apply add_colorbar_events].
  cbn. rewrite saved_files_app, (saved_files_none _ Hgeo). cbn.
  rewrite saved_files_app, (saved_files_none _ Hcb). done.
Qed.

Lemma time_loop_saved v var_data kw groups evs :
  time_loop env args v var_data kw groups = (Ok tt, evs) ->
  saved_files evs = match groups with
                    | (time, _) :: _ => [out_fn v time]
                    | [] => []
                    end.
Proof.
  destruct groups as [|[time plot_data] rest]; cbn [time_loop].
  - by intros [= <-].
  - rewrite Hsample.
    intros ([] & e1 & e2 & Hstep%plot_timestep_saved & [= <-] & ->)%bind_ok_inv.
    by rewrite app_nil_r.
Qed.

Lemma plot_variable_saved dataset color_data v evs :
  plot_variable env args dataset color_data v = (Ok tt, evs) ->
  saved_files evs = if is_plotted dataset v
                    then option_list (first_image env dataset v) else [].
Proof.
  unfold plot_variable, first_image, print.
  destruct (is_plotted dataset v); cbn [negb]; [|by intros [= <-]].
  intros H.
  apply emit_bind_inv in H as (e1 & H & ->).
  apply lift_bind_inv in H as (var_data & -> & H).
  apply emit_bind_inv in H as (e2 & H & ->).
  apply for_print_bind_inv in H as (e3 & H & ->).
  apply emit_bind_inv in H as (e4 & H & ->).
  apply bind_ok_inv in H as (kw & e5 & e6 & Hkw & H & ->).
  assert (e5 = []) as ->.
  { destruct (color_data !! v); [by injection Hkw as _ <-|discriminate]. }
  apply for_print_bind_inv in H as (e7 & H & ->).
  apply lift_bind_inv in H as (groups & -> & H).
  apply time_loop_saved in H.
  cbn. rewrite saved_files_app. rewrite (saved_files_none (_ <$> _)).
  2:{ apply forallb_forall. intros e (kv & <- & _)%in_map_iff. done. }
  cbn. rewrite saved_files_app. rewrite (saved_files_none (_ <$> _)).
  2:{ apply forallb_forall. intros e (kv & <- & _)%in_map_iff. done. }
  cbn. rewrite H. by destruct groups as [|[? ?] ?].
Qed.

Lemma plot_loop_saved dataset color_data vs evs :
  io_for (plot_variable env args dataset color_data) vs = (Ok tt, evs) ->
  saved_files evs
  = omap (first_image env dataset) (List.filter (is_plotted dataset) vs).
Proof.
  revert evs. induction vs as [|v vs IH]; intros evs; [by intros [= <-]|].
  cbn [io_for List.filter]. change (io_bind ?m ?k) with (m ≫= k).
  intros ([] & e1 & e2 & Hv%plot_variable_saved & Hvs%IH & ->)%bind_ok_inv.
  rewrite saved_files_app, Hv, Hvs.
  destruct (is_plotted dataset v); [|done]. cbn.
  by destruct (first_image env dataset v).
Qed.

End Images.

Lemma omap_all_Some {A B} (f : A -> option B) (l : list A) :
  (forall x, x ∈ l -> is_Some (f x)) -> Some <$> omap f l = f <$> l.
Proof.
  induction l as [|x l IH]; intros H; [done|].
  destruct (H x (list_elem_of_here _ _)) as [y Hy]. cbn. rewrite Hy. cbn.
  f_equal. apply IH. intros z Hz. apply H. by right.
Qed.

(** C7. In a run with [--sample] that ends normally, where every plotted
    variable has a first time slice, the images written are, variable by
    variable, the image of that first slice: exactly one per plotted
    variable, named [<variable>_<MMDDYYYY_HHMMZ>.png] after the first
    timestamp of the variable. *)
Theorem sample_one_image_per_variable env args evs dataset :
  sample args = true ->
  run env args = (Ok tt, evs) ->
  input_dataset env args = Ok dataset ->
  (forall v, v ∈ plotted_variables dataset -> is_Some (first_image env dataset v)) ->
  Some <$> saved_files evs = first_image env dataset <$> plotted_variables dataset
  /\ length (saved_files evs) = length (plotted_variables dataset)
  /\ (forall v time, out_fn v time = v +:+ "_" +:+ fn_ts_str time +:+ ".png")
  /\ (forall time,
        fn_ts_str time
        = pad2 (month time) +:+ pad2 (day time) +:+ pad4 (year time) +:+ "_"
          +:+ pad2 (hour time) +:+ pad2 (minute time) +:+ "Z"
        /\ String.length (fn_ts_str time) = 14%nat).
Proof.
  intros Hsample (dataset0 & dataset' & color_data & e_res & e_plot
                  & Hopen & Hco & Hres & Hplot & ->)%run_ok_inv Hin Hfirst.
  unfold input_dataset in Hin. rewrite Hopen in Hin. cbn in Hin.
  rewrite Hco in Hin. injection Hin as ->.
  assert (Hsaved : saved_files
            ((Print "Input file details:"
               :: ((fun kv : string * string => Print ("   " +:+ kv.1 +:+ ": " +:+ kv.2))
                     <$> map_to_list (ds_attrs dataset0)))
             ++ e_res
             ++ [Print "Saving colormap data"; Dump (colorfile_name args) color_data;
                 Print (repr_dataset env dataset)]
             ++ e_plot)
          = omap (first_image env dataset) (plotted_variables dataset)).
  { rewrite !saved_files_app.
    rewrite (saved_files_none (_ :: _)).
    2:{ cbn. apply forallb_forall. intros e (kv & <- & _)%in_map_iff. done. }
    rewrite (writes_none_saved e_res).
    2:{ eapply all_events_snd; [exact Hres|apply resolve_colors_events]. }
    cbn. by apply (plot_loop_saved env args Hsample dataset color_data). }
  rewrite Hsaved. split; [by apply omap_all_Some|]. split; [|split; [done|done]].
  rewrite <- (length_fmap Some), omap_all_Some by done. by rewrite length_fmap.
Qed.

Lemma sample_one_image_per_variable_witness :
  saved_files (run demo_env sample_args).2 = ["T_11282016_0000Z.png"]
  /\ plotted_variables demo_dataset = ["T"].
Proof.
  assert (Hp : plotted_variables demo_dataset = ["T"]) by (vm_compute; reflexivity).
  destruct (sample_one_image_per_variable demo_env sample_args
              (run demo_env sample_args).2 demo_dataset) as (H1 & _).
  - reflexivity.
  - vm_compute. reflexivity.
  - vm_compute. reflexivity.
  - intros v. rewrite Hp. intros ->%list_elem_of_singleton. vm_compute. eauto.
  - split; [|exact Hp].
    assert (Hf : first_image demo_env demo_dataset <$> plotted_variables demo_dataset
                 = Some <$> ["T_11282016_0000Z.png"]) by (vm_compute; reflexivity).
    rewrite Hf in H1. exact (inj (fmap Some) _ _ H1).
Defined.

(** ** Arrays: selection, concatenation and comparison along an axis *)

Section Shapes.
Context {A : Type}.
Implicit Types (a b : nested A) (sh : list nat).

Lemma has_shape_cons_inv n sh a :
  has_shape (n :: sh) a = true ->
  exists xs, a = Arr xs /\ length xs = n /\ Forall (fun x => has_shape sh x = true) xs.
Proof.
  destruct a as [x|xs]; [done|]. cbn.
  intros [Hlen Hall]%andb_true_iff. exists xs. split; [done|].
  apply Nat.eqb_eq in Hlen. split; [done|].
  apply Forall_forall. intros x Hx. rewrite forallb_forall in Hall.
  by apply Hall, list_elem_of_In.
Qed.

Lemma has_shape_cons n sh (xs : list (nested A)) :
  length xs = n -> Forall (fun x => has_shape sh x = true) xs ->
  has_shape (n :: sh) (Arr xs) = true.
Proof.
  intros Hlen Hall. cbn. apply andb_true_iff. split; [by apply Nat.eqb_eq|].
  apply forallb_forall. intros x Hx. rewrite Forall_forall in Hall.
  by apply Hall, list_elem_of_In.
Qed.

Lemma has_shape_nil_inv a : has_shape [] a = true -> exists x, a = Item x.
Proof. destruct a; [eauto|done]. Qed.

(** Selecting along each element of a list of arrays. *)
Lemma mapM_select_ok (P Q : nested A -> Prop) (f : nested A -> option (nested A)) xs :
  Forall P xs ->
  (forall x, P x -> exists y, f x = Some y /\ Q y) ->
  exists ys, mapM f xs = Some ys /\ length ys = length xs /\ Forall Q ys.
Proof.
  intros Hall Hf. induction Hall as [|x xs Hx _ IH].
  { exists []. by repeat split. }
  destruct (Hf x Hx) as (y & Hy & HQ), IH as (ys & Hys & Hlen & HQs).
  exists (y :: ys). cbn. rewrite Hy. cbn. rewrite Hys. cbn.
  repeat split; [by rewrite Hlen|by constructor].
Qed.

Lemma mapM_ext_Forall {B} (f g : B -> option (nested A)) (h : B -> B) (xs : list B) :
  Forall (fun x => f (h x) = g x) xs -> mapM f (h <$> xs) = mapM g xs.
Proof.
  induction 1 as [|x xs Hx _ IH]; [done|]. cbn. by rewrite Hx, IH.
Qed.

Lemma select_ok axis : forall sh a n i,
  has_shape sh a = true -> sh !! axis = Some n -> (i < n)%nat ->
  exists b, select axis i a = Some b /\ has_shape (delete axis sh) b = true.
Proof.
  induction axis as [|k IH]; intros sh a n i Hsh Hn Hi.
  - destruct sh as [|m sh']; [done|]. injection Hn as ->.
    apply has_shape_cons_inv in Hsh as (xs & -> & Hlen & Hall).
    destruct (lookup_lt_is_Some_2 xs i) as [b Hb]; [lia|].
    exists b. split; [done|]. rewrite Forall_forall in Hall.
    apply Hall. by eapply list_elem_of_lookup_2.
  - destruct sh as [|m sh']; [done|]. cbn in Hn.
    apply has_shape_cons_inv in Hsh as (xs & -> & Hlen & Hall).
    destruct (mapM_select_ok (fun x => has_shape sh' x = true)
                (fun y => has_shape (delete k sh') y = true) (select k i) xs Hall)
      as (ys & Hys & Hlen' & Hall').
    { intros x Hx. by apply (IH sh' x n i). }
    exists (Arr ys). cbn. rewrite Hys. split; [done|].
    change (has_shape (m :: delete k sh') (Arr ys) = true).
    apply has_shape_cons; [congruence|done].
Qed.

Lemma with_cyclic_point_inner k (xs : list (nested A)) :
  with_cyclic_point (S k) (Arr xs) = Arr (with_cyclic_point k <$> xs).
Proof.
  unfold with_cyclic_point. cbn. f_equal.
  change (map (slice_first k) xs) with (slice_first k <$> xs).
  by rewrite zip_with_fmap_r, zip_with_diag.
Qed.

Lemma select_cyclic_lt axis : forall sh a n i,
  has_shape sh a = true -> sh !! axis = Some n -> (i < n)%nat ->
  select axis i (with_cyclic_point axis a) = select axis i a.
Proof.
  induction axis as [|k IH]; intros sh a n i Hsh Hn Hi.
  - destruct sh as [|m sh']; [done|]. injection Hn as ->.
    apply has_shape_cons_inv in Hsh as (xs & -> & Hlen & _).
    unfold with_cyclic_point. cbn. apply lookup_app_l. lia.
  - destruct sh as [|m sh']; [done|]. cbn in Hn.
    apply has_shape_cons_inv in Hsh as (xs & -> & _ & Hall).
    rewrite with_cyclic_point_inner. cbn. f_equal.
    apply mapM_ext_Forall. eapply Forall_impl; [exact Hall|].
    intros x Hx. by apply (IH sh' x n i).
Qed.

Lemma select_cyclic_last axis : forall sh a n,
  has_shape sh a = true -> sh !! axis = Some n -> (0 < n)%nat ->
  select axis n (with_cyclic_point axis a) = select axis 0 a.
Proof.
  induction axis as [|k IH]; intros sh a n Hsh Hn Hpos.
  - destruct sh as [|m sh']; [done|]. injection Hn as ->.
    apply has_shape_cons_inv in Hsh as (xs & -> & Hlen & _).
    unfold with_cyclic_point. cbn. rewrite lookup_app_r by lia.
    rewrite Hlen, Nat.sub_diag. destruct xs; [cbn in Hlen; lia|done].
  - destruct sh as [|m sh']; [done|]. cbn in Hn.
    apply has_shape_cons_inv in Hsh as (xs & -> & _ & Hall).
    rewrite with_cyclic_point_inner. cbn. f_equal.
    apply mapM_ext_Forall. eapply Forall_impl; [exact Hall|].
    intros x Hx. by apply (IH sh' x n).
Qed.

Lemma has_shape_cyclic axis : forall sh a n,
  has_shape sh a = true -> sh !! axis = Some n -> (0 < n)%nat ->
  has_shape (<[axis := S n]> sh) (with_cyclic_point axis a) = true.
Proof.
  induction axis as [|k IH]; intros sh a n Hsh Hn Hpos.
  - destruct sh as [|m sh']; [done|]. injection Hn as ->.
    apply has_shape_cons_inv in Hsh as (xs & -> & Hlen & Hall).
    unfold with_cyclic_point. cbn [slice_first join].
    change (has_shape (S n :: sh') (Arr (xs ++ take 1 xs)) = true).
    apply has_shape_cons.
    + rewrite length_app, length_take. lia.
    + apply Forall_app. split; [done|]. by apply Forall_take.
  - destruct sh as [|m sh']; [done|]. cbn in Hn.
    apply has_shape_cons_inv in Hsh as (xs & -> & Hlen & Hall).
    rewrite with_cyclic_point_inner.
    change (has_shape (m :: <[k := S n]> sh') (Arr (with_cyclic_point k <$> xs)) = true).
    apply has_shape_cons; [by rewrite length_fmap|].
    apply Forall_fmap. eapply Forall_impl; [exact Hall|].
    intros x Hx. by apply (IH sh' x n).
Qed.

End Shapes.

Lemma scalar_eqb_refl x : isnan x = false -> scalar_eqb x x = true.
Proof. destruct x; [|done]. intros _. cbn. apply Qeq_bool_iff. reflexivity. Qed.

Lemma map2_Arr {A B C} (f : A -> B -> C) xs ys :
  map2 f (Arr xs) (Arr ys) = Arr (zip_with (map2 f) xs ys).
Proof.
  cbn. f_equal.
Qed.

(** An array without NaN equals itself everywhere. *)
Lemma all_equal_self sh : forall b,
  has_shape sh b = true -> nan_free b = true ->
  all_cells (map2 scalar_eqb b b) = true.
Proof.
  induction sh as [|n sh IH]; intros b Hsh Hnan.
  - apply has_shape_nil_inv in Hsh as [x ->]. cbn in *.
    apply scalar_eqb_refl. by apply negb_true_iff.
  - apply has_shape_cons_inv in Hsh as (xs & -> & _ & Hall).
    rewrite map2_Arr, zip_with_diag. cbn in *.
    apply forallb_forall. intros y (x & <- & Hx)%in_map_iff.
    rewrite forallb_forall in Hnan. rewrite Forall_forall in Hall.
    apply IH; [by apply Hall, list_elem_of_In|by apply Hnan].
Qed.

(** ** Labelled arrays: indexing along a dimension *)

Lemma index_of_lookup x xs i : index_of x xs = Some i -> xs !! i = Some x.
Proof.
  revert i. induction xs as [|y ys IH]; intros i; [done|]. cbn.
  destruct (String.eqb x y) eqn:Heq.
  - intros [= <-]. by apply String.eqb_eq in Heq as ->.
  - destruct (index_of x ys) as [j|]; [|done]. intros [= <-]. by apply IH.
Qed.

Lemma py_index_lt n i j : py_index n i = Ok j -> (j < n)%nat.
Proof.
  unfold py_index. destruct (_ && _) eqn:H; [|done]. intros [= <-].
  apply andb_true_iff in H as [H1 H2]. lia.
Qed.

Lemma for_each_ext {X S} (f g : S -> X -> result S) l s :
  (forall acc x, x ∈ l -> f acc x = g acc x) -> for_each f l s = for_each g l s.
Proof.
  revert s. induction l as [|x l IH]; intros s H; [done|]. cbn.
  rewrite (H s x) by left. destruct (g s x); [|done]. cbn.
  apply IH. intros acc y Hy. apply H. by right.
Qed.

Lemma for_each_ok {X S} (f : S -> X -> result S) l s :
  (forall acc x, x ∈ l -> is_ok (f acc x) = true) -> is_ok (for_each f l s) = true.
Proof.
  revert s. induction l as [|x l IH]; intros s H; [done|]. cbn.
  pose proof (H s x (list_elem_of_here _ _)) as Hx. destruct (f s x); [|done]. cbn.
  apply IH. intros acc y Hy. apply H. by right.
Qed.

Lemma wf_DataArray_inv da :
  wf_DataArray da = true ->
  length (dims da) = ndim (values da)
  /\ well_shaped (values da) = true
  /\ forall name c, coords da !! name = Some c ->
       wf_Var c = true /\ coord_fits (dims da) (shape (values da)) c = true.
Proof.
  unfold wf_DataArray. intros [[H1 H2]%andb_true_iff H3]%andb_true_iff.
  split; [by apply Nat.eqb_eq|]. split; [done|].
  intros name c Hc. rewrite forallb_forall in H3.
  specialize (H3 (name, c)). cbn in H3. apply andb_true_iff, H3.
  by apply list_elem_of_In, elem_of_map_to_list.
Qed.

(** A coordinate has, along a dimension it shares with the array, the
    length the array has. *)
Lemma coord_axis_length ds sh c d a k n :
  wf_Var c = true -> coord_fits ds sh c = true ->
  index_of d (v_dims c) = Some a -> index_of d ds = Some k -> sh !! k = Some n ->
  shape (v_data c) !! a = Some n.
Proof.
  unfold wf_Var, coord_fits, ndim.
  intros [Hlen _]%andb_true_iff [_ Hfit]%andb_true_iff Ha Hk Hn.
  apply Nat.eqb_eq in Hlen. apply index_of_lookup in Ha.
  destruct (lookup_lt_is_Some_2 (shape (v_data c)) a) as [m Hm].
  { rewrite <- Hlen. by eapply lookup_lt_Some. }
  rewrite forallb_forall in Hfit. specialize (Hfit (d, m)).
  unfold dim_fits in Hfit. cbn in Hfit. rewrite Hk in Hfit.
  rewrite Hm. apply bool_decide_eq_true in Hfit; [congruence|].
  apply list_elem_of_In. eapply list_elem_of_lookup_2.
  apply lookup_zip_with_Some. eauto.
Qed.

Section Isel.
Variable da : DataArray.
Variable d : string.
Variables k n : nat.
Hypothesis Hwf : wf_DataArray da = true.
Hypothesis Hk : index_of d (dims da) = Some k.
Hypothesis Hn : shape (values da) !! k = Some n.

Lemma isel_variable_same name c i i' :
  coords da !! name = Some c -> py_index n i = py_index n i' ->
  isel_variable d i c = isel_variable d i' c.
Proof.
  intros Hc Hpy. destruct (wf_DataArray_inv da Hwf) as (_ & _ & Hcs).
  destruct (Hcs name c Hc) as [Hwfc Hfit].
  unfold isel_variable, take_index.
  destruct (index_of d (v_dims c)) as [a|] eqn:Ha; [|done].
  by rewrite (coord_axis_length _ _ _ _ _ _ _ Hwfc Hfit Ha Hk Hn), Hpy.
Qed.

Lemma isel_variable_ok name c i j :
  coords da !! name = Some c -> py_index n i = Ok j ->
  is_ok (isel_variable d i c) = true.
Proof.
  intros Hc Hpy. destruct (wf_DataArray_inv da Hwf) as (_ & _ & Hcs).
  destruct (Hcs name c Hc) as [Hwfc Hfit].
  unfold isel_variable, take_index.
  destruct (index_of d (v_dims c)) as [a|] eqn:Ha; [|done].
  pose proof (coord_axis_length _ _ _ _ _ _ _ Hwfc Hfit Ha Hk Hn) as Hlen.
  rewrite Hlen, Hpy. cbn.
  apply andb_true_iff in Hwfc as [_ Hshape].
  destruct (select_ok a _ _ n j Hshape Hlen (py_index_lt _ _ _ Hpy)) as (b & -> & _).
  done.
Qed.

Lemma isel_same i i' :
  py_index n i = py_index n i' -> isel da d i = isel da d i'.
Proof.
  intros Hpy.
  assert (Hcs : isel_coords d i (coords da) = isel_coords d i' (coords da)).
  { apply for_each_ext. intros acc [name c] Hin%elem_of_map_to_list. cbn.
    by rewrite (isel_variable_same name c i i'). }
  unfold isel, take_index. by rewrite Hk, Hn, Hpy, Hcs.
Qed.

Lemma isel_ok i j :
  py_index n i = Ok j ->
  exists col cs,
    select k j (items (values da)) = Some col
    /\ has_shape (delete k (shape (values da))) col = true
    /\ isel da d i
       = Ok (mk_DataArray (delete k (dims da))
               (mk_ndarray (delete k (shape (values da))) col) cs (attrs da) (name da)).
Proof.
  intros Hpy. destruct (wf_DataArray_inv da Hwf) as (_ & Hshape & _).
  destruct (select_ok k _ _ n j Hshape Hn (py_index_lt _ _ _ Hpy)) as (col & Hcol & Hsh).
  assert (Hcs : is_ok (isel_coords d i (coords da)) = true).
  { apply for_each_ok. intros acc [name c] Hin%elem_of_map_to_list. cbn.
    pose proof (isel_variable_ok name c i j Hin Hpy) as Hc.
    by destruct (isel_variable d i c). }
  destruct (isel_coords d i (coords da)) as [cs|] eqn:Hfor.
  - exists col, cs. split; [done|]. split; [done|].
    unfold isel, take_index. rewrite Hk, Hn, Hpy. cbn. rewrite Hcol. cbn.
    by rewrite Hfor.
  - done.
Qed.

End Isel.

(** ** The cyclic-point corrector on short longitude axes *)

Lemma already_cyclic_unchanged da :
  check_cyclic da "lon" = Ok true -> correct_cyclic da = Ok da.
Proof. unfold correct_cyclic. by intros ->. Qed.

Lemma not_cyclic_corrected da :
  check_cyclic da "lon" = Ok false -> correct_cyclic da = cyclic_dataarray da "lon".
Proof. unfold correct_cyclic. by intros ->. Qed.

(** C3, amended. Nothing checks the length of the longitude axis. With no
    longitude at all the correction fails with the [IndexError] of the
    first selection; with a single longitude the check compares the
    column with itself, and a column without NaN passes: the slice comes
    back unchanged and no error is raised. *)
Theorem short_longitude_axis da k n :
  index_of "lon" (dims da) = Some k ->
  shape (values da) !! k = Some n ->
  (n < 2)%nat ->
  (n = 0%nat -> correct_cyclic da = Raise IndexError)
  /\ (n = 1%nat -> wf_DataArray da = true ->
      (forall col, select k 0 (items (values da)) = Some col -> nan_free col = true) ->
      correct_cyclic da = Ok da).
Proof.
  intros Hk Hn Hlt. split.
  - intros ->. unfold correct_cyclic, check_cyclic, isel, take_index.
    by rewrite Hk, Hn.
  - intros -> Hwf Hnan. apply already_cyclic_unchanged. unfold check_cyclic.
    rewrite (isel_same da "lon" k 1 Hwf Hk Hn (-1) 0) by done.
    destruct (isel_ok da "lon" k 1 Hwf Hk Hn 0 0%nat eq_refl)
      as (col & cs & Hcol & Hsh & ->).
    cbn. unfold equal. cbn. rewrite bool_decide_eq_true_2 by done.
    unfold all. cbn. f_equal.
    eapply all_equal_self; [exact Hsh|by apply Hnan].
Qed.

Lemma short_longitude_axis_witness :
  correct_cyclic no_column = Raise IndexError
  /\ correct_cyclic single_column = Ok single_column.
Proof.
  split.
  - apply (short_longitude_axis no_column 1 0); [reflexivity|reflexivity|lia|reflexivity].
  - apply (short_longitude_axis single_column 1 1);
      [reflexivity|reflexivity|lia|reflexivity|vm_compute; reflexivity|].
    intros col Hcol. vm_compute in Hcol. injection Hcol as <-. reflexivity.
Defined.

(** C3, as stated, fails: a slice with a single longitude goes through
    the correction without any error. *)
Lemma single_longitude_is_accepted :
  length (lon_values single_column) = 1%nat
  /\ correct_cyclic single_column = Ok single_column.
Proof. split; vm_compute; reflexivity. Qed.

(** ** The cyclic-point corrector on a slice that is not cyclic *)

Lemma cells1_array1 {A} (xs : list A) : cells1 (Arr (Item <$> xs)) = xs.
Proof. cbn. induction xs as [|x xs IH]; [done|]. cbn. by rewrite IH. Qed.

Lemma cells1_length {A} (a : nested A) n :
  has_shape [n] a = true -> length (cells1 a) = n.
Proof.
  intros (xs & -> & <- & Hall)%has_shape_cons_inv. cbn.
  induction Hall as [|x xs Hx _ IH]; [done|].
  apply has_shape_nil_inv in Hx as [v ->]. cbn. by rewrite IH.
Qed.

Lemma list_delete_insert {A} (l : list A) k x : delete k (<[k := x]> l) = delete k l.
Proof.
  revert k. induction l as [|y l IH]; intros [|k]; cbn; try done. by rewrite IH.
Qed.

Lemma foldl_insert_union {V} (l : list (string * V)) : NoDup l.*1 -> forall m : gmap string V,
  foldl (fun acc kv => <[kv.1 := kv.2]> acc) m l = list_to_map l ∪ m.
Proof.
  induction l as [|[k v] l IH]; intros Hnd m.
  { cbn. by rewrite (left_id_L ∅ (∪)). }
  rewrite fmap_cons in Hnd. apply NoDup_cons in Hnd as [Hk Hnd].
  cbn [foldl]. rewrite IH by done. rewrite list_to_map_cons.
  rewrite <- insert_union_l. symmetry. apply insert_union_r.
  by apply not_elem_of_list_to_map_1.
Qed.

Lemma copy_items_union {V} (src dst : gmap string V) : copy_items src dst = src ∪ dst.
Proof.
  unfold copy_items. rewrite foldl_insert_union by apply NoDup_fst_map_to_list.
  by rewrite list_to_map_to_list.
Qed.

(** What the loop over the coordinates of [da] leaves in the coordinates
    of [new_da]. *)
Lemma foldl_copy_coord_attrs (l : list (string * Var)) : NoDup l.*1 ->
  forall (m : gmap string Var) key,
  foldl copy_coord_attrs m l !! key
  = match (list_to_map l : gmap string Var) !! key with
    | Some c0 => (fun nc => mk_Var (v_dims nc) (v_data nc)
                              (copy_items (v_attrs c0) (v_attrs nc))) <$> m !! key
    | None => m !! key
    end.
Proof.
  induction l as [|[k c] l IH]; intros Hnd m key; [done|].
  rewrite fmap_cons in Hnd. apply NoDup_cons in Hnd as [Hk Hnd].
  cbn [foldl]. rewrite IH by done. rewrite list_to_map_cons.
  unfold copy_coord_attrs. cbn [fst snd].
  destruct (decide (k = key)) as [->|Hne].
  - rewrite lookup_insert_eq, lookup_alter_eq.
    by rewrite (not_elem_of_list_to_map_1 _ _ Hk).
  - by rewrite lookup_insert_ne, lookup_alter_ne.
Qed.

Lemma coord_fits_insert ds sh c k m :
  coord_fits ds sh c = true ->
  (forall d, d ∈ v_dims c -> index_of d ds <> Some k) ->
  coord_fits ds (<[k := m]> sh) c = true.
Proof.
  unfold coord_fits. intros [H1 H2]%andb_true_iff Hk.
  apply andb_true_iff. split; [done|].
  rewrite forallb_forall in *. intros [d n] Hin. specialize (H2 _ Hin).
  apply list_elem_of_In, elem_of_zip_l in Hin. cbn in *.
  unfold dim_fits in *. specialize (Hk d Hin).
  destruct (index_of d ds) as [k'|]; [|done].
  apply bool_decide_eq_true in H2. apply bool_decide_eq_true.
  rewrite list_lookup_insert_ne; [done|congruence].
Qed.

Lemma add_cyclic_point_spec data c k n c0 c1 rest cn :
  ndim (v_data c) = 1%nat ->
  shape data !! k = Some n ->
  cells1 (items (v_data c)) = c0 :: c1 :: rest ->
  length (c0 :: c1 :: rest) = n ->
  last (c0 :: c1 :: rest) = Some cn ->
  allclose (diff (c0 :: c1 :: rest)) (sub c1 c0) = true ->
  add_cyclic_point data c k
  = Ok (mk_ndarray (<[k := S n]> (shape data)) (with_cyclic_point k (items data)),
        (c0 :: c1 :: rest) ++ [add cn (sub c1 c0)]).
Proof.
  intros Hnd Hn Hcs Hlen Hlast Hclose. unfold add_cyclic_point.
  rewrite Hnd, Hn, Hcs, Hlen, !Nat.eqb_refl. cbn [negb].
  change (diff (c0 :: c1 :: rest)) with (sub c1 c0 :: diff (c1 :: rest)) in *.
  cbv zeta. lazy iota beta. rewrite Hclose. cbn [negb].
  assert (Hk : (k < length (shape data))%nat) by (by eapply lookup_lt_Some).
  assert (Hmin : Nat.min 1 n = 1%nat) by (cbn in Hlen; lia).
  rewrite Hmin. unfold concatenate. cbn [shape items].
  rewrite Hn, list_lookup_insert_eq by done.
  unfold same_off_axis. rewrite list_delete_insert, bool_decide_eq_true_2 by done.
  rewrite Nat.add_1_r. cbn [mbind result_bind bind]. unfold with_cyclic_point.
  do 3 f_equal.
  apply last_Some in Hlast as [l' Hl']. rewrite <- Hlen, Hl'.
  rewrite length_app, Nat.add_sub. by rewrite drop_app_length.
Qed.

(** What [cyclic_dataarray] returns on a well-formed slice whose index
    coordinate [lon] has at least two equally spaced values and is the
    only coordinate on the dimension [lon]. *)
Lemma cyclic_dataarray_appends da k n c c0 c1 rest :
  wf_DataArray da = true ->
  index_of "lon" (dims da) = Some k ->
  shape (values da) !! k = Some n ->
  coords da !! "lon" = Some c ->
  v_dims c = ["lon"] ->
  (forall key c', coords da !! key = Some c' -> key <> "lon" -> "lon" ∉ v_dims c') ->
  lon_values da = c0 :: c1 :: rest ->
  allclose (diff (c0 :: c1 :: rest)) (sub c1 c0) = true ->
  exists da' cn,
    cyclic_dataarray da "lon" = Ok da'
    /\ dims da' = dims da
    /\ shape (values da') = <[k := S n]> (shape (values da))
    /\ wf_DataArray da' = true
    /\ last (lon_values da) = Some cn
    /\ lon_values da' = lon_values da ++ [add cn (sub c1 c0)]
    /\ select k n (items (values da')) = select k 0 (items (values da))
    /\ (forall i, (i < n)%nat ->
          select k i (items (values da')) = select k i (items (values da)))
    /\ (forall key, key <> "lon" -> coords da' !! key = coords da !! key)
    /\ v_attrs <$> coords da' !! "lon" = Some (v_attrs c)
    /\ attrs da' = attrs da.
Proof.
  intros Hwf Hk Hn Hc Hcd Hother Hlon Hclose.
  destruct (wf_DataArray_inv da Hwf) as (Hdims & Hshape & Hcs).
  destruct (Hcs "lon" c Hc) as [Hwfc Hfit].
  assert (Hcn : shape (v_data c) !! 0%nat = Some n).
  { eapply coord_axis_length; [exact Hwfc|exact Hfit| |exact Hk|exact Hn].
    by rewrite Hcd. }
  pose proof Hwfc as [Hclen Hcshape]%andb_true_iff. apply Nat.eqb_eq in Hclen.
  rewrite Hcd in Hclen. unfold ndim in Hclen.
  assert (Hsh1 : shape (v_data c) = [n]).
  { destruct (shape (v_data c)) as [|m [|? ?]]; try done. by injection Hcn as ->. }
  unfold lon_values in Hlon. rewrite Hc in Hlon.
  assert (Hlen : length (c0 :: c1 :: rest) = n).
  { rewrite <- Hlon. apply cells1_length. unfold well_shaped in Hcshape.
    by rewrite Hsh1 in Hcshape. }
  assert (Hpos : (0 < n)%nat) by (cbn in Hlen; lia).
  destruct (last (c0 :: c1 :: rest)) as [cn|] eqn:Hlast;
    [|by apply last_None in Hlast].
  assert (Hadd : add_cyclic_point (values da) c k
                 = Ok (mk_ndarray (<[k := S n]> (shape (values da)))
                                  (with_cyclic_point k (items (values da))),
                       (c0 :: c1 :: rest) ++ [add cn (sub c1 c0)])).
  { apply add_cyclic_point_spec; try done. }
  assert (Hkl : (k < length (shape (values da)))%nat) by (by eapply lookup_lt_Some).
  set (new_values := mk_ndarray (<[k := S n]> (shape (values da)))
                                (with_cyclic_point k (items (values da)))).
  set (new_lon := (c0 :: c1 :: rest) ++ [add cn (sub c1 c0)]).
  set (new_coords := <["lon" := index_variable "lon" new_lon]> (coords da)).
  assert (Hnew : new_DataArray new_values (dims da) new_coords
                 = Ok (mk_DataArray (dims da) new_values new_coords ∅ None)).
  { unfold new_DataArray. unfold ndim at 1. cbn [shape new_values].
    rewrite length_insert. unfold ndim in Hdims. rewrite Hdims, Nat.eqb_refl. cbn [negb].
    rewrite (proj2 (forallb_forall _ _)); [done|].
    intros [key c'] Hin%list_elem_of_In%elem_of_map_to_list. cbn.
    unfold new_coords in Hin. destruct (decide (key = "lon")) as [->|Hne].
    - rewrite lookup_insert_eq in Hin. injection Hin as <-.
      unfold coord_fits, index_variable, array1, ndim, dim_fits. cbn.
      rewrite Hk, list_lookup_insert_eq by done.
      rewrite bool_decide_eq_true_2; [done|].
      rewrite length_app. cbn in *. f_equal. lia.
    - rewrite lookup_insert_ne in Hin by done.
      destruct (Hcs key c' Hin) as [_ Hfit'].
      apply coord_fits_insert; [done|]. intros d Hd Hdk.
      apply index_of_lookup in Hdk. apply index_of_lookup in Hk.
      assert (d = "lon") as -> by congruence. by apply (Hother key c' Hin). }
  set (new_coords' := foldl copy_coord_attrs new_coords (map_to_list (coords da))).
  assert (Hlookup : forall key, new_coords' !! key
            = match coords da !! key with
              | Some c0 => (fun nc => mk_Var (v_dims nc) (v_data nc)
                                        (copy_items (v_attrs c0) (v_attrs nc)))
                           <$> new_coords !! key
              | None => new_coords !! key
              end).
  { intros key. unfold new_coords'.
    rewrite foldl_copy_coord_attrs by apply NoDup_fst_map_to_list.
    by rewrite list_to_map_to_list. }
  exists (mk_DataArray (dims da) new_values new_coords'
            (copy_items (attrs da) ∅) None), cn.
  split.
  { unfold cyclic_dataarray.
    rewrite Hk, Hc, Hadd. cbn [mbind result_bind bind].
    fold new_lon new_values new_coords. by rewrite Hnew. }
  cbn [dims values coords attrs shape items new_values].
  split; [done|]. split; [done|].
  split.
  { unfold wf_DataArray, ndim, well_shaped.
    cbn [dims values coords shape items new_values]. rewrite length_insert.
    unfold ndim in Hdims. rewrite Hdims, Nat.eqb_refl.
    rewrite (has_shape_cyclic k _ _ n) by done. cbn [andb].
    apply forallb_forall.
    intros [key c''] Hin%list_elem_of_In%elem_of_map_to_list. cbn [snd].
    rewrite Hlookup in Hin.
    assert (Hnc : exists nc, new_coords !! key = Some nc
                             /\ v_dims c'' = v_dims nc /\ v_data c'' = v_data nc).
    { destruct (coords da !! key) as [c3|]; [|by eauto].
      destruct (new_coords !! key) as [nc|]; [|done].
      injection Hin as <-. eauto. }
    destruct Hnc as (nc & Hnc & Hd & Hv).
    unfold wf_Var, coord_fits. rewrite Hd, Hv.
    change (wf_Var nc && coord_fits (dims da) (<[k := S n]> (shape (values da))) nc = true).
    revert Hnc. unfold new_coords. destruct (decide (key = "lon")) as [->|Hne].
    - rewrite lookup_insert_eq. intros [= <-].
      unfold wf_Var, coord_fits, index_variable, array1, ndim, dim_fits, well_shaped.
      cbn [v_dims v_data shape items length zip zip_with forallb fst snd].
      rewrite Hk, list_lookup_insert_eq by done.
      rewrite (has_shape_cons (length new_lon) []); [|by rewrite length_fmap|].
      2:{ apply Forall_fmap, Forall_forall. by intros. }
      rewrite bool_decide_eq_true_2; [done|].
      unfold new_lon. rewrite length_app. cbn in *. f_equal. lia.
    - rewrite lookup_insert_ne by done. intros Hin'.
      destruct (Hcs key nc Hin') as [-> Hfit']. cbn [andb].
      apply coord_fits_insert; [done|]. intros d Hd' Hdk.
      apply index_of_lookup in Hdk. pose proof (index_of_lookup _ _ _ Hk).
      assert (d = "lon") as -> by congruence. by apply (Hother key nc Hin'). }
  unfold lon_values. cbn [coords]. rewrite Hc, Hlon. split; [done|].
  split.
  { rewrite Hlookup, Hc. unfold new_coords. rewrite lookup_insert_eq.
    unfold index_variable, array1. cbn [fmap option_fmap option_map v_data items].
    by rewrite cells1_array1. }
  split; [by apply (select_cyclic_last k (shape (values da)) _ n)|].
  split; [intros i Hi; by apply (select_cyclic_lt k (shape (values da)) _ n)|].
  split.
  { intros key Hne. rewrite Hlookup. unfold new_coords.
    rewrite lookup_insert_ne by done.
    destruct (coords da !! key) as [[ds data at_]|] eqn:Hkey; [|done]. cbn.
    rewrite copy_items_union. by rewrite (idemp_L (∪)). }
  split.
  { rewrite Hlookup, Hc. unfold new_coords. rewrite lookup_insert_eq. cbn.
    rewrite copy_items_union. by rewrite (right_id_L ∅ (∪)). }
  rewrite copy_items_union. by rewrite (right_id_L ∅ (∪)).
Qed.

(** C2, amended. For a well-formed slice that is not cyclic, with an index
    coordinate [lon] of at least two values that are equally spaced up to
    the tolerance of [np.allclose], and no other coordinate on the
    dimension [lon], the correction returns: the longitude axis has one
    more sample, the new coordinate value is the last one plus the first
    spacing (not the first one plus 360), the new data along it is the
    data at the first longitude, the samples that were there stay, and
    the other coordinates and all attributes are those of the slice. *)
Theorem cyclic_point_appended da k n c c0 c1 rest :
  wf_DataArray da = true ->
  index_of "lon" (dims da) = Some k ->
  shape (values da) !! k = Some n ->
  coords da !! "lon" = Some c ->
  v_dims c = ["lon"] ->
  (forall key c', coords da !! key = Some c' -> key <> "lon" -> "lon" ∉ v_dims c') ->
  lon_values da = c0 :: c1 :: rest ->
  allclose (diff (c0 :: c1 :: rest)) (sub c1 c0) = true ->
  check_cyclic da "lon" = Ok false ->
  exists da' cn,
    correct_cyclic da = Ok da'
    /\ dims da' = dims da
    /\ shape (values da') = <[k := S n]> (shape (values da))
    /\ wf_DataArray da' = true
    /\ last (lon_values da) = Some cn
    /\ lon_values da' = lon_values da ++ [add cn (sub c1 c0)]
    /\ select k n (items (values da')) = select k 0 (items (values da))
    /\ (forall i, (i < n)%nat ->
          select k i (items (values da')) = select k i (items (values da)))
    /\ (forall key, key <> "lon" -> coords da' !! key = coords da !! key)
    /\ v_attrs <$> coords da' !! "lon" = Some (v_attrs c)
    /\ attrs da' = attrs da.
Proof.
  intros Hwf Hk Hn Hc Hcd Hother Hlon Hclose Hcheck.
  rewrite (not_cyclic_corrected da Hcheck).
  by apply (cyclic_dataarray_appends da k n c c0 c1 rest).
Qed.

Lemma cyclic_point_appended_witness :
  exists da' cn,
    correct_cyclic global_slice = Ok da'
    /\ shape (values da') = [1%nat; 5%nat]
    /\ last (lon_values global_slice) = Some cn
    /\ lon_values da' = lon_values global_slice ++ [add cn (sub (Num 90) (Num 0))].
Proof.
  destruct (cyclic_point_appended global_slice 1 4 (lon_var [0; 90; 180; 270])
              (Num 0) (Num 90) (nums [180; 270]))
    as (da' & cn & H1 & _ & H2 & _ & H3 & H4 & _).
  - vm_compute. reflexivity.
  - reflexivity.
  - reflexivity.
  - vm_compute. reflexivity.
  - reflexivity.
  - intros key c' Hkey Hne. unfold global_slice, one_row in Hkey. cbn [coords] in Hkey.
    apply lookup_insert_Some in Hkey as [[<- <-]|[_ Hkey]].
    + compute_done.
    + apply lookup_singleton_Some in Hkey as [<- _]. done.
  - vm_compute. reflexivity.
  - vm_compute. reflexivity.
  - vm_compute. reflexivity.
  - exists da', cn. repeat split; [exact H1|exact H2|exact H3|exact H4].
Defined.

(** C2, as stated, fails: on a regional grid at 0, 10 and 20 degrees the
    appended coordinate is 30, which is not 0 + 360. *)
Lemma regional_grid_not_plus_360 :
  exists da' c0 cn,
    check_cyclic regional_slice "lon" = Ok false
    /\ correct_cyclic regional_slice = Ok da'
    /\ head (lon_values regional_slice) = Some c0
    /\ last (lon_values da') = Some cn
    /\ scalar_eqb cn (Num 30) = true
    /\ scalar_eqb cn (add c0 (Num 360)) = false.
Proof.
  exists (match correct_cyclic regional_slice with
          | Ok da' => da'
          | Raise _ => regional_slice
          end), (Num 0), (Num (20 + (10 - 0))).
  repeat split; vm_compute; reflexivity.
Qed.

(** ** Applying the correction twice *)

(** An array compared with itself is true everywhere exactly when it holds
    no NaN. *)
Lemma self_equal_nan_free sh : forall b,
  has_shape sh b = true -> all_cells (map2 scalar_eqb b b) = nan_free b.
Proof.
  induction sh as [|n sh IH]; intros b Hsh.
  - apply has_shape_nil_inv in Hsh as [x ->]. cbn.
    destruct x as [q|]; [|done]. cbn. apply Qeq_bool_iff. reflexivity.
  - apply has_shape_cons_inv in Hsh as (xs & -> & _ & Hall).
    rewrite map2_Arr, zip_with_diag. cbn [all_cells nan_free]. clear n.
    induction Hall as [|x xs Hx _ IHxs]; [done|].
    rewrite fmap_cons. cbn [forallb]. by rewrite IH, IHxs.
Qed.

Lemma py_index_first n : py_index (S n) 0 = Ok 0%nat.
Proof.
  unfold py_index. cbn [Z.ltb Z.compare Z.leb andb].
  by rewrite (proj2 (Z.ltb_lt _ _)) by lia.
Qed.

Lemma py_index_last n : py_index (S n) (-1) = Ok n.
Proof.
  unfold py_index. cbn [Z.ltb Z.compare].
  replace (-1 + Z.of_nat (S n)) with (Z.of_nat n) by lia.
  rewrite (proj2 (Z.leb_le _ _)), (proj2 (Z.ltb_lt _ _)) by lia.
  cbn. by rewrite Nat2Z.id.
Qed.

(** When the first and the last longitude of a slice hold the same column,
    the check answers whether that column is free of NaN. *)
Lemma same_column_check da k n col :
  wf_DataArray da = true ->
  index_of "lon" (dims da) = Some k ->
  shape (values da) !! k = Some (S n) ->
  select k 0 (items (values da)) = Some col ->
  select k n (items (values da)) = Some col ->
  check_cyclic da "lon" = Ok (nan_free col).
Proof.
  intros Hwf Hk Hn H0 Hlast. unfold check_cyclic.
  destruct (isel_ok da "lon" k (S n) Hwf Hk Hn 0 0%nat (py_index_first n))
    as (col0 & cs0 & Hcol0 & Hsh0 & ->).
  destruct (isel_ok da "lon" k (S n) Hwf Hk Hn (-1) n (py_index_last n))
    as (col1 & cs1 & Hcol1 & Hsh1 & ->).
  assert (col0 = col) as -> by congruence. assert (col1 = col) as -> by congruence.
  cbn. unfold equal. cbn. rewrite bool_decide_eq_true_2 by done.
  unfold all. cbn. f_equal. by eapply self_equal_nan_free.
Qed.

Lemma lon_axis_length da k n c :
  wf_DataArray da = true ->
  index_of "lon" (dims da) = Some k ->
  shape (values da) !! k = Some n ->
  coords da !! "lon" = Some c ->
  v_dims c = ["lon"] ->
  length (lon_values da) = n.
Proof.
  intros Hwf Hk Hn Hc Hcd.
  destruct (wf_DataArray_inv da Hwf) as (_ & _ & Hcs).
  destruct (Hcs "lon" c Hc) as [Hwfc Hfit].
  assert (Hcn : shape (v_data c) !! 0%nat = Some n).
  { eapply coord_axis_length; [exact Hwfc|exact Hfit| |exact Hk|exact Hn].
    by rewrite Hcd. }
  pose proof Hwfc as [Hclen Hcshape]%andb_true_iff. apply Nat.eqb_eq in Hclen.
  rewrite Hcd in Hclen. unfold ndim in Hclen.
  assert (Hsh1 : shape (v_data c) = [n]).
  { destruct (shape (v_data c)) as [|m [|? ?]]; try done. by injection Hcn as ->. }
  unfold lon_values. rewrite Hc. apply cells1_length.
  unfold well_shaped in Hcshape. by rewrite Hsh1 in Hcshape.
Qed.

(** C1. The corrected slice ends with a copy of its first longitude, yet
    the check on it answers true only when that column holds no NaN: a
    missing value compares unequal to itself, so the second application
    does not detect cyclicity and appends again. *)
Theorem second_correction_needs_no_nan da k n c c0 c1 rest col :
  wf_DataArray da = true ->
  index_of "lon" (dims da) = Some k ->
  shape (values da) !! k = Some n ->
  coords da !! "lon" = Some c ->
  v_dims c = ["lon"] ->
  (forall key c', coords da !! key = Some c' -> key <> "lon" -> "lon" ∉ v_dims c') ->
  lon_values da = c0 :: c1 :: rest ->
  allclose (diff (c0 :: c1 :: rest)) (sub c1 c0) = true ->
  check_cyclic da "lon" = Ok false ->
  select k 0 (items (values da)) = Some col ->
  exists da',
    correct_cyclic da = Ok da'
    /\ select k 0 (items (values da')) = Some col
    /\ select k n (items (values da')) = Some col
    /\ check_cyclic da' "lon" = Ok (nan_free col)
    /\ (nan_free col = true -> correct_cyclic da' = Ok da')
    /\ (nan_free col = false -> correct_cyclic da' = cyclic_dataarray da' "lon").
Proof.
  intros Hwf Hk Hn Hc Hcd Hother Hlon Hclose Hcheck Hcol.
  pose proof (lon_axis_length da k n c Hwf Hk Hn Hc Hcd) as Hlen.
  rewrite Hlon in Hlen. cbn in Hlen.
  destruct (cyclic_dataarray_appends da k n c c0 c1 rest Hwf Hk Hn Hc Hcd Hother
              Hlon Hclose)
    as (da' & cn & H1 & Hd & Hs & Hwf' & _ & _ & Hl & Hi & _).
  rewrite <- (not_cyclic_corrected da Hcheck) in H1.
  assert (H0 : select k 0 (items (values da')) = Some col).
  { rewrite Hi by lia. done. }
  assert (Hn' : select k n (items (values da')) = Some col) by (by rewrite Hl).
  assert (Hc' : check_cyclic da' "lon" = Ok (nan_free col)).
  { apply (same_column_check da' k n col); try done.
    - by rewrite Hd.
    - rewrite Hs. apply list_lookup_insert_eq. by eapply lookup_lt_Some. }
  exists da'. repeat split; try done.
  - intros Hnan. apply already_cyclic_unchanged. by rewrite Hc', Hnan.
  - intros Hnan. apply not_cyclic_corrected. by rewrite Hc', Hnan.
Qed.

Lemma second_correction_needs_no_nan_witness :
  exists da',
    correct_cyclic nan_slice = Ok da'
    /\ select 1 0 (items (values da')) = Some (Arr [Item NaN])
    /\ select 1 2 (items (values da')) = Some (Arr [Item NaN])
    /\ check_cyclic da' "lon" = Ok false.
Proof.
  destruct (second_correction_needs_no_nan nan_slice 1 2 (lon_var [0; 180])
              (Num 0) (Num 180) [] (Arr [Item NaN]))
    as (da' & H1 & H2 & H3 & H4 & _).
  - vm_compute. reflexivity.
  - reflexivity.
  - reflexivity.
  - vm_compute. reflexivity.
  - reflexivity.
  - intros key c' Hkey Hne. unfold nan_slice, one_row in Hkey. cbn [coords] in Hkey.
    apply lookup_insert_Some in Hkey as [[<- <-]|[_ Hkey]].
    + compute_done.
    + apply lookup_singleton_Some in Hkey as [<- _]. done.
  - vm_compute. reflexivity.
  - vm_compute. reflexivity.
  - vm_compute. reflexivity.
  - vm_compute. reflexivity.
  - exists da'. repeat split; [exact H1|exact H2|exact H3|exact H4].
Defined.

(** The slice with a missing value at its first longitude grows at every
    application: two longitudes, then three, then four. *)
Lemma nan_slice_corrected_twice :
  exists once twice,
    correct_cyclic nan_slice = Ok once
    /\ correct_cyclic once = Ok twice
    /\ shape (values nan_slice) = [1%nat; 2%nat]
    /\ shape (values once) = [1%nat; 3%nat]
    /\ shape (values twice) = [1%nat; 4%nat]
    /\ lon_values once = nums [0; 180; 360]
    /\ lon_values twice = nums [0; 180; 360; 540]
    /\ cells1 <$> select 0 0 (items (values twice))
       = Some [NaN; Num 1; NaN; NaN].
Proof.
  pose (once := match correct_cyclic nan_slice with
                | Ok da' => da' | Raise _ => nan_slice end).
  pose (twice := match correct_cyclic once with
                 | Ok da' => da' | Raise _ => nan_slice end).
  exists once, twice.
  repeat split; vm_compute; reflexivity.
Qed.

(* ===================================================================== *)
(** * Further properties of the two files *)
(* ===================================================================== *)

Import Views Scenarios.

(** ** File names *)

Lemma append_String a (s t : string) : String a s +:+ t = String a (s +:+ t).
Proof. done. Qed.

Lemma append_empty_r (s : string) : s +:+ "" = s.
Proof. induction s as [|a s IH]; [done|]. by rewrite append_String, IH. Qed.

Lemma string_take_drop n s : string_take n s +:+ string_drop n s = s.
Proof.
  revert s. induction n as [|n IH]; intros [|a s]; try done.
  cbn [string_take string_drop]. by rewrite append_String, IH.
Qed.

Lemma append_length (a b : string) :
  String.length (a +:+ b) = (String.length a + String.length b)%nat.
Proof.
  induction a as [|x a IH]; [done|]. rewrite append_String. cbn. by rewrite IH.
Qed.

(** Two strings that end in suffixes of one length agree part by part. *)
Lemma append_inj_length (a b s t : string) :
  String.length s = String.length t -> a +:+ s = b +:+ t -> a = b /\ s = t.
Proof.
  revert b. induction a as [|x a IH]; intros [|y b] Hlen Heq.
  - done.
  - apply (f_equal String.length) in Heq. rewrite !append_length in Heq.
    cbn in Heq. lia.
  - apply (f_equal String.length) in Heq. rewrite !append_length in Heq.
    cbn in Heq. lia.
  - rewrite !append_String in Heq. injection Heq as -> Heq.
    destruct (IH b Hlen Heq) as [-> ->]. done.
Qed.

Lemma append_inj_prefix (a b s t : string) :
  String.length a = String.length b -> a +:+ s = b +:+ t -> a = b /\ s = t.
Proof.
  revert b. induction a as [|x a IH]; intros [|y b] Hlen Heq; try done.
  rewrite !append_String in Heq. injection Heq as -> Heq.
  destruct (IH b) as [-> ->]; [by injection Hlen|done|done].
Qed.

(** [os.path.splitext] cuts the path in two and loses nothing. *)
Lemma splitext_round_trip p : (splitext p).1 +:+ (splitext p).2 = p.
Proof.
  unfold splitext. destruct (_ && _); cbn [fst snd].
  - apply string_take_drop.
  - apply append_empty_r.
Qed.

Lemma rfind_from_cases c s : forall pos found,
  (rfind_from c s pos found = found
   /\ string_exists (fun a => Ascii.eqb a c) s = false)
  \/ exists i,
       rfind_from c s pos found = pos + Z.of_nat i
       /\ string_drop i s = String c (string_drop (S i) s)
       /\ string_exists (fun a => Ascii.eqb a c) (string_drop (S i) s) = false.
Proof.
  induction s as [|a s IH]; intros pos found; [by left|].
  cbn [rfind_from string_exists].
  destruct (IH (pos + 1) (if Ascii.eqb a c then pos else found))
    as [[Hr Hno]|(i & Hr & Hdrop & Hno)].
  - destruct (Ascii.eqb a c) eqn:Hac.
    + right. exists 0%nat. apply Ascii.eqb_eq in Hac as ->.
      cbn [string_drop]. split; [lia|done].
    + left. by rewrite Hno.
  - right. exists (S i). cbn [string_drop]. split; [lia|done].
Qed.

Lemma string_drop_exists f n s :
  string_exists f s = false -> string_exists f (string_drop n s) = false.
Proof.
  revert s. induction n as [|n IH]; intros [|a s]; try done.
  cbn. intros [_ H]%orb_false_iff. by apply IH.
Qed.

Lemma string_drop_add n m s :
  string_drop (n + m) s = string_drop m (string_drop n s).
Proof.
  revert s. induction n as [|n IH]; intros s; [done|].
  destruct s as [|a s]; [by destruct m|]. cbn. apply IH.
Qed.

(** The extension that [os.path.splitext] cuts off is empty or a dot
    followed by characters that are neither dots nor slashes. *)
Lemma splitext_extension p :
  (splitext p).2 = ""
  \/ exists rest,
       (splitext p).2 = String "." rest
       /\ string_exists (fun a => Ascii.eqb a "." || Ascii.eqb a "/") rest = false.
Proof.
  unfold splitext, rfind.
  destruct (rfind_from_cases "." p 0 (-1)) as [[Hd _]|(i & Hd & Hdrop & Hno)].
  { rewrite Hd.
    destruct (rfind_from "/" p 0 (-1) <? -1) eqn:Hlt; [|by left].
    apply Z.ltb_lt in Hlt.
    destruct (rfind_from_cases "/" p 0 (-1)) as [[Hs _]|(j & Hs & _)]; lia. }
  rewrite Hd. destruct (_ && _) eqn:Hc; [|by left].
  apply andb_true_iff in Hc as [Hlt%Z.ltb_lt _].
  right. exists (string_drop (S i) p). cbn [snd].
  replace (Z.to_nat (0 + Z.of_nat i)) with i by lia. split; [done|].
  assert (Hslash : string_exists (fun a => Ascii.eqb a "/") (string_drop (S i) p) = false).
  { destruct (rfind_from_cases "/" p 0 (-1)) as [[_ Hn]|(j & Hs & _ & Hn)].
    - by apply string_drop_exists.
    - replace (S i) with (S j + (i - j))%nat by lia.
      rewrite string_drop_add. by apply string_drop_exists. }
  revert Hno Hslash. generalize (string_drop (S i) p). clear.
  induction s as [|a s IH]; [done|]. cbn.
  intros [-> H1]%orb_false_iff [-> H2]%orb_false_iff. cbn. by apply IH.
Qed.

(** X1. The colorfile is named after the input file with its extension
    replaced by [.cf]; the extension is what follows the last dot of the
    file name, so the directory of the input file is kept. *)
Theorem colorfile_beside_input args :
  exists root ext,
    nc_file args = root +:+ ext
    /\ colorfile_name args = root +:+ ".cf"
    /\ (ext = ""
        \/ exists rest,
             ext = String "." rest
             /\ string_exists (fun a => Ascii.eqb a "." || Ascii.eqb a "/") rest = false).
Proof.
  exists (splitext (nc_file args)).1, (splitext (nc_file args)).2.
  split; [by rewrite splitext_round_trip|]. split; [done|].
  apply splitext_extension.
Qed.

(** X2. The colorfile is written over the input file exactly when the
    input file has the extension [.cf]. *)
Theorem colorfile_is_input_iff args :
  colorfile_name args = nc_file args <-> (splitext (nc_file args)).2 = ".cf".
Proof.
  unfold colorfile_name.
  rewrite <- (splitext_round_trip (nc_file args)) at 2.
  split; [by intros ?%append_inj_r|by intros ->].
Qed.

Lemma digit_inj a b : digit a = digit b -> (a mod 10 = b mod 10)%nat.
Proof.
  unfold digit. intros H. apply (f_equal nat_of_ascii) in H.
  rewrite !nat_ascii_embedding in H.
  - lia.
  - pose proof (Nat.mod_upper_bound b 10). lia.
  - pose proof (Nat.mod_upper_bound a 10). lia.
Qed.

Lemma pad2_inj a b : (a < 100)%nat -> (b < 100)%nat -> pad2 a = pad2 b -> a = b.
Proof.
  unfold pad2. intros Ha Hb H. injection H as H1 H2.
  apply digit_inj in H1, H2.
  assert (Ha' : (a / 10 < 10)%nat) by (apply Nat.Div0.div_lt_upper_bound; lia).
  assert (Hb' : (b / 10 < 10)%nat) by (apply Nat.Div0.div_lt_upper_bound; lia).
  rewrite !Nat.mod_small in H1 by done.
  change (a / 10 = b / 10)%nat in H1.
  pose proof (Nat.div_mod_eq a 10). pose proof (Nat.div_mod_eq b 10). lia.
Qed.

Lemma pad4_inj a b :
  Z.of_nat a < 10000 -> Z.of_nat b < 10000 -> pad4 a = pad4 b -> a = b.
Proof.
  unfold pad4. intros Ha Hb H.
  apply append_inj_length in H as [H1 H2]; [|done].
  apply pad2_inj in H1; [|apply Nat.Div0.div_lt_upper_bound; lia..].
  apply pad2_inj in H2; [|apply Nat.mod_upper_bound; lia..].
  pose proof (Nat.div_mod_eq a 100). pose proof (Nat.div_mod_eq b 100). lia.
Qed.

Lemma valid_timestamp_bounds ts :
  valid_timestamp ts = true ->
  Z.of_nat (year ts) < 10000
  /\ (month ts < 100 /\ day ts < 100 /\ hour ts < 100 /\ minute ts < 100)%nat.
Proof.
  unfold valid_timestamp. rewrite !andb_true_iff.
  rewrite !Z.leb_le, !Z.ltb_lt. lia.
Qed.

Lemma fn_ts_str_length ts : String.length (fn_ts_str ts) = 14%nat.
Proof. done. Qed.

Lemma fn_ts_str_inj ts ts' :
  valid_timestamp ts = true -> valid_timestamp ts' = true ->
  fn_ts_str ts = fn_ts_str ts' -> ts = ts'.
Proof.
  intros (Hy & Hm & Hd & Hh & Hmi)%valid_timestamp_bounds
         (Hy' & Hm' & Hd' & Hh' & Hmi')%valid_timestamp_bounds H.
  unfold fn_ts_str in H.
  apply append_inj_prefix in H as [H1 H]; [|done].
  apply append_inj_prefix in H as [H2 H]; [|done].
  apply append_inj_prefix in H as [H3 H]; [|done].
  apply append_inj_prefix in H as [_ H]; [|done].
  apply append_inj_prefix in H as [H4 H]; [|done].
  apply append_inj_prefix in H as [H5 _]; [|done].
  apply pad2_inj in H1, H2, H4, H5; [|done..]. apply pad4_inj in H3; [|done..].
  destruct ts, ts'; cbn in *. congruence.
Qed.

(** X3. The name of an image determines the variable and the minute it
    shows: two different (variable, time) pairs never share a file. *)
Theorem out_fn_injective v v' ts ts' :
  valid_timestamp ts = true -> valid_timestamp ts' = true ->
  out_fn v ts = out_fn v' ts' -> v = v' /\ ts = ts'.
Proof.
  intros Hts Hts' H. unfold out_fn in H.
  apply append_inj_length in H as [-> H]; [|done].
  split; [done|].
  apply append_inj_r, append_inj_length in H as [H _]; [|done].
  by apply fn_ts_str_inj.
Qed.

Lemma out_fn_injective_witness :
  "T" = "T" /\ mk_Timestamp 2016 11 28 0 0 = mk_Timestamp 2016 11 28 0 0.
Proof.
  apply (out_fn_injective "T" "T" (mk_Timestamp 2016 11 28 0 0)
           (mk_Timestamp 2016 11 28 0 0)); reflexivity.
Defined.

(** ** Runs *)

Lemma bind_inv {A B} (m : io A) (k : A -> io B) r evs :
  (m ≫= k) = (r, evs) ->
  (exists e, m = (Raise e, evs) /\ r = Raise e)
  \/ (exists a e1 e2, m = (Ok a, e1) /\ k a = (r, e2) /\ evs = e1 ++ e2).
Proof.
  destruct m as [[a|e] e1]; cbn.
  - destruct (k a) as [r' e2] eqn:Hk. intros [= <- <-]. right. by exists a, e1, e2.
  - intros [= <- <-]. left. by exists e.
Qed.

(** X4. When the input file cannot be opened, a [RuntimeError] ends the
    run with the diagnostic and status 1; any other exception is not
    caught and no diagnostic is printed. *)
Theorem open_failure env args e :
  open_dataset env (nc_file args) = Raise e ->
  run env args
  = match e with
    | RuntimeError =>
        (Raise (SystemExit 1),
         [Print ("Could not open netCDF file '" +:+ nc_file args +:+ "'")])
    | _ => (Raise e, [])
    end.
Proof.
  intros H. unfold run, main, open_input. rewrite H. by destruct e.
Qed.

Lemma open_failure_witness :
  run demo_env absent_args
  = (Raise (SystemExit 1), [Print "Could not open netCDF file 'absent.nc'"]).
Proof. apply (open_failure demo_env absent_args RuntimeError). reflexivity. Defined.

(** X6. After the colors are resolved, the lookup [color_data[v]] of the
    plotting loop finds an entry for every variable that is plotted. *)
Theorem color_lookup_total env args dataset color_data evs v :
  resolve_colors env args dataset = (Ok color_data, evs) ->
  v ∈ plotted_variables dataset ->
  is_Some (color_data !! v).
Proof.
  intros (_ & Hdom & _)%resolve_colors_ok_inv Hv.
  apply elem_of_dom, Hdom. right.
  unfold plotted_variables in Hv. apply list_elem_of_In, filter_In in Hv as [Hv Hp].
  apply list_elem_of_In, elem_of_variable_names in Hv. split; [done|].
  unfold is_plotted in Hp. apply negb_true_iff, orb_false_iff in Hp as [Hp _].
  by apply bool_decide_eq_false in Hp.
Qed.

Lemma color_lookup_total_witness :
  is_Some (demo_colors !! "T").
Proof.
  apply (color_lookup_total demo_env demo_args demo_dataset demo_colors
           (resolve_colors demo_env demo_args demo_dataset).2 "T").
  - vm_compute. reflexivity.
  - vm_compute. left.
Defined.

Section AllImages.
Variable env : Env.
Variable args : Args.

Lemma time_loop_images v var_data kw groups evs :
  time_loop env args v var_data kw groups = (Ok tt, evs) ->
  saved_files evs
  = (fun g => out_fn v g.1) <$> (if sample args then take 1 groups else groups).
Proof.
  revert evs. induction groups as [|[time plot_data] rest IH]; intros evs;
    cbn [time_loop].
  - intros [= <-]. by destruct (sample args).
  - intros ([] & e1 & e2 & Hstep%plot_timestep_saved & H & ->)%bind_ok_inv.
    rewrite saved_files_app, Hstep. destruct (sample args).
    + by injection H as <-.
    + apply IH in H. by rewrite H.
Qed.

Lemma plot_variable_images dataset color_data v evs :
  plot_variable env args dataset color_data v = (Ok tt, evs) ->
  saved_files evs = if is_plotted dataset v then images env args dataset v else [].
Proof.
  unfold plot_variable, images, print.
  destruct (is_plotted dataset v); cbn [negb]; [|by intros [= <-]].
  intros H.
  apply emit_bind_inv in H as (e1 & H & ->).
  apply lift_bind_inv in H as (var_data & -> & H).
  apply emit_bind_inv in H as (e2 & H & ->).
  apply for_print_bind_inv in H as (e3 & H & ->).
  apply emit_bind_inv in H as (e4 & H & ->).
  apply bind_ok_inv in H as (kw & e5 & e6 & Hkw & H & ->).
  assert (e5 = []) as ->.
  { destruct (color_data !! v); [by injection Hkw as _ <-|discriminate]. }
  apply for_print_bind_inv in H as (e7 & H & ->).
  apply lift_bind_inv in H as (groups & -> & H).
  apply time_loop_images in H.
  cbn. rewrite saved_files_app. rewrite (saved_files_none (_ <$> _)).
  2:{ apply forallb_forall. intros e (kv & <- & _)%in_map_iff. done. }
  cbn. rewrite saved_files_app. rewrite (saved_files_none (_ <$> _)).
  2:{ apply forallb_forall. intros e (kv & <- & _)%in_map_iff. done. }
  cbn. by rewrite H.
Qed.

Lemma plot_loop_images dataset color_data vs evs :
  io_for (plot_variable env args dataset color_data) vs = (Ok tt, evs) ->
  saved_files evs
  = concat (images env args dataset <$> List.filter (is_plotted dataset) vs).
Proof.
  revert evs. induction vs as [|v vs IH]; intros evs; [by intros [= <-]|].
  cbn [io_for List.filter]. change (io_bind ?m ?k) with (m ≫= k).
  intros ([] & e1 & e2 & Hv%plot_variable_images & Hvs%IH & ->)%bind_ok_inv.
  rewrite saved_files_app, Hv, Hvs.
  by destruct (is_plotted dataset v).
Qed.

End AllImages.

(** X7. In every successful run the paths handed to [savefig] are, for the
    plotted variables in the order in which the dataset lists them, the
    image name of each time slice in turn, or of the first slice only
    under [--sample]; two slices of one minute share a path. *)
Theorem one_image_per_time_slice env args evs dataset :
  run env args = (Ok tt, evs) ->
  input_dataset env args = Ok dataset ->
  saved_files evs
  = concat (images env args dataset <$> plotted_variables dataset).
Proof.
  intros (dataset0 & dataset' & color_data & e_res & e_plot
          & Hopen & Hco & Hres & Hplot & ->)%run_ok_inv Hin.
  unfold input_dataset in Hin. rewrite Hopen in Hin. cbn in Hin.
  rewrite Hco in Hin. injection Hin as ->.
  rewrite !saved_files_app.
  rewrite (saved_files_none (_ :: _)).
  2:{ cbn. apply forallb_forall. intros e (kv & <- & _)%in_map_iff. done. }
  rewrite (writes_none_saved e_res).
  2:{ eapply all_events_snd; [exact Hres|apply resolve_colors_events]. }
  cbn. exact (plot_loop_images env args dataset color_data _ _ Hplot).
Qed.

Lemma one_image_per_time_slice_witness :
  saved_files (run pressure_env pressure_args).2
  = concat (images pressure_env pressure_args pressure_dataset
              <$> plotted_variables pressure_dataset)
  /\ concat (images pressure_env pressure_args pressure_dataset
               <$> plotted_variables pressure_dataset)
     = ["P_11282016_0000Z.png"; "P_11282016_0600Z.png";
        "T_11282016_0000Z.png"; "T_11282016_0600Z.png"].
Proof.
  split; [|vm_compute; reflexivity].
  apply (one_image_per_time_slice pressure_env pressure_args
           (run pressure_env pressure_args).2 pressure_dataset).
  - vm_compute. reflexivity.
  - vm_compute. reflexivity.
Defined.

(** ** The colormap cache *)

Lemma batch_fold_events env dataset l : forall cd cd' evs,
  io_fold (batch_step env dataset) l cd = (Ok cd', evs) ->
  evs = (fun v => Print ("   " +:+ v))
          <$> filter (fun v => v ∉ ds_dims dataset) l.
Proof.
  induction l as [|v l IH]; intros cd cd' evs; [by intros [= _ <-]|].
  cbn [io_fold]. change (io_bind ?m ?k) with (m ≫= k).
  intros (cd1 & e1 & e2 & Hstep & Hrest%IH & ->)%bind_ok_inv.
  rewrite filter_cons. unfold batch_step in Hstep.
  case_bool_decide as Hd.
  - injection Hstep as _ <-. by rewrite decide_False by (by intros ?).
  - rewrite decide_True by done. unfold print in Hstep.
    apply emit_bind_inv in Hstep as (e3 & Hstep & ->).
    apply lift_bind_inv in Hstep as (da & _ & Hstep).
    apply lift_bind_inv in Hstep as (p & _ & Hstep).
    injection Hstep as _ <-. by rewrite Hrest.
Qed.

(** X8. Without a colorfile the resolution announces itself, prints one
    line per variable that is not a dimension, in the order of the
    variables, and warns about nothing. *)
Theorem batch_resolution_output env args dataset color_data evs :
  colorfile args = None ->
  resolve_colors env args dataset = (Ok color_data, evs) ->
  evs = Print "Inferring new colormaps"
        :: ((fun v => Print ("   " +:+ v))
              <$> filter (fun v => v ∉ ds_dims dataset) (variable_names dataset))
  /\ warnings evs = [].
Proof.
  intros Hcf. unfold resolve_colors, print. rewrite Hcf. intros H.
  apply emit_bind_inv in H as (e1 & H%batch_fold_events & ->).
  rewrite H. split; [done|]. cbn.
  generalize (filter (fun v => v ∉ ds_dims dataset) (variable_names dataset)).
  clear. intros l. by induction l.
Qed.

Lemma batch_resolution_output_witness :
  (resolve_colors pressure_env pressure_args pressure_dataset).2
  = [Print "Inferring new colormaps"; Print "   P"; Print "   T"].
Proof.
  destruct (batch_resolution_output pressure_env pressure_args pressure_dataset
              (match (resolve_colors pressure_env pressure_args pressure_dataset).1 with
               | Ok cd => cd | Raise _ => ∅ end)
              (resolve_colors pressure_env pressure_args pressure_dataset).2) as [H _].
  - reflexivity.
  - vm_compute. reflexivity.
  - rewrite H. vm_compute. reflexivity.
Defined.

Lemma fallback_fold_complete env dataset l cd :
  (forall v, v ∈ l -> v ∉ ds_dims dataset -> v ∈ dom cd) ->
  io_fold (fallback_step env dataset) l cd = (Ok cd, []).
Proof.
  induction l as [|v l IH]; intros H; [done|].
  cbn [io_fold]. rewrite fallback_step_skip.
  - cbn. rewrite IH; [done|]. intros w Hw. apply H. by right.
  - intros [Hd Hc]. apply Hc, H; [by left|done].
Qed.

(** X9. The colorfile a run saves is complete for its dataset: a second run
    that loads it resolves to the same colors, warns about nothing and
    infers nothing. *)
Theorem saved_colors_reload env args args' dataset color_data evs cf :
  resolve_colors env args dataset = (Ok color_data, evs) ->
  colorfile args' = Some cf ->
  load_pickle env cf = Ok color_data ->
  resolve_colors env args' dataset = (Ok color_data, []).
Proof.
  intros (_ & Hdom & _)%resolve_colors_ok_inv Hcf Hload.
  unfold resolve_colors. rewrite Hcf, (open_colorfile_ok env cf color_data Hload).
  cbn. rewrite fallback_fold_complete; [done|].
  intros v Hv%elem_of_variable_names Hd. apply Hdom. by right.
Qed.

Lemma saved_colors_reload_witness :
  resolve_colors cached_env cached_args demo_dataset = (Ok demo_colors, []).
Proof.
  apply (saved_colors_reload cached_env demo_args cached_args demo_dataset
           demo_colors (resolve_colors cached_env demo_args demo_dataset).2 "run1.cf").
  - vm_compute. reflexivity.
  - reflexivity.
  - reflexivity.
Defined.

Lemma colorfile_first_bind {A B} path (m : io A) (k : A -> io B) :
  all_events (fun e => negb (writes_file e)) m ->
  (forall a, colorfile_first path (k a).2) ->
  colorfile_first path (m ≫= k).2.
Proof.
  unfold all_events. destruct m as [[a|e] e1]; cbn; intros Hm Hk; [|by left].
  specialize (Hk a). destruct (k a) as [r e2]. cbn in *.
  destruct Hk as [Hno|(pre & cd & post & -> & Hpre & Hpost)].
  - left. rewrite forallb_app. by rewrite Hm, Hno.
  - right. exists (e1 ++ pre), cd, post. rewrite <- app_assoc. split; [done|].
    rewrite forallb_app. by rewrite Hm, Hpre.
Qed.

Lemma colorfile_first_save {B} env args color_data (k : unit -> io B) :
  (forall a, all_events (fun e => negb (is_dump e)) (k a)) ->
  colorfile_first (colorfile_name args) (save_colors env args color_data ≫= k).2.
Proof.
  intros Hk. unfold save_colors, print, emit, lift.
  destruct (dump_pickle env (colorfile_name args)) as [[]|e]; cbn; [|by left].
  specialize (Hk tt). unfold all_events in Hk. destruct (k tt) as [r e2]. cbn in *.
  right. by exists [Print "Saving colormap data"], color_data, e2.
Qed.

Lemma run_colorfile_first env args :
  colorfile_first (colorfile_name args) (run env args).2.
Proof.
  unfold run, main.
  apply colorfile_first_bind; [unfold open_input; events|]. intros dataset0.
  apply colorfile_first_bind; [events|]. intros _.
  apply colorfile_first_bind; [events|]. intros _.
  apply colorfile_first_bind; [events|]. intros dataset.
  apply colorfile_first_bind; [apply resolve_colors_events|]. intros color_data.
  apply colorfile_first_save. intros _.
  apply all_events_bind; [events|]. intros _. apply plot_loop_events.
Qed.

(** X10. In every run, finished or not, no image is written before the
    colorfile, and the colorfile is written at most once. *)
Theorem colorfile_written_first env args :
  colorfile_first (colorfile_name args) (run env args).2.
Proof. apply run_colorfile_first. Qed.

Lemma dumps_app e1 e2 : dumps (e1 ++ e2) = dumps e1 ++ dumps e2.
Proof. unfold dumps. apply omap_app. Qed.

Lemma dumps_none evs :
  forallb (fun e => negb (is_dump e)) evs = true -> dumps evs = [].
Proof.
  induction evs as [|e evs IH]; [done|]. cbn [forallb].
  intros [He Hevs]%andb_true_iff. destruct e; try done; by apply IH.
Qed.

Lemma writes_none_dumps evs :
  forallb (fun e => negb (writes_file e)) evs = true ->
  forallb (fun e => negb (is_dump e)) evs = true.
Proof.
  induction evs as [|e evs IH]; [done|]. cbn [forallb].
  intros [He Hevs]%andb_true_iff. rewrite IH by done.
  unfold writes_file in He. by destruct (is_dump e).
Qed.

(** X11. The colors are always written next to the input file: a colorfile
    loaded from any other path is read and never written. *)
Theorem loaded_colorfile_not_updated env args cf :
  colorfile args = Some cf ->
  cf <> colorfile_name args ->
  forall color_data, (cf, color_data) ∉ dumps (run env args).2.
Proof.
  intros _ Hne color_data Hin.
  destruct (run_colorfile_first env args) as [Hno|(pre & cd & post & Heq & Hpre & Hpost)].
  - rewrite dumps_none in Hin; [by apply not_elem_of_nil in Hin|].
    by apply writes_none_dumps.
  - rewrite Heq, dumps_app, (dumps_none pre) in Hin by (by apply writes_none_dumps).
    change (dumps (Dump ?p ?c :: ?l)) with ((p, c) :: dumps l) in Hin.
    rewrite (dumps_none post) in Hin by done.
    apply list_elem_of_singleton in Hin. congruence.
Qed.

Lemma loaded_colorfile_not_updated_witness :
  ("empty.cf", demo_colors) ∉ dumps (run demo_env empty_cache_args).2.
Proof.
  apply (loaded_colorfile_not_updated demo_env empty_cache_args "empty.cf").
  - reflexivity.
  - vm_compute. discriminate.
Defined.

(** ** The colorbar *)

(** X12. [add_colorbar] returns exactly when it is given an axis and no
    figure, or a figure that has axes together with one of the two
    orientations; when it raises, nothing has been drawn. *)
Theorem add_colorbar_succeeds_iff mappable fig ax thickness shrink pad orientation :
  (is_ok (add_colorbar mappable fig ax thickness shrink pad orientation).1 = true
   <-> match fig with
       | None => is_Some ax
       | Some f => fig_axes f <> []
                   /\ (orientation = "vertical" \/ orientation = "horizontal")
       end)
  /\ (is_ok (add_colorbar mappable fig ax thickness shrink pad orientation).1 = false
      -> (add_colorbar mappable fig ax thickness shrink pad orientation).2 = []).
Proof.
  unfold add_colorbar. destruct fig as [f|].
  - destruct (fig_axes f) as [|ul rest] eqn:Hax.
    { cbn. split; [|done]. split; [done|]. by intros [? _]. }
    assert (Hlast : exists lr, last (ul :: rest) = Some lr).
    { destruct (last (ul :: rest)) eqn:Hl; [by eexists|].
      by apply last_None in Hl. }
    destruct Hlast as [lr ->]. cbn [head].
    destruct (String.eqb orientation "vertical") eqn:Hv.
    { apply String.eqb_eq in Hv as ->. cbn. split; [|done].
      split; [intros _; split; [done|by left]|done]. }
    destruct (String.eqb orientation "horizontal") eqn:Hh.
    { apply String.eqb_eq in Hh as ->. cbn. split; [|done].
      split; [intros _; split; [done|by right]|done]. }
    cbn. split; [|done]. split; [done|].
    intros [_ [->| ->]]; [by rewrite String.eqb_refl in Hv|by rewrite String.eqb_refl in Hh].
  - destruct ax as [a|]; cbn.
    + split; [|done]. split; [by eauto|done].
    + split; [|done]. split; [done|]. by intros [? ?].
Qed.

(** ** The map renderer, beyond the method name *)

(** X14. With a known method, a wrong axis or projection is refused before
    anything is drawn: an axis without projection and a projection
    sequence that is not a pair are a [ValueError], a projection name
    that [cartopy.crs] does not have is a [KeyError]. *)
Theorem geo_plot_argument_errors env darray (m : string) d projection grid kw :
  PLOTTYPE_ARGS !! m = Some d ->
  (forall a, ax_projection a = None ->
     geo_plot env darray (Some a) (VStr m) projection grid kw
     = (Raise (ValueError "Expected `ax` to be a GeoAxes instance"), []))
  /\ (forall items, length items <> 2%nat ->
        geo_plot env darray None (VStr m) (VSeq items) grid kw
        = (Raise (ValueError "Expected 'projection' to only have 2 values"), []))
  /\ (forall p, p ∉ crs_names env ->
        geo_plot env darray None (VStr m) (VStr p) grid kw
        = (Raise (KeyError p), [])).
Proof.
  intros Hm. split; [|split].
  - intros a Hnone. unfold geo_plot, plot_args. by rewrite Hm, Hnone.
  - intros items Hlen. unfold geo_plot, plot_args, make_projection.
    apply Nat.eqb_neq in Hlen. by rewrite Hm, Hlen.
  - intros p Hp. unfold geo_plot, plot_args, make_projection. rewrite Hm.
    cbn [mbind result_bind bind].
    by rewrite (bool_decide_eq_false_2 (p ∈ crs_names env)).
Qed.

Lemma geo_plot_argument_errors_witness :
  geo_plot demo_env global_slice None (VStr "contourf") (VStr "Mercator")
           (VBool false) ∅
  = (Raise (KeyError "Mercator"), []).
Proof.
  destruct (geo_plot_argument_errors demo_env global_slice "contourf" ∅
              (VStr "Mercator") (VBool false) ∅) as (_ & _ & H).
  - reflexivity.
  - apply H. compute_done.
Defined.

(** X15. What reaches the plotting function. The keywords of the caller
    replace the defaults of the method, [transform] is always the
    plate-carree system whatever the caller passed, and without [vmin]
    among the keywords the inferred colormap parameters are announced by
    one warning and replace whatever the caller passed under their
    names. *)
Theorem geo_plot_arguments env darray a pr (m : string) d projection grid kw lon lat :
  PLOTTYPE_ARGS !! m = Some d ->
  ax_projection a = Some pr ->
  gridlines env a = Ok tt ->
  coord_values darray "lon" = Ok lon ->
  coord_values darray "lat" = Ok lat ->
  let base := <["transform" := VObj "PlateCarree"]> (kw ∪ d) in
  let drawn := [Call "plt.sca"; Call "ax.set_global"; Call "ax.coastlines";
                Call "ax.gridlines"] in
  let plotted args :=
    match plot_func env m lon lat (values darray) args with
    | Ok gp => Ok (a, gp)
    | Raise e => Raise e
    end in
  ("vmin" ∈ dom kw ->
     geo_plot env darray (Some a) (VStr m) projection grid kw
     = (plotted base, drawn))
  /\ ("vmin" ∉ dom kw ->
        forall cmap_kws,
        xray_determine_cmap_params env (values darray) default_options = Ok cmap_kws ->
        geo_plot env darray (Some a) (VStr m) projection grid kw
        = (plotted (cmap_kws ∪ base),
           drawn ++ [Warn "Re-inferring color parameters..."]))
  /\ base !! "transform" = Some (VObj "PlateCarree")
  /\ (forall key, key <> "transform" -> is_Some (kw !! key) -> base !! key = kw !! key)
  /\ (forall cmap_kws key, is_Some (cmap_kws !! key) ->
        (cmap_kws ∪ base) !! key = cmap_kws !! key).
Proof.
  intros Hm Ha Hg Hlon Hlat base drawn plotted.
  split; [|split; [|split; [|split]]].
  - intros Hv. unfold geo_plot, plot_args, update.
    rewrite Hm, Ha, Hlon, Hlat, (bool_decide_eq_true_2 ("vmin" ∈ dom kw)) by done.
    cbn. rewrite Hg. cbn. fold base. unfold plotted.
    by destruct (plot_func env m lon lat (values darray) base).
  - intros Hv cmap_kws Hinf. unfold geo_plot, plot_args, update, warn.
    rewrite Hm, Ha, Hlon, Hlat, Hinf, (bool_decide_eq_false_2 ("vmin" ∈ dom kw)) by done.
    cbn. rewrite Hg. cbn. fold base. unfold plotted.
    by destruct (plot_func env m lon lat (values darray) (cmap_kws ∪ base)).
  - apply lookup_insert_eq.
  - intros key Hne [x Hx]. unfold base. rewrite lookup_insert_ne by done.
    rewrite Hx. by apply lookup_union_Some_l.
  - intros cmap_kws key [x Hx]. rewrite Hx. by apply lookup_union_Some_l.
Qed.

Lemma geo_plot_arguments_witness :
  geo_plot demo_env global_slice (Some demo_axes) (VStr "pcolormesh")
           (VStr "PlateCarree") (VBool false)
           {[ "vmin" := VNum 0; "transform" := VObj "Mercator"; "linewidth" := VStr "2" ]}
  = (Ok (demo_axes,
         mk_Mappable "pcolormesh"
           {[ "vmin" := VNum 0; "transform" := VObj "PlateCarree";
              "linewidth" := VStr "2" ]}),
     [Call "plt.sca"; Call "ax.set_global"; Call "ax.coastlines"; Call "ax.gridlines"]).
Proof.
  destruct (geo_plot_arguments demo_env global_slice demo_axes "PlateCarree"
              "pcolormesh" {[ "linewidth" := VStr "0" ]}
              (VStr "PlateCarree") (VBool false)
              {[ "vmin" := VNum 0; "transform" := VObj "Mercator";
                 "linewidth" := VStr "2" ]}
              (array1 (nums [0; 90; 180; 270])) (array1 (nums [0])))
    as (H & _); [reflexivity..|].
  rewrite H by compute_done. vm_compute. reflexivity.
Defined.

(** X16. For a known method, an axis with a projection passed in, [vmin]
    among the keywords and both coordinates present: on a [TypeError] of
    [gridlines] the call warns and then plots as it would have; any other
    exception of [gridlines] ends the call. *)
Theorem unlabelled_projection env darray a pr (m : string) d projection grid kw lon lat :
  PLOTTYPE_ARGS !! m = Some d ->
  ax_projection a = Some pr ->
  "vmin" ∈ dom kw ->
  coord_values darray "lon" = Ok lon ->
  coord_values darray "lat" = Ok lat ->
  forall e, gridlines env a = Raise e ->
  geo_plot env darray (Some a) (VStr m) projection grid kw
  = match e with
    | TypeError _ =>
        (match plot_func env m lon lat (values darray)
                 (<["transform" := VObj "PlateCarree"]> (kw ∪ d)) with
         | Ok gp => Ok (a, gp)
         | Raise e' => Raise e'
         end,
         [Call "plt.sca"; Call "ax.set_global"; Call "ax.coastlines";
          Warn "Could not label the given map projection."])
    | _ => (Raise e, [Call "plt.sca"; Call "ax.set_global"; Call "ax.coastlines"])
    end.
Proof.
  intros Hm Ha Hv Hlon Hlat e Hg.
  unfold geo_plot, plot_args, update, warn.
  rewrite Hm, Ha, Hlon, Hlat, (bool_decide_eq_true_2 ("vmin" ∈ dom kw)) by done.
  cbn. rewrite Hg. destruct e; try done. cbn.
  by destruct (plot_func env m lon lat (values darray) _).
Qed.

Lemma unlabelled_projection_witness :
  geo_plot polar_env global_slice (Some demo_axes) (VStr "contourf")
           (VStr "PlateCarree") (VBool false) {[ "vmin" := VNum 0 ]}
  = (Ok (demo_axes,
         mk_Mappable "contourf"
           {[ "vmin" := VNum 0; "transform" := VObj "PlateCarree" ]}),
     [Call "plt.sca"; Call "ax.set_global"; Call "ax.coastlines";
      Warn "Could not label the given map projection."]).
Proof.
  rewrite (unlabelled_projection polar_env global_slice demo_axes "PlateCarree"
             "contourf" ∅ (VStr "PlateCarree") (VBool false) {[ "vmin" := VNum 0 ]}
             (array1 (nums [0; 90; 180; 270])) (array1 (nums [0]))
             eq_refl eq_refl ltac:(compute_done) eq_refl eq_refl
             (TypeError "Cannot label gridlines") eq_refl).
  vm_compute. reflexivity.
Defined.

(** ** Missing values and irregular grids *)

(** Against an array that holds a NaN, no array of the same shape
    compares equal everywhere. *)
Lemma nan_never_equal sh : forall a b,
  has_shape sh a = true -> has_shape sh b = true ->
  nan_free a && nan_free b = false ->
  all_cells (map2 scalar_eqb a b) = false.
Proof.
  induction sh as [|n sh IH]; intros a b Ha Hb Hnan.
  - apply has_shape_nil_inv in Ha as [x ->]. apply has_shape_nil_inv in Hb as [y ->].
    cbn in *. by destruct x, y.
  - apply has_shape_cons_inv in Ha as (xs & -> & Hlx & Hax).
    apply has_shape_cons_inv in Hb as (ys & -> & Hly & Hay).
    rewrite map2_Arr. cbn [all_cells nan_free] in *. subst n.
    revert ys Hly Hay Hnan.
    induction Hax as [|x xs Hx _ IHxs]; intros [|y ys] Hly Hay Hnan; try done.
    apply Forall_cons in Hay as [Hy Hay]. cbn [zip_with forallb] in *.
    destruct (nan_free x && nan_free y) eqn:Hxy.
    + apply andb_true_iff in Hxy as [Hx1 Hy1]. rewrite Hx1, Hy1 in Hnan.
      cbn [andb] in Hnan. rewrite (IHxs ys); [by rewrite andb_false_r|by injection Hly|done|].
      destruct (forallb nan_free xs), (forallb nan_free ys); done.
    + by rewrite (IH x y).
Qed.

(** X17. The check looks at the first and at the last longitude and at
    nothing else: the cells in between, the coordinates and the attributes
    never matter. *)
Theorem check_cyclic_compares_ends da k n first last_ :
  wf_DataArray da = true ->
  index_of "lon" (dims da) = Some k ->
  shape (values da) !! k = Some (S n) ->
  select k 0 (items (values da)) = Some first ->
  select k n (items (values da)) = Some last_ ->
  check_cyclic da "lon" = Ok (all_cells (map2 scalar_eqb first last_)).
Proof.
  intros Hwf Hk Hn H0 Hlast. unfold check_cyclic.
  destruct (isel_ok da "lon" k (S n) Hwf Hk Hn 0 0%nat (py_index_first n))
    as (col0 & cs0 & Hcol0 & Hsh0 & ->).
  destruct (isel_ok da "lon" k (S n) Hwf Hk Hn (-1) n (py_index_last n))
    as (col1 & cs1 & Hcol1 & Hsh1 & ->).
  assert (col0 = first) as -> by congruence.
  assert (col1 = last_) as -> by congruence.
  cbn. unfold equal. cbn. by rewrite bool_decide_eq_true_2.
Qed.

Lemma check_cyclic_compares_ends_witness :
  check_cyclic global_slice "lon" = Ok false.
Proof.
  apply (check_cyclic_compares_ends global_slice 1 3
           (Arr [Item (Num (inject_Z 1))]) (Arr [Item (Num (inject_Z 4))]));
    vm_compute; reflexivity.
Defined.

(** X18. A missing value at the first or the last longitude defeats the
    check: whatever the other cells hold, the slice is not taken for
    cyclic. *)
Theorem nan_column_never_cyclic da k n first last_ :
  wf_DataArray da = true ->
  index_of "lon" (dims da) = Some k ->
  shape (values da) !! k = Some (S n) ->
  select k 0 (items (values da)) = Some first ->
  select k n (items (values da)) = Some last_ ->
  nan_free first && nan_free last_ = false ->
  check_cyclic da "lon" = Ok false.
Proof.
  intros Hwf Hk Hn H0 Hlast Hnan. unfold check_cyclic.
  destruct (isel_ok da "lon" k (S n) Hwf Hk Hn 0 0%nat (py_index_first n))
    as (col0 & cs0 & Hcol0 & Hsh0 & ->).
  destruct (isel_ok da "lon" k (S n) Hwf Hk Hn (-1) n (py_index_last n))
    as (col1 & cs1 & Hcol1 & Hsh1 & ->).
  assert (col0 = first) as -> by congruence.
  assert (col1 = last_) as -> by congruence.
  cbn. unfold equal. cbn. rewrite bool_decide_eq_true_2 by done.
  unfold all. cbn. f_equal. by eapply nan_never_equal.
Qed.

Lemma nan_column_never_cyclic_witness :
  check_cyclic nan_slice "lon" = Ok false.
Proof.
  apply (nan_column_never_cyclic nan_slice 1 1 (Arr [Item NaN]) (Arr [Item (Num 1)]));
    vm_compute; reflexivity.
Defined.

(** X19. Longitudes that are not equally spaced cannot be given a cyclic
    point: [cyclic_dataarray] raises the [ValueError] of cartopy. *)
Theorem irregular_longitudes_rejected da k n c c0 c1 rest :
  wf_DataArray da = true ->
  index_of "lon" (dims da) = Some k ->
  shape (values da) !! k = Some n ->
  coords da !! "lon" = Some c ->
  v_dims c = ["lon"] ->
  lon_values da = c0 :: c1 :: rest ->
  allclose (diff (c0 :: c1 :: rest)) (sub c1 c0) = false ->
  cyclic_dataarray da "lon"
  = Raise (ValueError "The coordinate must be equally spaced.").
Proof.
  intros Hwf Hk Hn Hc Hcd Hlon Hclose.
  pose proof (lon_axis_length da k n c Hwf Hk Hn Hc Hcd) as Hlen.
  destruct (wf_DataArray_inv da Hwf) as (_ & _ & Hcs).
  destruct (Hcs "lon" c Hc) as [[Hclen _]%andb_true_iff _].
  apply Nat.eqb_eq in Hclen. rewrite Hcd in Hclen. cbn in Hclen.
  unfold lon_values in Hlon, Hlen. rewrite Hc in Hlon, Hlen.
  unfold cyclic_dataarray, add_cyclic_point.
  rewrite Hk, Hc, <- Hclen, Hn, Hlen, Hlon, !Nat.eqb_refl. cbn [negb].
  change (diff (c0 :: c1 :: rest)) with (sub c1 c0 :: diff (c1 :: rest)) in *.
  cbv zeta. lazy iota beta. by rewrite Hclose.
Qed.

Lemma irregular_longitudes_rejected_witness :
  cyclic_dataarray irregular_slice "lon"
  = Raise (ValueError "The coordinate must be equally spaced.").
Proof.
  apply (irregular_longitudes_rejected irregular_slice 1 3 (lon_var [0; 10; 30])
           (Num 0) (Num 10) [Num 30]); vm_compute; reflexivity.
Defined.

(** X20. A single longitude that holds a missing value ends the correction
    with an [IndexError]: the check fails on the NaN and there is no
    spacing to extend the coordinate by. *)
Theorem single_nan_longitude_fails da k c col :
  wf_DataArray da = true ->
  index_of "lon" (dims da) = Some k ->
  shape (values da) !! k = Some 1%nat ->
  coords da !! "lon" = Some c ->
  v_dims c = ["lon"] ->
  select k 0 (items (values da)) = Some col ->
  nan_free col = false ->
  correct_cyclic da = Raise IndexError.
Proof.
  intros Hwf Hk Hn Hc Hcd Hcol Hnan.
  assert (Hcheck : check_cyclic da "lon" = Ok false).
  { unfold check_cyclic.
    destruct (isel_ok da "lon" k 1 Hwf Hk Hn 0 0%nat (py_index_first 0))
      as (col0 & cs0 & Hcol0 & Hsh0 & ->).
    destruct (isel_ok da "lon" k 1 Hwf Hk Hn (-1) 0%nat (py_index_last 0))
      as (col1 & cs1 & Hcol1 & _ & ->).
    assert (col0 = col) as -> by congruence.
    assert (col1 = col) as -> by congruence.
    cbn. unfold equal. cbn. rewrite bool_decide_eq_true_2 by done.
    unfold all. cbn. f_equal.
    eapply nan_never_equal; [exact Hsh0|exact Hsh0|by rewrite Hnan]. }
  rewrite (not_cyclic_corrected da Hcheck).
  pose proof (lon_axis_length da k 1 c Hwf Hk Hn Hc Hcd) as Hlen.
  destruct (wf_DataArray_inv da Hwf) as (_ & _ & Hcs).
  destruct (Hcs "lon" c Hc) as [[Hclen _]%andb_true_iff _].
  apply Nat.eqb_eq in Hclen. rewrite Hcd in Hclen. cbn in Hclen.
  unfold lon_values in Hlen. rewrite Hc in Hlen.
  unfold cyclic_dataarray, add_cyclic_point.
  rewrite Hk, Hc, <- Hclen, Hn, Hlen. cbn [Nat.eqb negb].
  destruct (cells1 (items (v_data c))) as [|x [|y l]]; done.
Qed.

Lemma single_nan_longitude_fails_witness :
  correct_cyclic single_nan_column = Raise IndexError.
Proof.
  apply (single_nan_longitude_fails single_nan_column 1 (lon_var [0]) (Arr [Item NaN]));
    vm_compute; reflexivity.
Defined.

Lemma foldl_copy_coord_attrs_dom (l : list (string * Var)) :
  forall m : gmap string Var, dom (foldl copy_coord_attrs m l) = dom m.
Proof.
  induction l as [|[k c] l IH]; intros m; [done|].
  cbn [foldl]. rewrite IH. unfold copy_coord_attrs. cbn [fst snd].
  apply set_eq. intros key. rewrite !elem_of_dom.
  destruct (decide (k = key)) as [->|Hne].
  - rewrite lookup_alter_eq. by rewrite fmap_is_Some.
  - by rewrite lookup_alter_ne.
Qed.

(** X21. Whatever [cyclic_dataarray] returns has the dimensions, the
    attributes and the coordinate names of its argument, and no name: the
    name of the array is not carried over. *)
Theorem cyclic_dataarray_keeps da coord da' :
  cyclic_dataarray da coord = Ok da' ->
  dims da' = dims da
  /\ attrs da' = attrs da
  /\ dom (coords da') = dom (coords da)
  /\ name da' = None.
Proof.
  unfold cyclic_dataarray, new_DataArray.
  destruct (index_of coord (dims da)) as [lon_idx|]; [|done].
  destruct (coords da !! coord) as [c|] eqn:Hc; [|done].
  destruct (add_cyclic_point (values da) c lon_idx) as [[cyclic_data cyclic_coord]|];
    [|done].
  cbn [mbind result_bind bind].
  destruct (negb _); [done|]. destruct (forallb _ _); [|done].
  cbn [mbind result_bind bind dims values coords attrs name]. intros [= <-].
  cbn [dims values coords attrs name]. split; [done|].
  split; [by rewrite copy_items_union, (right_id_L ∅ (∪))|]. split; [|done].
  rewrite foldl_copy_coord_attrs_dom, dom_insert_L.
  apply elem_of_dom_2 in Hc. apply subseteq_union_1_L.
  by apply singleton_subseteq_l.
Qed.

Lemma cyclic_dataarray_keeps_witness :
  exists da',
    cyclic_dataarray doc_array "y" = Ok da'
    /\ items (values da')
       = Arr [Arr (Item <$> nums [1; 2; 3; 1]); Arr (Item <$> nums [4; 5; 6; 4])]
    /\ attrs da' = attrs doc_array
    /\ name doc_array = Some "data" /\ name da' = None.
Proof.
  pose (da' := match cyclic_dataarray doc_array "y" with
               | Ok r => r | Raise _ => doc_array end).
  assert (H : cyclic_dataarray doc_array "y" = Ok da') by (vm_compute; reflexivity).
  destruct (cyclic_dataarray_keeps doc_array "y" da' H) as (_ & Hattrs & _ & Hname).
  exists da'. split; [exact H|]. split; [vm_compute; reflexivity|].
  split; [exact Hattrs|]. split; [reflexivity|exact Hname].
Defined.

(** ** Dimension names and coordinates *)

Lemma rename_ok_contains ds old new ds1 k :
  old <> new ->
  rename ds old new = Ok ds1 ->
  contains ds1 k = true ->
  k <> old /\ (k = new \/ contains ds k = true).
Proof.
  intros Hne [Hvars _]%rename_ok_inv [v' Hk]%bool_decide_eq_true%elem_of_dom.
  rewrite Hvars in Hk.
  apply renamed_variables_inv in Hk as (k0 & v0 & Hk0 & -> & _).
  split; [by apply rename_name_not_old|].
  unfold rename_name. destruct (String.eqb k0 old); [by left|]. right.
  apply bool_decide_eq_true, elem_of_dom. eauto.
Qed.

(** X22. The coercion of the dimension names is idempotent: what it
    returns holds no variable [longitude] or [latitude] any more, and
    coercing it again changes nothing. *)
Theorem coerce_dims_idempotent ds ds' :
  coerce_dims ds = Ok ds' ->
  contains ds' "longitude" = false
  /\ contains ds' "latitude" = false
  /\ coerce_dims ds' = Ok ds'.
Proof.
  intros H.
  assert (Hboth : contains ds' "longitude" = false /\ contains ds' "latitude" = false).
  { unfold coerce_dims in H.
    assert (Hfirst : exists ds1,
              (if contains ds "longitude" then rename ds "longitude" "lon" else Ok ds)
              = Ok ds1
              /\ contains ds1 "longitude" = false
              /\ (if contains ds1 "latitude" then rename ds1 "latitude" "lat" else Ok ds1)
                 = Ok ds').
    { destruct (contains ds "longitude") eqn:Hlon.
      - destruct (rename ds "longitude" "lon") as [ds1|] eqn:Hr1; [|done].
        exists ds1. split; [done|]. split; [|done].
        destruct (contains ds1 "longitude") eqn:Hc; [|done].
        destruct (rename_ok_contains ds "longitude" "lon" ds1 "longitude") as [Hk _];
          [done..|]. by destruct Hk.
      - exists ds. by rewrite Hlon. }
    destruct Hfirst as (ds1 & _ & Hlon1 & H2).
    destruct (contains ds1 "latitude") eqn:Hlat1.
    - split.
      + destruct (contains ds' "longitude") eqn:Hc; [|done].
        destruct (rename_ok_contains ds1 "latitude" "lat" ds' "longitude")
          as [_ [?|?]]; [done..|congruence].
      + destruct (contains ds' "latitude") eqn:Hc; [|done].
        destruct (rename_ok_contains ds1 "latitude" "lat" ds' "latitude") as [Hk _];
          [done..|]. by destruct Hk.
    - by injection H2 as <-. }
  destruct Hboth as [Hlon Hlat]. split; [done|]. split; [done|].
  unfold coerce_dims. rewrite Hlon. cbn [mbind result_bind bind]. by rewrite Hlat.
Qed.

Lemma coerce_dims_idempotent_witness :
  exists ds',
    coerce_dims clash_dataset = Ok ds'
    /\ contains clash_dataset "longitude" = true
    /\ contains ds' "longitude" = false
    /\ coerce_dims ds' = Ok ds'.
Proof.
  pose (ds' := match coerce_dims clash_dataset with
               | Ok r => r | Raise _ => clash_dataset end).
  assert (H : coerce_dims clash_dataset = Ok ds') by (vm_compute; reflexivity).
  destruct (coerce_dims_idempotent clash_dataset ds' H) as (H1 & _ & H2).
  exists ds'. split; [exact H|]. split; [vm_compute; reflexivity|].
  split; [exact H1|exact H2].
Defined.

(** X23. The two loops over the variables skip different things. A
    coordinate that is no dimension has its colors inferred and saved in
    the colorfile, and is never plotted. *)
Theorem coordinate_colored_not_plotted env args evs dataset v :
  run env args = (Ok tt, evs) ->
  input_dataset env args = Ok dataset ->
  v ∈ dom (variables dataset) ->
  v ∉ ds_dims dataset ->
  v ∈ coord_names dataset ->
  (exists color_data,
     dumps evs = [(colorfile_name args, color_data)]
     /\ is_Some (color_data !! v))
  /\ v ∉ plotted_variables dataset.
Proof.
  intros (dataset0 & dataset' & color_data & e_res & e_plot
          & Hopen & Hco & Hres & Hplot & ->)%run_ok_inv Hin Hv Hd Hc.
  unfold input_dataset in Hin. rewrite Hopen in Hin. cbn in Hin.
  rewrite Hco in Hin. injection Hin as ->.
  split.
  - exists color_data. split.
    + rewrite !dumps_app. rewrite (dumps_none (_ :: _)).
      2:{ cbn. apply forallb_forall. intros e (kv & <- & _)%in_map_iff. done. }
      rewrite (dumps_none e_res).
      2:{ apply writes_none_dumps.
          eapply all_events_snd; [exact Hres|apply resolve_colors_events]. }
      rewrite (dumps_none e_plot).
      2:{ eapply all_events_snd; [exact Hplot|apply plot_loop_events]. }
      done.
    + apply resolve_colors_ok_inv in Hres as (_ & Hdom & _).
      apply elem_of_dom, Hdom. by right.
  - unfold plotted_variables. intros [_ Hp]%list_elem_of_In%filter_In.
    unfold is_plotted in Hp. apply negb_true_iff, orb_false_iff in Hp as [_ Hp].
    by apply bool_decide_eq_false in Hp.
Qed.

Lemma coordinate_colored_not_plotted_witness :
  (exists color_data,
     dumps (run height_env height_args).2 = [("run2.cf", color_data)]
     /\ is_Some (color_data !! "height"))
  /\ "height" ∉ plotted_variables height_dataset.
Proof.
  apply (coordinate_colored_not_plotted height_env height_args
           (run height_env height_args).2 height_dataset "height").
  - vm_compute. reflexivity.
  - vm_compute. reflexivity.
  - apply elem_of_dom. eexists. vm_compute. reflexivity.
  - apply (proj1 (bool_decide_eq_false _)). vm_compute. reflexivity.
  - apply (proj1 (bool_decide_eq_true _)). vm_compute. reflexivity.
Defined.

(** X24. With a colorfile, a resolution that returns has warned once for
    every variable that is neither a dimension nor in the colorfile, in
    the order of the variables, and has printed nothing. *)
Theorem fallback_resolution_output env args dataset cf loaded color_data evs :
  colorfile args = Some cf ->
  load_pickle env cf = Ok loaded ->
  resolve_colors env args dataset = (Ok color_data, evs) ->
  evs = (fun v => Warn ("Couldn't find color data for " +:+ v))
          <$> filter (fun v => (v ∉ ds_dims dataset) /\ (v ∉ dom loaded))
                     (variable_names dataset).
Proof.
  intros Hcf Hload. unfold resolve_colors.
  rewrite Hcf, (open_colorfile_ok env cf loaded Hload). cbn.
  destruct (io_fold (fallback_step env dataset) (variable_names dataset) loaded)
    as [r e] eqn:Hfold.
  intros [= -> ->].
  pose proof (fallback_fold_inv env dataset _ (variable_names_NoDup dataset)
                _ _ _ Hfold) as (_ & _ & Hinf).
  destruct (fallback_fold env dataset _ (variable_names_NoDup dataset) loaded)
    as (cd' & Hrun & _).
  { intros v Hv [Hd Hl]. destruct (Hinf v Hv Hd Hl) as (p & -> & _). done. }
  rewrite Hrun in Hfold. by injection Hfold as _ <-.
Qed.

Lemma fallback_resolution_output_witness :
  (resolve_colors pressure_env pressure_cache_args pressure_dataset).2
  = [Warn "Couldn't find color data for P"; Warn "Couldn't find color data for T"].
Proof.
  rewrite (fallback_resolution_output pressure_env pressure_cache_args pressure_dataset
             "empty.cf" ∅
             (match (resolve_colors pressure_env pressure_cache_args pressure_dataset).1 with
              | Ok cd => cd | Raise _ => ∅ end)
             (resolve_colors pressure_env pressure_cache_args pressure_dataset).2
             eq_refl eq_refl).
  - vm_compute. reflexivity.
  - vm_compute. reflexivity.
Defined.
